(** * ghp: a shallow embedding of the GitHub profiler's core

    The Go package [ghp] discovers a user's repositories, picks source files
    by a path heuristic, asks an LLM for per-file scores and aggregates them
    into one score per repository.  This file embeds the parts of the package
    that carry its logic (path scoring and selection, the TTL disk cache,
    repository discovery, the per-call retry loop, the string-or-object JSON
    decoders and the per-repository aggregation) and proves properties of
    them.

    Conventions.  A Go [string] is a byte sequence and is modelled by
    [string] (a list of 8-bit [ascii]).  A Go [int] is modelled by [Z]; where
    the source adds or subtracts values that are not bounded by the code
    itself the 64-bit wrap-around is written out with [wrap64].  A [float64] is a
    primitive binary64 [float].  A run-time panic is an explicit outcome. *)

From Stdlib Require Import ZArith String Ascii List Bool Lia Permutation Sorted.
From Stdlib Require Import PrimFloat FloatOps SpecFloat.
From stdpp Require Import gmap strings list pretty.

Import ListNotations.
#[local] Set Warnings "-inexact-float".
Local Open Scope string_scope.
Local Open Scope list_scope.
Local Open Scope Z_scope.

(** ** Part I: the embedding *)

(** *** Go built-ins and standard-library calls *)

(** A Go [error] value, by its message. *)
Definition error := string.

(** The (value, error) pair of a Go call whose value is read only when the
    error is nil. *)
Inductive result (A : Type) : Type :=
| Ok (a : A)
| Err (e : error).
Arguments Ok {A} a.
Arguments Err {A} e.

(** Two's-complement wrap-around of a 64-bit [int]. *)
Definition wrap64 (z : Z) : Z := (z + 2 ^ 63) mod 2 ^ 64 - 2 ^ 63.

(** [len(s)] as an [int]. *)
Definition len {A} (l : list A) : Z := Z.of_nat (List.length l).

(** [strings.HasPrefix]. *)
Definition HasPrefix (s pre : string) : bool := String.prefix pre s.

(** [strings.Contains]: some suffix of [s] starts with [substr]. *)
Fixpoint Contains (s substr : string) : bool :=
  String.prefix substr s ||
  match s with
  | EmptyString => false
  | String _ s' => Contains s' substr
  end.

(** [strings.HasSuffix]. *)
Definition HasSuffix (s suffix : string) : bool :=
  let n := String.length s in
  let m := String.length suffix in
  (m <=? n)%nat && String.eqb (substring (n - m) m s) suffix.

(** The backward scan of [filepath.Ext] (with [/] as the path separator):
    [None] while neither a dot nor a separator has been met. *)
Fixpoint extScan (path : string) : option string :=
  match path with
  | EmptyString => None
  | String c rest =>
      match extScan rest with
      | Some e => Some e
      | None =>
          if Ascii.eqb c "/" then Some ""
          else if Ascii.eqb c "." then Some (String c rest)
          else None
      end
  end.

(** [filepath.Ext]. *)
Definition Ext (path : string) : string := default "" (extScan path).

(** The standard-library operations whose result the language leaves open or
    that depend on Unicode tables: they are parameters of the embedding.
    - [ToLower] is [strings.ToLower];
    - [SortFunc] is [slices.SortFunc], which is not stable;
    - [mapRange] is the order in which [for _, v := range m] visits a map;
    - [foldName] is the Unicode case folding by which [encoding/json] matches
      an object key to a struct field when no field has the exact name;
    - [Join] is [filepath.Join], which depends on the platform;
    - [intOfFloatOverflow] is the implementation-specific result of the
      conversion [int(f)] when [f] is not representable. *)
Class GoStd := {
  ToLower : string -> string;
  SortFunc : forall {A : Type}, (A -> A -> Z) -> list A -> list A;
  mapRange : forall {V : Type}, gmap string V -> list (string * V);
  foldName : string -> string;
  Join : list string -> string;
  intOfFloatOverflow : float -> Z
}.

(** A comparison function is a strict weak ordering on the elements of a
    slice, as [slices.SortFunc] requires: "less" is [cmp a b < 0]. *)
Record StrictWeakOn {A} (cmp : A -> A -> Z) (l : list A) : Prop := {
  sw_irrefl : forall a, In a l -> ~ cmp a a < 0;
  sw_trans : forall a b c, In a l -> In b l -> In c l ->
    cmp a b < 0 -> cmp b c < 0 -> cmp a c < 0;
  sw_negtrans : forall a b c, In a l -> In b l -> In c l ->
    cmp a c < 0 -> cmp a b < 0 \/ cmp b c < 0
}.

(** What the documentation of those operations promises. *)
Class GoStdSpec (G : GoStd) : Prop := {
  SortFunc_perm : forall A (cmp : A -> A -> Z) (l : list A),
    Permutation (SortFunc cmp l) l;
  SortFunc_sorted : forall A (cmp : A -> A -> Z) (l : list A),
    StrictWeakOn cmp l ->
    StronglySorted (fun a b => ~ cmp b a < 0) (SortFunc cmp l);
  mapRange_perm : forall V (m : gmap string V),
    Permutation (mapRange m) (map_to_list m)
}.

(** *** Configuration ([App], [Auth], [LLM], [Config]) *)

Record App := {
  PromptPath : string;
  OutDir : string;
  ReposLimit : Z;
  ChunksPerRepo : Z;
  MaxChunkBytes : Z;
  IncludePinned : bool;
  IncludeNonPinned : bool;
  ExcludeForks : bool
}.

Record Auth := { GithubToken : string }.

Record LLM := {
  Provider : string;
  Model : string;
  APIKey : string;
  Endpoint : string;
  MaxTokens : Z;
  Temperature : float; (* a float32 in the source; never computed with *)
  RequestsPerMinute : Z;
  ParallelRequests : Z
}.

Record Config := { cfgApp : App; cfgAuth : Auth; cfgLLM : LLM }.

(** [LoadConfig], given the outcome of [os.ReadFile(path)], the YAML decoder
    (applied to the zero [Config]) and the environment: only the two LLM
    limits and the GitHub token get a default. *)
Definition LoadConfig (file : result string) (yamlUnmarshal : string -> result Config)
    (getenv : string -> string) : result Config :=
  match file with
  | Err err => Err err
  | Ok b =>
      match yamlUnmarshal b with
      | Err err => Err err
      | Ok c =>
          let llm := cfgLLM c in
          let parallel :=
            if ParallelRequests llm <=? 0 then 4 else ParallelRequests llm in
          let rpm :=
            if RequestsPerMinute llm <=? 0 then 60 else RequestsPerMinute llm in
          let token :=
            if String.eqb (GithubToken (cfgAuth c)) "" then getenv "GITHUB_TOKEN"
            else GithubToken (cfgAuth c) in
          Ok {| cfgApp := cfgApp c;
                cfgAuth := {| GithubToken := token |};
                cfgLLM := {| Provider := Provider llm; Model := Model llm;
                             APIKey := APIKey llm; Endpoint := Endpoint llm;
                             MaxTokens := MaxTokens llm; Temperature := Temperature llm;
                             RequestsPerMinute := rpm; ParallelRequests := parallel |} |}
      end
  end.

(** *** File selection: [scorePath] and [pickPaths] *)

Definition oneOf (s : string) (l : list string) : bool := existsb (String.eqb s) l.

Definition scorePath `{GoStd} (p : string) : Z :=
  let l := ToLower p in
  if Contains l "/vendor/" || Contains l "/node_modules/" || Contains l "/.git/"
     || Contains l "/build/" || Contains l "/dist/"
  then 0
  else if HasPrefix l "gen/" || HasPrefix l "docs/" || Contains l "example"
  then 1
  else if HasSuffix l ".png" || HasSuffix l ".jpg" || HasSuffix l ".zip"
          || HasSuffix l ".pdf" || HasSuffix l ".svg"
  then 0
  else
    let score := 10 in
    let score :=
      if HasPrefix l "internal/" || HasPrefix l "pkg/" || HasPrefix l "src/"
         || HasPrefix l "lib/"
      then score + 20 else score in
    let score := if HasPrefix l "cmd/" then score + 15 else score in
    let ext := Ext l in
    let score :=
      if oneOf ext [".go"; ".py"; ".ts"; ".js"; ".java"; ".rs"; ".swift"; ".kt";
                    ".kts"; ".rb"; ".ex"; ".exs"; ".cs"; ".cpp"; ".c"; ".h"; ".hpp"]
      then score + 50
      else if oneOf ext [".sh"; ".sql"] then score + 20
      else if oneOf ext [".yml"; ".yaml"; ".json"; ".toml"; ".hcl"; "dockerfile"; ".tf"]
      then score + 5
      else if oneOf ext [".md"; ".txt"; ".html"; ".css"] then score + 2
      else score in
    let score :=
      if HasSuffix l "_test.go" || Contains l ".test." || Contains l ".spec."
      then score - 5 else score in
    if HasSuffix l ".lock" || HasSuffix l "go.sum" then 1 else score.

Record scoredPath := { spPath : string; spScore : Z }.

(** The first loop of [pickPaths]: keep the entries with a positive score. *)
Definition scoreEntries `{GoStd} (entries : list string) : list scoredPath :=
  flat_map (fun p =>
    let score := scorePath p in
    if 0 <? score then [ {| spPath := p; spScore := score |} ] else [])
    entries.

(** The last loop of [pickPaths]: append, then test the length and break. *)
Fixpoint takePaths (sps : list scoredPath) (out : list string) (n : Z) : list string :=
  match sps with
  | [] => out
  | sp :: rest =>
      let out := out ++ [spPath sp] in
      if n <=? len out then out else takePaths rest out n
  end.

Definition pickPaths `{GoStd} (entries : list string) (cfg : Config) : list string :=
  let scoredPaths := scoreEntries entries in
  let scoredPaths :=
    SortFunc (fun a b => spScore b - spScore a) scoredPaths in
  takePaths scoredPaths [] (ChunksPerRepo (cfgApp cfg)).

(** *** The TTL disk cache: [getCachePath], [writeCache], [readCache] *)

(** What the operating system answers for one path: [os.Stat] gives the
    modification time (nanoseconds since the epoch) or fails, [os.ReadFile]
    gives the bytes or fails.  A path that is not bound does not exist. *)
Record fsEntry := {
  entStat : result Z;
  entData : result string
}.

(** The part of the operating system the cache talks to.  [mkdirAllErr path]
    is the outcome of [os.MkdirAll(filepath.Dir(path), 0755)] and
    [writeFileErr path] a failure of [os.WriteFile(path, _, 0644)]; a write
    that fails is taken to leave the file as it was. *)
Record OS := {
  userCacheDir : result string;
  files : gmap string fsEntry;
  mkdirAllErr : string -> option error;
  writeFileErr : string -> option error
}.

(** [encoding/json] for the values of one Go type: [Marshal v] is
    [json.Marshal(v)], and [Unmarshal b target] is [json.Unmarshal(b, &target)]
    with the value left in [target] and the error. *)
Class JSON (T : Type) := {
  Marshal : T -> result string;
  Unmarshal : string -> T -> T * option error
}.

(** Decoding what was encoded gives the value back. *)
Class JSONRoundTrip (T : Type) `{JSON T} : Prop :=
  unmarshal_marshal : forall (v target : T) (b : string),
    Marshal v = Ok b -> Unmarshal b target = (v, None).

(** [time.Duration] arithmetic saturates at the ends of [int64]. *)
Definition saturate64 (z : Z) : Z := Z.max (- 2 ^ 63) (Z.min (2 ^ 63 - 1) z).

(** [time.Since(t)] when the clock reads [now]. *)
Definition Since (now t : Z) : Z := saturate64 (now - t).

Definition Hour : Z := 3600 * 1000000000.

Definition getCachePath `{GoStd} (os : OS) (elem : list string) : result string :=
  match userCacheDir os with
  | Err e => Err e
  | Ok cacheDir => Ok (Join (cacheDir :: "ghp" :: elem))
  end.

Definition writeCache {T} `{JSON T} (os : OS) (now : Z) (path : string) (data : T)
  : OS * option error :=
  match mkdirAllErr os path with
  | Some e => (os, Some e)
  | None =>
      match Marshal data with
      | Err e => (os, Some e)
      | Ok b =>
          match writeFileErr os path with
          | Some e => (os, Some e)
          | None =>
              ({| userCacheDir := userCacheDir os;
                  files := <[path := {| entStat := Ok now; entData := Ok b |}]> (files os);
                  mkdirAllErr := mkdirAllErr os;
                  writeFileErr := writeFileErr os |}, None)
          end
      end
  end.

(** [readCache] returns the hit flag, the error and the target. *)
Definition readCache {T} `{JSON T} (os : OS) (now : Z) (path : string) (target : T)
    (ttl : Z) : bool * option error * T :=
  match files os !! path with
  | None => (false, None, target)
  | Some ent =>
      match entStat ent with
      | Err e => (false, Some e, target)
      | Ok modTime =>
          if ttl <? Since now modTime then (false, None, target)
          else
            match entData ent with
            | Err e => (false, Some e, target)
            | Ok b =>
                match Unmarshal b target with
                | (target, Some e) => (false, Some e, target)
                | (target, None) => (true, None, target)
                end
            end
      end
  end.

(** *** Repository discovery: [DiscoverUserRepos] *)

Record RepoTarget := {
  Owner : string;
  Name : string;
  DefaultBranch : string;
  Stars : Z;
  Pinned : bool;
  Language : string
}.

Record discoverOptions := {
  Limit : Z;
  optIncludePinned : bool;
  optIncludeNonPinned : bool;
  optExcludeForks : bool
}.

Record repoGraphQL := {
  NameWithOwner : string;
  DefaultBranchRefName : string;
  StargazerCount : Z;
  IsFork : bool;
  OwnerLogin : string;
  repoName : string;
  PrimaryLanguageName : string;
  PrimaryLanguageColor : string
}.

(** The answer to [userRepoQuery]: the pinned repositories and the user's
    repositories by push date, each in the order of the reply. *)
Record userRepoQuery := {
  PinnedItems : list repoGraphQL;
  Repositories : list repoGraphQL
}.

Definition repoGraphQLToTarget (r : repoGraphQL) (pinned : bool) : RepoTarget := {|
  Owner := OwnerLogin r;
  Name := repoName r;
  DefaultBranch := DefaultBranchRefName r;
  Stars := StargazerCount r;
  Pinned := pinned;
  Language := PrimaryLanguageName r
|}.

(** The zero value, which a map lookup of a missing key returns. *)
Definition zeroRepoTarget : RepoTarget := {|
  Owner := ""; Name := ""; DefaultBranch := ""; Stars := 0; Pinned := false;
  Language := ""
|}.

(** The loop over the pinned nodes: it fills [repoMap] and [pinnedOrder]. *)
Definition addPinned (opt : discoverOptions)
    (st : gmap string RepoTarget * list string) (r : repoGraphQL)
  : gmap string RepoTarget * list string :=
  let '(repoMap, pinnedOrder) := st in
  if String.eqb (NameWithOwner r) "" then st
  else if optExcludeForks opt && IsFork r then st
  else (<[NameWithOwner r := repoGraphQLToTarget r true]> repoMap,
        pinnedOrder ++ [NameWithOwner r]).

(** The loop over the other repositories. *)
Definition addNonPinned (opt : discoverOptions)
    (repoMap : gmap string RepoTarget) (r : repoGraphQL) : gmap string RepoTarget :=
  if String.eqb (NameWithOwner r) "" then repoMap
  else if bool_decide (is_Some (repoMap !! NameWithOwner r)) then repoMap
  else if optExcludeForks opt && IsFork r then repoMap
  else <[NameWithOwner r := repoGraphQLToTarget r false]> repoMap.

(** The loop over [pinnedOrder]: append [repoMap[key]] and delete the key. *)
Definition movePinned (st : list RepoTarget * gmap string RepoTarget) (key : string)
  : list RepoTarget * gmap string RepoTarget :=
  let '(targets, repoMap) := st in
  (targets ++ [default zeroRepoTarget (repoMap !! key)], delete key repoMap).

(** [DiscoverUserRepos] from the reply of the query to the truncation. *)
Definition discoverTargets `{GoStd} (opt : discoverOptions) (query : userRepoQuery)
  : list RepoTarget :=
  let '(repoMap, pinnedOrder) :=
    if optIncludePinned opt
    then fold_left (addPinned opt) (PinnedItems query) (∅, [])
    else (∅, []) in
  let repoMap :=
    if optIncludeNonPinned opt
    then fold_left (addNonPinned opt) (Repositories query) repoMap
    else repoMap in
  let '(targets, repoMap) := fold_left movePinned pinnedOrder ([], repoMap) in
  let remaining := map snd (mapRange repoMap) in
  let remaining := SortFunc (fun a b => wrap64 (Stars b - Stars a)) remaining in
  let targets := targets ++ remaining in
  if (0 <? Limit opt) && (Limit opt <? len targets)
  then firstn (Z.to_nat (Limit opt)) targets
  else targets.

(** The GitHub clients behind [ghRepoImpl], by what they answer. *)
Record ghRepoImpl := {
  graphqlQuery : string -> result userRepoQuery
}.

(** [DiscoverUserRepos]: the cache is read at time [now] and written at time
    [later]; the new state of the disk is returned with the result. *)
Definition DiscoverUserRepos `{GoStd} `{JSON (list RepoTarget)} (g : ghRepoImpl)
    (os : OS) (now later : Z) (handle : string) (opt : discoverOptions)
  : OS * result (list RepoTarget) :=
  match getCachePath os [("repos-" ++ handle ++ ".json")%string] with
  | Err e => (os, Err e)
  | Ok cachePath =>
      let '(hit, _, cachedRepos) := readCache os now cachePath [] (1 * Hour) in
      if hit then (os, Ok cachedRepos)
      else
        match graphqlQuery g handle with
        | Err e => (os, Err ("graphql query: " ++ e)%string)
        | Ok query =>
            let targets := discoverTargets opt query in
            (fst (writeCache os later cachePath targets), Ok targets)
        end
  end.

(** *** The string-or-object decoders: [UnmarshalJSON] *)

(** A JSON value, as [encoding/json] has scanned it: the methods below
    receive the text of one valid value. *)
#[local] Unset Elimination Schemes.
Inductive json : Type :=
| JNull
| JBool (b : bool)
| JNumber (literal : string)
| JString (s : string)
| JArray (elements : list json)
| JObject (members : list (string * json)).
#[local] Set Elimination Schemes.

(** [json.Unmarshal(data, &s)] for a Go [string]: a JSON string sets it,
    [null] leaves it, any other value is a type error. *)
Definition unmarshalString (data : json) (s : string) : string * option error :=
  match data with
  | JString t => (t, None)
  | JNull => (s, None)
  | _ => (s, Some "json: cannot unmarshal value into Go value of type string")
  end.

Section StructDecoding.
Context `{GoStd} {S F : Type}.
(** The JSON names of the fields, in declaration order, with the way to read
    and to set a (string) field. *)
Variable fields : list (string * F).
Variable getField : S -> F -> string.
Variable setField : S -> F -> string -> S.

(** The field an object key decodes into: the one with that exact name,
    else the first one with the same folded name. *)
Definition fieldByKey (key : string) : option F :=
  match find (fun nf => String.eqb (fst nf) key) fields with
  | Some nf => Some (snd nf)
  | None =>
      match find (fun nf => String.eqb (foldName (fst nf)) (foldName key)) fields with
      | Some nf => Some (snd nf)
      | None => None
      end
  end.

(** One member of the object: unknown keys are skipped, the first error is
    kept and decoding goes on. *)
Definition decodeMember (st : S * option error) (member : string * json)
  : S * option error :=
  let '(a, err) := st in
  match fieldByKey (fst member) with
  | None => st
  | Some f =>
      let '(v, e) := unmarshalString (snd member) (getField a f) in
      (setField a f v, match err with Some _ => err | None => e end)
  end.

(** [json.Unmarshal(data, &a)] for a struct of string fields. *)
Definition unmarshalStruct (data : json) (a : S) : S * option error :=
  match data with
  | JNull => (a, None)
  | JObject members => fold_left decodeMember members (a, None)
  | _ => (a, Some "json: cannot unmarshal value into Go value of struct type")
  end.
End StructDecoding.

Record ArchStrength := {
  asPoint : string;
  asJustification : string
}.

Record ArchConsideration := {
  acPoint : string;
  acJustification : string;
  acSeverity : string
}.

Inductive archField := FPoint | FJustification | FSeverity.

#[export] Instance archField_eq_dec : EqDecision archField.
Proof. solve_decision. Defined.

Definition strengthFields : list (string * archField) :=
  [("point", FPoint); ("justification", FJustification)].

Definition considerationFields : list (string * archField) :=
  [("point", FPoint); ("justification", FJustification); ("severity", FSeverity)].

Definition asGet (a : ArchStrength) (f : archField) : string :=
  match f with FPoint => asPoint a | _ => asJustification a end.

Definition asSet (a : ArchStrength) (f : archField) (v : string) : ArchStrength :=
  match f with
  | FPoint => {| asPoint := v; asJustification := asJustification a |}
  | _ => {| asPoint := asPoint a; asJustification := v |}
  end.

Definition acGet (a : ArchConsideration) (f : archField) : string :=
  match f with
  | FPoint => acPoint a
  | FJustification => acJustification a
  | FSeverity => acSeverity a
  end.

Definition acSet (a : ArchConsideration) (f : archField) (v : string) : ArchConsideration :=
  match f with
  | FPoint => {| acPoint := v; acJustification := acJustification a; acSeverity := acSeverity a |}
  | FJustification => {| acPoint := acPoint a; acJustification := v; acSeverity := acSeverity a |}
  | FSeverity => {| acPoint := acPoint a; acJustification := acJustification a; acSeverity := v |}
  end.

Definition zeroArchStrength : ArchStrength := {| asPoint := ""; asJustification := "" |}.

Definition zeroArchConsideration : ArchConsideration :=
  {| acPoint := ""; acJustification := ""; acSeverity := "" |}.

(** [ArchStrength.UnmarshalJSON]: the receiver after the call and the error. *)
Definition ArchStrength_UnmarshalJSON `{GoStd} (as_ : ArchStrength) (data : json)
  : ArchStrength * option error :=
  let '(s, err) := unmarshalString data "" in
  match err with
  | None => ({| asPoint := s; asJustification := asJustification as_ |}, None)
  | Some _ =>
      let '(a, err) := unmarshalStruct strengthFields asGet asSet data zeroArchStrength in
      match err with
      | Some e => (as_, Some e)
      | None => (a, None)
      end
  end.

(** [ArchConsideration.UnmarshalJSON]. *)
Definition ArchConsideration_UnmarshalJSON `{GoStd} (ac : ArchConsideration) (data : json)
  : ArchConsideration * option error :=
  let '(s, err) := unmarshalString data "" in
  match err with
  | None =>
      ({| acPoint := s; acJustification := acJustification ac; acSeverity := "Low" |},
       None)
  | Some _ =>
      let '(a, err) :=
        unmarshalStruct considerationFields acGet acSet data zeroArchConsideration in
      match err with
      | Some e => (ac, Some e)
      | None => (a, None)
      end
  end.

(** *** One LLM call with its retries: [evalOne], [extractJSON] *)

(** The index of the first byte [c] of [s], if any. *)
Fixpoint indexByte (s : string) (c : ascii) : option nat :=
  match s with
  | EmptyString => None
  | String d s' => if Ascii.eqb d c then Some 0%nat else S <$> indexByte s' c
  end.

(** The index of the last byte [c] of [s], if any. *)
Fixpoint lastIndexByte (s : string) (c : ascii) : option nat :=
  match s with
  | EmptyString => None
  | String d s' =>
      match lastIndexByte s' c with
      | Some i => Some (S i)
      | None => if Ascii.eqb d c then Some 0%nat else None
      end
  end.

(** [strings.IndexByte] and [strings.LastIndexByte]: -1 when absent. *)
Definition IndexByte (s : string) (c : ascii) : Z :=
  match indexByte s c with Some i => Z.of_nat i | None => -1 end.

Definition LastIndexByte (s : string) (c : ascii) : Z :=
  match lastIndexByte s c with Some i => Z.of_nat i | None => -1 end.

Definition extractJSON (s : string) : result string :=
  let start := IndexByte s "{" in
  let end_ := LastIndexByte s "}" in
  if (start =? -1) || (end_ =? -1) || (end_ <=? start)
  then Err "no json braces found"
  else Ok (substring (Z.to_nat start) (Z.to_nat (end_ + 1 - start)) s).

(** A chat completion, by the message content of its choices. *)
Record ChatCompletion := { Choices : list string }.

(** What one call of [evalOne] does to the outside: a request to the
    completion endpoint (numbered from 0) or a sleep, in milliseconds. *)
Inductive effect :=
| Request (attempt : nat)
| Sleep (ms : Z).

(** The decoding of the reply text in [evalOne]: the whole text first, then
    the text between the braces. *)
Definition decodeReply {T} `{JSON T} (txt : string) (out : T) : T * option error :=
  match Unmarshal txt out with
  | (out, None) => (out, None)
  | (out, Some err) =>
      match extractJSON txt with
      | Err _ => (out, Some ("json parse: " ++ err)%string)
      | Ok js =>
          match Unmarshal js out with
          | (out, Some err) => (out, Some ("json parse(2): " ++ err)%string)
          | (out, None) => (out, None)
          end
      end
  end.

(** The loop of [evalOne] from attempt number [attempt], with [remaining]
    attempts to go.  [sdk k] is the outcome of the request of attempt [k]
    (the request itself is the same at every attempt).  The result is the
    target, the error, and the effects in order. *)
Fixpoint evalOneFrom {T} `{JSON T} (sdk : nat -> result ChatCompletion)
    (remaining attempt : nat) (lastErr : option error) (out : T)
  : T * option error * list effect :=
  match remaining with
  | O => (out, lastErr, [])
  | S remaining =>
      match sdk attempt with
      | Err err =>
          let '(out, e, effects) :=
            evalOneFrom sdk remaining (S attempt) (Some err) out in
          (out, e, Request attempt :: Sleep (300 * (Z.of_nat attempt + 1)) :: effects)
      | Ok resp =>
          match Choices resp with
          | [] => (out, Some "empty completion", [Request attempt])
          | txt :: _ =>
              let '(out, e) := decodeReply txt out in
              (out, e, [Request attempt])
          end
      end
  end.

Definition evalOne {T} `{JSON T} (sdk : nat -> result ChatCompletion) (out : T)
  : T * option error * list effect :=
  evalOneFrom sdk 3 0 None out.

(** *** Per-repository evaluation: [evaluateRepo], [Submit] *)

Record FileChunk := {
  Path : string;
  StartLine : Z;
  EndLine : Z;
  Content : string;
  fcLanguage : string
}.

Record Citation := { File : string; Lines : string; Reason : string }.

Record ChunkScore := {
  Readability : Z;
  Design : Z;
  Testing : Z;
  Maintain : Z;
  Idiomatic : Z;
  Security : Z;
  Notes : list string;
  Citations : list Citation
}.

Record archScore := {
  ArchStrengths : list ArchStrength;
  ArchConsiderations : list ArchConsideration
}.

Record Sample := { URL : string; Note : string }.

Record RepoResult := {
  Repo : RepoTarget;
  Score : Z;
  Strengths : list string;
  Risks : list string;
  rrArchStrengths : list ArchStrength;
  rrArchConsiderations : list ArchConsideration;
  Samples : list Sample;
  Files : Z;
  Chunks : Z
}.

(** [RepoResult{Repo: repo}]: every other field has its zero value. *)
Definition emptyResult (repo : RepoTarget) : RepoResult := {|
  Repo := repo; Score := 0; Strengths := []; Risks := [];
  rrArchStrengths := []; rrArchConsiderations := []; Samples := [];
  Files := 0; Chunks := 0
|}.

(** A computation that returns or panics.  A panic in a goroutine that
    nothing recovers ends the process. *)
Inductive outcome (A : Type) : Type :=
| Returns (a : A)
| Panics (msg : string).
Arguments Returns {A} a.
Arguments Panics {A} msg.

Definition bindOutcome {A B} (m : outcome A) (k : A -> outcome B) : outcome B :=
  match m with
  | Returns a => k a
  | Panics msg => Panics msg
  end.

Notation "'let!' x ':=' m 'in' k" := (bindOutcome m (fun x => k))
  (at level 10, x name, m at level 100, k at level 200).

(** The loop [for i, x := range l] with a body that may panic. *)
Fixpoint forRange {A St} (body : St -> nat -> A -> outcome St) (l : list A)
    (i : nat) (st : St) : outcome St :=
  match l with
  | [] => Returns st
  | x :: l' => let! st' := body st i x in forRange body l' (S i) st'
  end.

(** The interface [ghRepo].  A Go method returns its value and its error
    side by side; where the caller reads the value only when the error is
    nil the pair is a [result]. *)
Record ghRepo := {
  ghDiscoverUserRepos : string -> discoverOptions -> result (list RepoTarget);
  GetLatestCommitSHA : string -> string -> string -> string * option error;
  ListTree : string -> string -> string -> string -> result (list string);
  ReadFile : string -> string -> string -> string -> string -> result string
}.

(** The service: its configuration, the GitHub interface, and the answers of
    the LLM.  [scoreChunks] is [llm.EvaluateJSON] into a [[]ChunkScore]
    (the slice it leaves and the error), [archOf] is what
    [evaluateArchitecture] returns (it logs a failure and never aborts), and
    [report] is the rendering of the sorted results with the headline and the
    summary. *)
Record service := {
  cfg : Config;
  gh : ghRepo;
  scoreChunks : RepoTarget -> list FileChunk -> list ChunkScore * option error;
  archOf : RepoTarget -> list string -> archScore;
  report : string -> list RepoResult -> string
}.

(** [strings.Count(s, "\n")]. *)
Fixpoint countNewlines (s : string) : Z :=
  match s with
  | EmptyString => 0
  | String c s' => (if Ascii.eqb c "010" then 1 else 0) + countNewlines s'
  end.

Definition guessLang `{GoStd} (p : string) : string :=
  let l := ToLower p in
  if HasSuffix l ".go" then "Go"
  else if HasSuffix l ".ts" then "TypeScript"
  else if HasSuffix l ".js" then "JavaScript"
  else if HasSuffix l ".py" then "Python"
  else if HasSuffix l ".rb" then "Ruby"
  else if HasSuffix l ".java" then "Java"
  else if HasSuffix l ".dart" then "Dart"
  else if HasSuffix l ".clj" then "Clojure"
  else if HasSuffix l ".cljs" then "ClojureScript"
  else if HasSuffix l ".rkt" then "Racket"
  else if HasSuffix l ".gleam" then "Gleam"
  else if HasSuffix l ".ex" || HasSuffix l ".exs" then "Elixir"
  else if HasSuffix l ".md" || HasSuffix l ".markdown" then "Markdown"
  else if HasSuffix l ".cpp" || HasSuffix l ".hpp" || HasSuffix l ".cc"
          || HasSuffix l ".h" then "C++"
  else if HasSuffix l ".cs" then "C#"
  else if HasSuffix l ".swift" then "Swift"
  else if HasSuffix l ".kt" || HasSuffix l ".kts" then "Kotlin"
  else if HasSuffix l ".rs" then "Rust"
  else if HasSuffix l ".php" then "PHP"
  else if HasSuffix l ".html" || HasSuffix l ".htm" then "HTML"
  else if HasSuffix l ".css" then "CSS"
  else if HasSuffix l ".sh" then "Shell"
  else if HasSuffix l ".yml" || HasSuffix l ".yaml" then "YAML"
  else if HasSuffix l ".json" then "JSON"
  else if HasSuffix l ".toml" then "TOML"
  else "Unknown".

(** One round of the loop of [sampleChunks]; [None] is the [break].  The
    slice expression [data[:MaxChunkBytes]] panics on a negative bound. *)
Definition sampleChunk `{GoStd} (s : service) (repo : RepoTarget) (sha : string)
    (chunks : list FileChunk) (fp : string) : outcome (option (list FileChunk)) :=
  if ChunksPerRepo (cfgApp (cfg s)) <=? len chunks then Returns None
  else
    match ReadFile (gh s) (Owner repo) (Name repo) (DefaultBranch repo) fp sha with
    | Err _ => Returns (Some chunks)
    | Ok data =>
        if Z.of_nat (String.length data) =? 0 then Returns (Some chunks)
        else
          let maxBytes := MaxChunkBytes (cfgApp (cfg s)) in
          let! data :=
            (if maxBytes <? Z.of_nat (String.length data)
             then if maxBytes <? 0
                  then Panics "slice bounds out of range"
                  else Returns (substring 0 (Z.to_nat maxBytes) data)
             else Returns data) in
          let lines := 1 + countNewlines data in
          Returns (Some (chunks ++ [ {| Path := fp; StartLine := 1; EndLine := lines;
                                        Content := data; fcLanguage := guessLang fp |} ]))
    end.

Fixpoint sampleChunksFrom `{GoStd} (s : service) (repo : RepoTarget) (sha : string)
    (files : list string) (chunks : list FileChunk) : outcome (list FileChunk) :=
  match files with
  | [] => Returns chunks
  | fp :: files' =>
      let! step := sampleChunk s repo sha chunks fp in
      match step with
      | None => Returns chunks
      | Some chunks' => sampleChunksFrom s repo sha files' chunks'
      end
  end.

Definition sampleChunks `{GoStd} (s : service) (repo : RepoTarget)
    (files : list string) (sha : string) : outcome (list FileChunk) :=
  sampleChunksFrom s repo sha files [].

(** The conversion [float64(n)] of an [int]: the nearest binary64 value. *)
Definition float64OfInt (n : Z) : float :=
  SF2Prim (binary_normalize prec emax n 0 false).

(** The integral part of a finite float ([None] for infinities and NaN). *)
Definition truncFloat (f : float) : option Z :=
  match Prim2SF f with
  | S754_zero _ => Some 0
  | S754_finite sgn m e =>
      let magnitude := if 0 <=? e then Z.pos m * 2 ^ e else Z.pos m / 2 ^ (- e) in
      Some (if sgn then - magnitude else magnitude)
  | _ => None
  end.

(** The conversion [int(f)]: the fraction is discarded; the result for a
    value outside [int] is left to the implementation. *)
Definition intOfFloat `{GoStd} (f : float) : Z :=
  match truncFloat f with
  | Some v => if (- 2 ^ 63 <=? v) && (v <? 2 ^ 63) then v else intOfFloatOverflow f
  | None => intOfFloatOverflow f
  end.

Definition clamp (v lo hi : Z) : Z :=
  if v <? lo then lo else if hi <? v then hi else v.

Definition first (s : list string) : string :=
  match s with
  | x :: _ => x
  | [] => ""
  end.

(** The variables that the scoring loop of [evaluateRepo] updates. *)
Record tally := {
  sum : float;
  cnt : float;
  strengths : list string;
  risks : list string;
  samples : list Sample
}.

Definition emptyTally : tally :=
  {| sum := 0; cnt := 0; strengths := []; risks := []; samples := [] |}.

(** The [switch] on one note: the first case that matches wins. *)
Definition classifyNote `{GoStd} (st : list string * list string) (n : string)
  : list string * list string :=
  let '(strengths, risks) := st in
  let ln := ToLower n in
  if Contains ln "well-structured" || Contains ln "idiomatic" || Contains ln "tested"
  then ((if len strengths <? 3 then strengths ++ [n] else strengths), risks)
  else if Contains ln "missing tests" || Contains ln "long function"
          || Contains ln "globals" || Contains ln "security"
          || Contains ln "concurrency"
  then (strengths, (if len risks <? 3 then risks ++ [n] else risks))
  else st.

(** The weight of a chunk, from its lower-cased path. *)
Definition chunkWeight (p : string) : float :=
  let w := 1%float in
  let w := if Contains p "test" then (w + 0.1)%float else w in
  let w := if HasPrefix p "cmd/" || Contains p "/internal/" then (w + 0.2)%float else w in
  w.

Definition total (sc : ChunkScore) : Z :=
  wrap64 (Readability sc + Design sc + Testing sc + Maintain sc + Idiomatic sc
          + Security sc).

(** The body of [for i, sc := range scores].  [chunks[i]] panics when the
    LLM client left more scores than there are chunks. *)
Definition tallyScore `{GoStd} (repo : RepoTarget) (chunks : list FileChunk)
    (st : tally) (i : nat) (sc : ChunkScore) : outcome tally :=
  if total sc =? 0 then Returns st
  else
    match nth_error chunks i with
    | None => Panics "index out of range"
    | Some chunk =>
        let p := ToLower (Path chunk) in
        let w := chunkWeight p in
        let sum := (sum st + (float64OfInt (total sc) / 30) * w)%float in
        let cnt := (cnt st + w)%float in
        let samples :=
          if (len (samples st) <? 3) && (0 <? len (Citations sc))
          then samples st ++
               [ {| URL := ("https://github.com/" ++ Owner repo ++ "/" ++ Name repo
                            ++ "/blob/" ++ DefaultBranch repo ++ "/" ++ Path chunk)%string;
                    Note := first (Notes sc) |} ]
          else samples st in
        let '(strengths, risks) :=
          fold_left classifyNote (Notes sc) (strengths st, risks st) in
        Returns {| sum := sum; cnt := cnt; strengths := strengths; risks := risks;
                   samples := samples |}
    end.

(** The score computed after the loop. *)
Definition finalScore `{GoStd} (st : tally) : Z :=
  if (0 <? cnt st)%float
  then clamp (intOfFloat ((sum st / cnt st) * 100)%float) 0 100
  else 0.

Definition evaluateRepo `{GoStd} (s : service) (repo : RepoTarget)
  : outcome (RepoResult * option error) :=
  let '(sha, _) := GetLatestCommitSHA (gh s) (Owner repo) (Name repo) (DefaultBranch repo) in
  (* fmt.Printf(..., sha[:7]) *)
  if Z.of_nat (String.length sha) <? 7 then Panics "slice bounds out of range"
  else
    match ListTree (gh s) (Owner repo) (Name repo) (DefaultBranch repo) sha with
    | Err err => Returns (emptyResult repo, Some err)
    | Ok tree =>
        let archResult := archOf s repo tree in
        let paths := pickPaths tree (cfg s) in
        let! chunks := sampleChunks s repo paths sha in
        if len chunks =? 0 then Returns (emptyResult repo, None)
        else
          let '(scores, _) := scoreChunks s repo chunks in
          let! st := forRange (tallyScore repo chunks) scores 0 emptyTally in
          Returns ({| Repo := repo;
                      Score := finalScore st;
                      Strengths := strengths st;
                      Risks := risks st;
                      rrArchStrengths := ArchStrengths archResult;
                      rrArchConsiderations := ArchConsiderations archResult;
                      Samples := samples st;
                      Files := len paths;
                      Chunks := len chunks |}, None)
    end.

(** The goroutines of [Submit], one per repository: each stores its result
    at its own index, and a panic in any of them ends the process. *)
Fixpoint evaluateAll `{GoStd} (s : service) (repos : list RepoTarget)
  : outcome (list RepoResult) :=
  match repos with
  | [] => Returns []
  | repo :: repos' =>
      let! res := evaluateRepo s repo in
      let! results := evaluateAll s repos' in
      Returns (fst res :: results)
  end.

(** The [discoverOptions] that [Submit] builds from the configuration. *)
Definition optionsOf (c : Config) : discoverOptions :=
  {| Limit := ReposLimit (cfgApp c);
     optIncludePinned := IncludePinned (cfgApp c);
     optIncludeNonPinned := IncludeNonPinned (cfgApp c);
     optExcludeForks := ExcludeForks (cfgApp c) |}.

(** A call that returns, panics, or blocks for ever. *)
Inductive run (A : Type) : Type :=
| Done (a : A)
| Panic (msg : string)
| Blocked.
Arguments Done {A} a.
Arguments Panic {A} msg.
Arguments Blocked {A}.

(** [Submit].  The semaphore [sem] is made once there are repositories:
    [make] panics on a negative capacity, and on a channel of capacity zero
    every goroutine blocks in its first statement, the send on [sem], so that
    [wg.Wait] never returns.  With a positive capacity every goroutine runs
    [evaluateRepo], and a panic in one of them ends the process. *)
Definition Submit `{GoStd} (s : service) (user : string) : run (result string) :=
  match ghDiscoverUserRepos (gh s) user (optionsOf (cfg s)) with
  | Err err => Done (Err err)
  | Ok repos =>
      if len repos =? 0 then Done (Err ("no repositories for @" ++ user)%string)
      else
        let capacity := ParallelRequests (cfgLLM (cfg s)) in
        if capacity <? 0 then Panic "makechan: size out of range"
        else if capacity =? 0 then Blocked
        else
          match evaluateAll s repos with
          | Panics msg => Panic msg
          | Returns results =>
              let results := SortFunc (fun a b => Score b - Score a) results in
              Done (Ok (report s user results))
          end
  end.

(** *** A concrete instance of the library operations

    ASCII lower-casing agrees with [strings.ToLower] and with the key folding
    on ASCII text; insertion sort is what [slices.SortFunc] runs on slices of
    at most 12 elements; joining with [/] is [filepath.Join] on clean,
    non-empty elements; the overflow value is the one of amd64.  The examples
    on concrete inputs run with this instance. *)

Definition lowerAscii (c : ascii) : ascii :=
  let n := nat_of_ascii c in
  if ((65 <=? n) && (n <=? 90))%nat then ascii_of_nat (n + 32) else c.

Fixpoint asciiToLower (s : string) : string :=
  match s with
  | EmptyString => EmptyString
  | String c s' => String (lowerAscii c) (asciiToLower s')
  end.

(** Insert [x] after the elements that are not greater than it. *)
Fixpoint insertCmp {A} (cmp : A -> A -> Z) (x : A) (l : list A) : list A :=
  match l with
  | [] => [x]
  | y :: l' => if cmp x y <? 0 then x :: y :: l' else y :: insertCmp cmp x l'
  end.

Definition insertionSort {A} (cmp : A -> A -> Z) (l : list A) : list A :=
  fold_left (fun acc x => insertCmp cmp x acc) l [].

#[export] Instance asciiStd : GoStd := {
  ToLower := asciiToLower;
  SortFunc := @insertionSort;
  mapRange := fun V => @map_to_list string V (gmap string V) _;
  foldName := asciiToLower;
  Join := String.concat "/";
  intOfFloatOverflow := fun _ => - 2 ^ 63
}.

Definition zeroConfig : Config := {|
  cfgApp := {| PromptPath := ""; OutDir := ""; ReposLimit := 0; ChunksPerRepo := 0;
               MaxChunkBytes := 0; IncludePinned := false; IncludeNonPinned := false;
               ExcludeForks := false |};
  cfgAuth := {| GithubToken := "" |};
  cfgLLM := {| Provider := ""; Model := ""; APIKey := ""; Endpoint := "";
               MaxTokens := 0; Temperature := 0%float; RequestsPerMinute := 0;
               ParallelRequests := 0 |}
|}.

(** JSON white space, which [json.Unmarshal] skips around a value. *)
Definition isJSONSpace (c : ascii) : bool :=
  Ascii.eqb c " " || Ascii.eqb c "009" || Ascii.eqb c "010" || Ascii.eqb c "013".

Fixpoint trimLeft (s : string) : string :=
  match s with
  | String c s' => if isJSONSpace c then trimLeft s' else s
  | EmptyString => EmptyString
  end.

Fixpoint trimRight (s : string) : string :=
  match s with
  | String c s' =>
      match trimRight s' with
      | EmptyString => if isJSONSpace c then EmptyString else String c EmptyString
      | t => String c t
      end
  | EmptyString => EmptyString
  end.

(** [encoding/json] at type [bool]: the literals [true] and [false] set the
    target, [null] leaves it, anything else is an error. *)
#[export] Instance boolJSON : JSON bool := {
  Marshal b := Ok (if b then "true" else "false");
  Unmarshal s target :=
    let v := trimRight (trimLeft s) in
    if String.eqb v "true" then (true, None)
    else if String.eqb v "false" then (false, None)
    else if String.eqb v "null" then (target, None)
    else (target, Some "json: cannot unmarshal into Go value of type bool")
}.

(** A disk with one cache file, written at time 1000. *)
Definition diskWith (path content : string) : OS := {|
  userCacheDir := Ok "/home/u/.cache";
  files := {[ path := {| entStat := Ok 1000; entData := Ok content |} ]};
  mkdirAllErr := fun _ => None;
  writeFileErr := fun _ => None
|}.

(** A configuration as [LoadConfig] returns it for a file that sets only
    [chunks_per_repo] (the two LLM limits get their defaults 4 and 60), and
    the zero [Config] that the decoder starts from. *)
Definition configWithChunks (n : Z) : Config := {|
  cfgApp := {| PromptPath := ""; OutDir := ""; ReposLimit := 0; ChunksPerRepo := n;
               MaxChunkBytes := 0; IncludePinned := false; IncludeNonPinned := false;
               ExcludeForks := false |};
  cfgAuth := {| GithubToken := "" |};
  cfgLLM := {| Provider := ""; Model := ""; APIKey := ""; Endpoint := "";
               MaxTokens := 0; Temperature := 0%float; RequestsPerMinute := 60;
               ParallelRequests := 4 |}
|}.

(** The discovery scenario: A and B are pinned, B and C are returned among
    the user's repositories, and the limit is 2. *)
Definition nodeOf (name : string) (stars : Z) : repoGraphQL := {|
  NameWithOwner := ("u/" ++ name)%string;
  DefaultBranchRefName := "main";
  StargazerCount := stars;
  IsFork := false;
  OwnerLogin := "u";
  repoName := name;
  PrimaryLanguageName := "Go";
  PrimaryLanguageColor := ""
|}.

Definition scenarioQuery : userRepoQuery := {|
  PinnedItems := [nodeOf "A" 5; nodeOf "B" 1];
  Repositories := [nodeOf "B" 1; nodeOf "C" 50]
|}.

Definition scenarioOptions : discoverOptions := {|
  Limit := 2;
  optIncludePinned := true;
  optIncludeNonPinned := true;
  optExcludeForks := false
|}.

(** Two completion endpoints: one that always fails, and one that fails
    once and then replies with the given choices. *)
Definition sdkDown : nat -> result ChatCompletion :=
  fun _ => Err "connection refused".

Definition sdkSecondTry (choices : list string) : nat -> result ChatCompletion :=
  fun attempt =>
    match attempt with
    | O => Err "timeout"
    | _ => Ok {| Choices := choices |}
    end.

(** The aggregation scenario: a chunk of weight 1.0 whose sub-scores sum to
    18 and a chunk of weight 1.2 (under cmd/) whose sub-scores sum to 24. *)
Definition chunkAt (path : string) : FileChunk :=
  {| Path := path; StartLine := 1; EndLine := 1; Content := "package main";
     fcLanguage := "Go" |}.

Definition scoreOfSix (each : Z) (notes : list string) : ChunkScore :=
  {| Readability := each; Design := each; Testing := each; Maintain := each;
     Idiomatic := each; Security := each; Notes := notes; Citations := [] |}.

Definition scenarioRepo : RepoTarget :=
  {| Owner := "u"; Name := "A"; DefaultBranch := "main"; Stars := 5; Pinned := true;
     Language := "Go" |}.

Definition scenarioChunks : list FileChunk := [chunkAt "main.go"; chunkAt "cmd/main.go"].

Definition scenarioScores : list ChunkScore := [scoreOfSix 3 []; scoreOfSix 4 []].

(** A service whose GitHub side finds one repository and then fails to
    resolve its branch, as [GetLatestCommitSHA] does on any API error. *)
Definition unresolvedRefService : service := {|
  cfg := configWithChunks 2;
  gh := {| ghDiscoverUserRepos := fun _ _ => Ok [scenarioRepo];
           GetLatestCommitSHA := fun _ _ _ => ("", Some "GET .../git/ref/heads/main: 404");
           ListTree := fun _ _ _ _ => Ok ["main.go"];
           ReadFile := fun _ _ _ _ _ => Ok "package main" |};
  scoreChunks := fun _ chunks => (map (fun _ => scoreOfSix 3 []) chunks, None);
  archOf := fun _ _ => {| ArchStrengths := []; ArchConsiderations := [] |};
  report := fun _ _ => "<!doctype html>"
|}.

(** The same service when the branch resolves. *)
Definition resolvedRefService (notes : list string) : service := {|
  cfg := configWithChunks 2;
  gh := {| ghDiscoverUserRepos := fun _ _ => Ok [scenarioRepo];
           GetLatestCommitSHA := fun _ _ _ => ("3f2a9c1d5e", None);
           ListTree := fun _ _ _ _ => Ok ["main.go"];
           ReadFile := fun _ _ _ _ _ => Ok "package main" |};
  scoreChunks := fun _ chunks => (map (fun _ => scoreOfSix 3 notes) chunks, None);
  archOf := fun _ _ => {| ArchStrengths := []; ArchConsiderations := [] |};
  report := fun _ _ => "<!doctype html>"
|}.

(** *** Notions in which the properties are stated *)

(** The guards of [scorePath], on the lower-cased path. *)
Definition containsExcludedDir (l : string) : bool :=
  existsb (fun d => Contains l ("/" ++ d ++ "/")%string)
    ["vendor"; "node_modules"; ".git"; "build"; "dist"].

(** The claim's reading of "under directory [d]": [d] is the first path
    component or a later one. *)
Definition underExcludedDir (l : string) : bool :=
  existsb (fun d => HasPrefix l (d ++ "/")%string || Contains l ("/" ++ d ++ "/")%string)
    ["vendor"; "node_modules"; ".git"; "build"; "dist"].

Definition hasBinaryExt (l : string) : bool :=
  existsb (HasSuffix l) [".png"; ".jpg"; ".zip"; ".pdf"; ".svg"].

Definition isGeneratedOrDocs (l : string) : bool :=
  HasPrefix l "gen/" || HasPrefix l "docs/" || Contains l "example".

(** A node is kept when it has a name and is not an excluded fork. *)
Definition keepNode (opt : discoverOptions) (r : repoGraphQL) : bool :=
  negb (String.eqb (NameWithOwner r) "") && negb (optExcludeForks opt && IsFork r).

(** The pinned repositories of the reply that are kept, in query order. *)
Definition pinnedKept (opt : discoverOptions) (q : userRepoQuery) : list repoGraphQL :=
  if optIncludePinned opt then List.filter (keepNode opt) (PinnedItems q) else [].

(** The first node of each name that is not in [seen]. *)
Fixpoint dedupByName (seen : list string) (l : list repoGraphQL) : list repoGraphQL :=
  match l with
  | [] => []
  | r :: l' =>
      if decide (NameWithOwner r ∈ seen) then dedupByName seen l'
      else r :: dedupByName (NameWithOwner r :: seen) l'
  end.

(** The other repositories that are kept and not already present. *)
Definition nonPinnedKept (opt : discoverOptions) (q : userRepoQuery) : list repoGraphQL :=
  if optIncludeNonPinned opt
  then dedupByName (map NameWithOwner (pinnedKept opt q))
         (List.filter (keepNode opt) (Repositories q))
  else [].

(** Truncation to a positive limit. *)
Definition truncateTo {A} (limit : Z) (l : list A) : list A :=
  if 0 <? limit then firstn (Z.to_nat limit) l else l.

Definition findByName (k : string) (l : list repoGraphQL) : option repoGraphQL :=
  find (fun r => String.eqb (NameWithOwner r) k) l.

(** The string that the members of an object give for field [f]: that of the
    last member whose key names [f] and whose value is a string, and [init]
    when there is none. *)
Definition givenField `{GoStd} (fields : list (string * archField)) (f : archField)
    (members : list (string * json)) (init : string) : string :=
  fold_left
    (fun acc member =>
       if decide (fieldByKey fields (fst member) = Some f)
       then match snd member with JString t => t | _ => acc end
       else acc)
    members init.

(** Every member that names a field holds a string or [null]. *)
Definition stringMembers `{GoStd} (fields : list (string * archField))
    (members : list (string * json)) : Prop :=
  Forall (fun member =>
            fieldByKey fields (fst member) = None \/
            snd member = JNull \/ exists t, snd member = JString t)
    members.

(** The number of requests that fail in a row, among [remaining] attempts
    starting at [attempt]. *)
Fixpoint leadingFailures (sdk : nat -> result ChatCompletion)
    (remaining attempt : nat) : nat :=
  match remaining with
  | O => O
  | S remaining =>
      match sdk attempt with
      | Err _ => S (leadingFailures sdk remaining (S attempt))
      | Ok _ => O
      end
  end.

(** The effects of [n] failed attempts: each request is followed by a sleep
    of 300 ms times the attempt number (counted from 1). *)
Definition retryEffects (n : nat) : list effect :=
  flat_map (fun k => [Request k; Sleep (300 * (Z.of_nat k + 1))]) (seq 0 n).

Definition isRequest (e : effect) : bool :=
  match e with Request _ => true | Sleep _ => false end.

(** The sum of a list of floats, from left to right. *)
Definition fsum (l : list float) : float := fold_left PrimFloat.add l 0%float.

(** What each chunk brings to the weighted average: nothing when its six
    sub-scores sum to zero, else (total/30) * weight for the numerator and the
    weight for the denominator. *)
Definition contributions `{GoStd} (chunks : list FileChunk) (scores : list ChunkScore)
  : list (float * float) :=
  flat_map
    (fun sc_ch =>
       if total (fst sc_ch) =? 0 then []
       else
         let w := chunkWeight (ToLower (Path (snd sc_ch))) in
         [ ((float64OfInt (total (fst sc_ch)) / 30 * w)%float, w) ])
    (combine scores chunks).

(** The score as a conversion of the weighted average to an integer. *)
Definition scoreFromFraction (conv : float -> Z) (contribs : list (float * float)) : Z :=
  let fraction := (fsum (map fst contribs) / fsum (map snd contribs))%float in
  if (0 <? fsum (map snd contribs))%float
  then clamp (conv (fraction * 100)%float) 0 100
  else 0.

(** [math.Round]: the nearest integer, halves away from zero (0 for
    infinities and NaN, which do not occur below). *)
Definition roundFloat (f : float) : Z :=
  match Prim2SF f with
  | S754_finite sgn m e =>
      let magnitude :=
        if 0 <=? e then Z.pos m * 2 ^ e
        else (2 * Z.pos m + 2 ^ (- e)) / (2 * 2 ^ (- e)) in
      if sgn then - magnitude else magnitude
  | _ => 0
  end.

(** The score of a repository from its chunks and their scores. *)
Definition repoScore `{GoStd} (repo : RepoTarget) (chunks : list FileChunk)
    (scores : list ChunkScore) : outcome Z :=
  let! st := forRange (tallyScore repo chunks) scores 0 emptyTally in
  Returns (finalScore st).

Definition hasPositive (ln : string) : bool :=
  Contains ln "well-structured" || Contains ln "idiomatic" || Contains ln "tested".

Definition hasNegative (ln : string) : bool :=
  Contains ln "missing tests" || Contains ln "long function" || Contains ln "globals"
  || Contains ln "security" || Contains ln "concurrency".

(** What holds of every strength and of every risk that is recorded. *)
Definition classified `{GoStd} (ss rs : list string) : Prop :=
  Forall (fun n => hasPositive (ToLower n) = true) ss /\
  Forall (fun n => hasPositive (ToLower n) = false /\ hasNegative (ToLower n) = true) rs.

(** *** The kind of repository: [detectRepoType] *)

(** [filepath.Base] (with [/] as the path separator): the last element of
    the path, after its trailing separators are removed. *)
Fixpoint trimTrailingSeparators (path : string) : string :=
  match path with
  | EmptyString => EmptyString
  | String c rest =>
      match trimTrailingSeparators rest with
      | EmptyString => if Ascii.eqb c "/" then EmptyString else String c EmptyString
      | rest' => String c rest'
      end
  end.

Definition Base (path : string) : string :=
  if String.eqb path "" then "."
  else
    let path := trimTrailingSeparators path in
    let path :=
      match lastIndexByte path "/" with
      | Some i => substring (S i) (String.length path - S i) path
      | None => path
      end in
    if String.eqb path "" then "/" else path.

(** The loop of [detectRepoType] with its three variables; a marker file
    ends it at once. *)
Fixpoint detectRepoTypeFrom `{GoStd} (paths : list string)
    (hasAppsDir hasPackagesDir : bool) (goModCount : Z) : string :=
  match paths with
  | [] =>
      if hasAppsDir && hasPackagesDir then "monorepo"
      else if 2 <? goModCount then "monorepo"
      else "standard"
  | path :: paths' =>
      let p := ToLower path in
      let hasAppsDir := if HasPrefix p "apps/" then true else hasAppsDir in
      let hasPackagesDir :=
        if HasPrefix p "packages/" || HasPrefix p "libs/" then true else hasPackagesDir in
      let goModCount :=
        if String.eqb (Base p) "go.mod" then goModCount + 1 else goModCount in
      if String.eqb (Base p) "lerna.json" || String.eqb (Base p) "turbo.json"
         || String.eqb (Base p) "nx.json"
      then "monorepo"
      else detectRepoTypeFrom paths' hasAppsDir hasPackagesDir goModCount
  end.

Definition detectRepoType `{GoStd} (paths : list string) : string :=
  detectRepoTypeFrom paths false false 0.

(** *** The LLM clients: [Client], [openAIClient], [geminiClient] *)

Record Chunk := {
  chPath : string;
  chStartLine : Z;
  chEndLine : Z;
  chContent : string;
  chLanguage : string
}.

Record EvalInput := {
  inPrompt : string;
  inOwner : string;
  inRepo : string;
  inBranch : string;
  inChunks : list Chunk
}.

Definition toLLMChunks (chunks : list FileChunk) : list Chunk :=
  map (fun c => {| chPath := Path c; chStartLine := StartLine c; chEndLine := EndLine c;
                   chContent := Content c; chLanguage := fcLanguage c |}) chunks.

(** The dynamic type of the argument [out any] of [EvaluateJSON], as
    [reflect] sees it: a pointer to a slice, with the zero value of its
    elements and the decoder of [encoding/json] for an element, or a pointer
    to something else. *)
Inductive outType : Type -> Type :=
| PtrToSlice (E : Type) (zero : E) (elemJSON : JSON E) : outType (list E)
| PtrToOther (T : Type) : outType T.

(** The interface [Client]: the target after the call, and the error.  The
    decoder is the one of [encoding/json] at the type of the target. *)
Record Client := {
  EvaluateJSON : forall T : Type, JSON T -> outType T -> EvalInput -> T ->
                 run (T * option error)
}.

Definition max (a b : Z) : Z := if b <? a then a else b.

Definition maxDelay (a b : Z) : Z := if b <? a then a else b.

(** [time.Second] and [time.Minute], in nanoseconds. *)
Definition Second : Z := 1000000000.
Definition Minute : Z := 60 * Second.

(** The pause of [EvaluateJSON] after each dispatch. *)
Definition dispatchDelay (rpm : Z) : Z :=
  let minDelay := Second in
  let delay := Z.quot Minute (max 1 rpm) in
  maxDelay delay minDelay.

(** A chat completion request: the system message, the user message and the
    model. *)
Record ChatRequest := { reqSystem : string; reqUser : string; reqModel : string }.

(** [openAIClient].  [sdk i req k] is the outcome of the request that the
    goroutine of chunk [i] sends at its attempt [k]. *)
Record openAIClient := {
  ocCfg : Config;
  sdk : nat -> ChatRequest -> nat -> result ChatCompletion;
  rpm : Z;
  para : Z
}.

(** The user message of [evalOne].  The format is a raw string literal, so
    its [\n] are a backslash and an [n]. *)
Definition userMessage (input : EvalInput) (ch : Chunk) : string :=
  ("[REPO] " ++ inOwner input ++ "/" ++ inRepo input ++ "@" ++ inBranch input
   ++ "\n[FILE] " ++ chPath ch ++ " (" ++ chLanguage ch ++ ")"
   ++ "\n[LINES] " ++ pretty (chStartLine ch) ++ "-" ++ pretty (chEndLine ch)
   ++ "\n\n[CODE]\n" ++ chContent ch
   ++ "\n\n[REQUIREMENTS]\n- Output STRICT JSON: {readability, design, testing, maintainability, idiomatic, security, notes[], citations[]}\n- Base judgments ONLY on this snippet.\n- Cite concrete lines where relevant.")%string.

Definition requestOf (c : openAIClient) (input : EvalInput) (ch : Chunk) : ChatRequest :=
  {| reqSystem := inPrompt input; reqUser := userMessage input ch;
     reqModel := Model (cfgLLM (ocCfg c)) |}.

(** The goroutine of chunk [i]: [evalOne] into a fresh element. *)
Definition evalChunk {E} `{JSON E} (c : openAIClient) (input : EvalInput) (zero : E)
    (i : nat) (ch : Chunk) : E * option error :=
  fst (evalOne (sdk c i (requestOf c input ch)) zero).

Definition evalChunksFrom {E} `{JSON E} (c : openAIClient) (input : EvalInput) (zero : E)
  : nat -> list Chunk -> list (E * option error) :=
  fix go (i : nat) (chunks : list Chunk) :=
    match chunks with
    | [] => []
    | ch :: chunks' => evalChunk c input zero i ch :: go (S i) chunks'
    end.

(** [firstErr]: the error of the first goroutine that fails, in the order
    [sched] in which the goroutines reach the mutex. *)
Fixpoint firstErrOf {E} (sched : list nat) (results : list (E * option error))
  : option error :=
  match sched with
  | [] => None
  | i :: sched' =>
      match nth_error results i with
      | Some (_, Some err) => Some err
      | _ => firstErrOf sched' results
      end
  end.

(** [openAIClient.EvaluateJSON]: the target, the error and the time slept
    between the dispatches.  A negative capacity makes [make] panic; with
    capacity zero the first send on [sem] has no receiver. *)
Definition openAI_EvaluateJSON {T} (c : openAIClient) (sched : list nat)
    (ty : outType T) (input : EvalInput) (out : T) : run (T * option error * Z) :=
  match ty in outType T return T -> run (T * option error * Z) with
  | PtrToOther _ => fun out => Done (out, Some "out must be a pointer to a slice", 0)
  | PtrToSlice E zero elemJSON => fun _ =>
      if para c <? 0 then Panic "makechan: size out of range"
      else if (para c =? 0) && (0 <? len (inChunks input)) then Blocked
      else
        let delay := dispatchDelay (rpm c) in
        let results := evalChunksFrom c input zero 0 (inChunks input) in
        let outSlice :=
          map (fun r => match snd r with None => fst r | Some _ => zero end) results in
        Done (outSlice, firstErrOf sched results, delay * len (inChunks input))
  end out.

(** The client of the OpenAI API behind the interface: [sched] gives, for
    each call, the order in which its goroutines finish. *)
Definition openAI (c : openAIClient) (sched : EvalInput -> list nat) : Client := {|
  EvaluateJSON := fun T _ ty input out =>
    match openAI_EvaluateJSON c (sched input) ty input out with
    | Done (r, _) => Done r
    | Panic msg => Panic msg
    | Blocked => Blocked
    end
|}.

(** *** The prompts to the LLM: architecture, headline, summary *)

Definition tab : string := String "009" EmptyString.
Definition newline : string := String "010" EmptyString.
Definition quote : string := String "034" EmptyString.

(** [strings.NewReplacer(pairs...).Replace(s)] for old strings that are not
    empty: at each position the first pair, in argument order, whose old
    string starts there is applied, and matches do not overlap.  [skip]
    counts the bytes of a match that are still to be passed over. *)
Fixpoint replaceFrom (pairs : list (string * string)) (s : string) (skip : nat) : string :=
  match s with
  | EmptyString => EmptyString
  | String c s' =>
      match skip with
      | S k => replaceFrom pairs s' k
      | O =>
          match find (fun pr => HasPrefix s (fst pr)) pairs with
          | Some pr => (snd pr ++ replaceFrom pairs s' (String.length (fst pr) - 1))%string
          | None => String c (replaceFrom pairs s' 0)
          end
      end
  end.

Definition Replace (pairs : list (string * string)) (s : string) : string :=
  replaceFrom pairs s 0.

(** [html.EscapeString]. *)
Definition escapeByte (c : ascii) : string :=
  if Ascii.eqb c "&" then "&amp;"
  else if Ascii.eqb c "'" then "&#39;"
  else if Ascii.eqb c "<" then "&lt;"
  else if Ascii.eqb c ">" then "&gt;"
  else if Ascii.eqb c "034" then "&#34;"
  else String c EmptyString.

Fixpoint EscapeString (s : string) : string :=
  match s with
  | EmptyString => EmptyString
  | String c s' => (escapeByte c ++ EscapeString s')%string
  end.

(** The fields of [service] that the prompts are built from. *)
Record llmService := {
  llm : Client;
  repoPrompt : string;
  summaryPrompt : string;
  headlinePrompt : string;
  standardArchPrompt : string;
  monoRepoArchPrompt : string
}.

Definition withClient (s : llmService) (client : Client) : llmService :=
  {| llm := client; repoPrompt := repoPrompt s; summaryPrompt := summaryPrompt s;
     headlinePrompt := headlinePrompt s; standardArchPrompt := standardArchPrompt s;
     monoRepoArchPrompt := monoRepoArchPrompt s |}.

Definition zeroArchScore : archScore := {| ArchStrengths := []; ArchConsiderations := [] |}.

Definition zeroChunk : Chunk :=
  {| chPath := ""; chStartLine := 0; chEndLine := 0; chContent := ""; chLanguage := "" |}.

Definition evaluateArchitecture `{GoStd} `{JSON archScore} (s : llmService)
    (repo : RepoTarget) (tree : list string) : run archScore :=
  let repoType := detectRepoType tree in
  let prompt :=
    if String.eqb repoType "monorepo" then monoRepoArchPrompt s
    else standardArchPrompt s in
  let finalPrompt :=
    Replace [("{{.Language}}", Language repo); ("{{.Tree}}", String.concat newline tree)]
      prompt in
  match EvaluateJSON (llm s) archScore _ (PtrToOther archScore)
          {| inPrompt := finalPrompt; inOwner := Owner repo; inRepo := Name repo;
             inBranch := "";
             inChunks := [ {| chPath := ""; chStartLine := 0; chEndLine := 0;
                              chContent := finalPrompt; chLanguage := "" |} ] |}
          zeroArchScore with
  | Done (result, _) => Done result
  | Panic msg => Panic msg
  | Blocked => Blocked
  end.

Record headlineOut := { Headline : string }.
Record summaryOut := { Summary : string }.

(** A line of the table that the two prompts are given. *)
Definition tableRow (r : RepoResult) (strengths risks : list string) : string :=
  (Owner (Repo r) ++ "/" ++ Name (Repo r) ++ tab ++ pretty (Score r) ++ tab
   ++ String.concat ", " strengths ++ tab ++ String.concat ", " risks ++ newline)%string.

Definition tableHeader : string :=
  ("Repository Analysis Table:" ++ newline
   ++ "Repo" ++ tab ++ "Score" ++ tab ++ "Strengths" ++ tab ++ "Risks" ++ newline)%string.

Definition summaryChunk (table : string) : Chunk :=
  {| chPath := "summary"; chStartLine := 0; chEndLine := 0; chContent := table;
     chLanguage := "text" |}.

Definition generateHeadlineWithLLM `{JSON headlineOut} (s : llmService) (user : string)
    (results : list RepoResult) : run string :=
  if len results =? 0 then Done ""
  else
    let table :=
      fold_left
        (fun b r => (b ++ tableRow r (map asPoint (rrArchStrengths r))
                                     (map acPoint (rrArchConsiderations r)))%string)
        results tableHeader in
    let prompt := Replace [("{{.SummaryData}}", table)] (headlinePrompt s) in
    match EvaluateJSON (llm s) headlineOut _ (PtrToOther headlineOut)
            {| inPrompt := prompt; inOwner := user; inRepo := "(all)"; inBranch := "";
               inChunks := [summaryChunk table] |}
            {| Headline := "" |} with
    | Done (out, err) =>
        if (if err is Some _ then true else false) || String.eqb (Headline out) ""
        then Done ""
        else Done ("<section class=" ++ quote
                   ++ "mt-4 mb-8 p-4 bg-sky-50 border-l-4 border-sky-400" ++ quote
                   ++ "><p class=" ++ quote ++ "text-sky-800" ++ quote ++ ">"
                   ++ EscapeString (Headline out) ++ "</p></section>")%string
    | Panic msg => Panic msg
    | Blocked => Blocked
    end.

Definition summarySection (body : string) : string :=
  ("<section class=" ++ quote ++ "mt-8 p-4 bg-yellow-50 border-l-4 border-yellow-400"
   ++ quote ++ "><strong>AI Summary:</strong> " ++ body ++ "</section>")%string.

Definition generateSummaryWithLLM `{JSON summaryOut} (s : llmService) (user : string)
    (results : list RepoResult) : run string :=
  if len results =? 0 then Done "No repositories were analyzed."
  else
    let table :=
      fold_left (fun b r => (b ++ tableRow r (Strengths r) (Risks r))%string)
        results tableHeader in
    let prompt := Replace [("{{.SummaryData}}", table)] (summaryPrompt s) in
    match EvaluateJSON (llm s) summaryOut _ (PtrToOther summaryOut)
            {| inPrompt := prompt; inOwner := user; inRepo := "(all)"; inBranch := "";
               inChunks := [summaryChunk table] |}
            {| Summary := "" |} with
    | Done (out, err) =>
        if (if err is Some _ then true else false) || String.eqb (Summary out) ""
        then Done (summarySection "<em>Summary unavailable.</em>")
        else Done (summarySection (EscapeString (Summary out)))
    | Panic msg => Panic msg
    | Blocked => Blocked
    end.

(** *** The Gemini client *)

(** The request body [{contents: [{parts: [{text: prompt}]}]}] and the part
    of the reply that is read: the texts of the parts of each candidate. *)
Record geminiRequest := { reqText : string }.
Record geminiResponse := { Candidates : list (list string) }.

Record httpResponse := { StatusCode : Z; Body : string }.

(** [geminiClient].  [httpDo url body] is the outcome of building and
    sending the POST request. *)
Record geminiClient := {
  apiKey : string;
  httpDo : string -> string -> result httpResponse
}.

(** The decoding of the reply text in [geminiClient.EvaluateJSON]: the whole
    text, then the text between the braces, then, into a pointer to a slice,
    the text between the braces as a single element. *)
Definition geminiDecode {T} `{JSON T} (ty : outType T) (text : string) (out : T)
  : T * option error :=
  match Unmarshal text out with
  | (out, None) => (out, None)
  | (out, Some err) =>
      match extractJSON text with
      | Err _ => (out, Some ("gemini json parse: " ++ err)%string)
      | Ok js =>
          match Unmarshal js out with
          | (out, None) => (out, None)
          | (out, Some err) =>
              match ty in outType T return T -> T * option error with
              | PtrToSlice E zero elemJSON => fun out =>
                  match Unmarshal js zero with
                  | (elem, None) => ([elem], None)
                  | (_, Some _) => (out, Some ("gemini json parse(2): " ++ err)%string)
                  end
              | PtrToOther _ => fun out =>
                  (out, Some ("gemini json parse(2): " ++ err)%string)
              end out
          end
      end
  end.

Definition geminiURL (g : geminiClient) : string :=
  ("https://generativelanguage.googleapis.com/v1/models/gemini-1.5-pro-002:generateContent?key="
   ++ apiKey g)%string.

Definition gemini_EvaluateJSON {T} `{JSON geminiRequest} `{JSON geminiResponse} `{JSON T}
    (g : geminiClient) (ty : outType T) (input : EvalInput) (out : T) : T * option error :=
  let prompt :=
    match inChunks input with
    | ch :: _ => (inPrompt input ++ newline ++ chContent ch)%string
    | [] => inPrompt input
    end in
  match Marshal {| reqText := prompt |} with
  | Err err => (out, Some err)
  | Ok jsonBody =>
      match httpDo g (geminiURL g) jsonBody with
      | Err err => (out, Some err)
      | Ok resp =>
          if negb (StatusCode resp =? 200)
          then (out, Some ("gemini api error: " ++ Body resp)%string)
          else
            match Unmarshal (Body resp) {| Candidates := [] |} with
            | (_, Some err) => (out, Some err)
            | (geminiResp, None) =>
                match Candidates geminiResp with
                | (text :: _) :: _ => geminiDecode ty text out
                | _ => (out, Some "no candidates from gemini")
                end
            end
      end
  end.

Definition gemini `{JSON geminiRequest} `{JSON geminiResponse} (g : geminiClient)
  : Client :=
  {| EvaluateJSON := fun T _ ty input out => Done (gemini_EvaluateJSON g ty input out) |}.

(** *** The choice of the client: [NewLLMClient] *)

Inductive llmClient :=
| OpenAIClient (c : openAIClient)
| GeminiClient (g : geminiClient).

(** [NewLLMClient].  [newClient apiKey baseURL] is the SDK client that
    [openai.NewClient] makes of its options, by what it answers; [httpDo] is
    [http.DefaultClient]. *)
Definition NewLLMClient (cfg : Config) (getenv : string -> string)
    (newClient : string -> option string -> nat -> ChatRequest -> nat ->
                 result ChatCompletion)
    (httpDo : string -> string -> result httpResponse) : result llmClient :=
  let provider := Provider (cfgLLM cfg) in
  if String.eqb provider "" || String.eqb provider "openai" then
    let apiKey := APIKey (cfgLLM cfg) in
    let apiKey := if String.eqb apiKey "" then getenv "OPENAI_API_KEY" else apiKey in
    if String.eqb apiKey "" then Err "missing OpenAI API key"
    else
      let baseURL :=
        if String.eqb (Endpoint (cfgLLM cfg)) "" then None
        else Some (Endpoint (cfgLLM cfg)) in
      Ok (OpenAIClient {| ocCfg := cfg; sdk := newClient apiKey baseURL;
                          rpm := RequestsPerMinute (cfgLLM cfg);
                          para := ParallelRequests (cfgLLM cfg) |})
  else if String.eqb provider "gemini" then
    let apiKey := APIKey (cfgLLM cfg) in
    let apiKey := if String.eqb apiKey "" then getenv "GEMINI_API_KEY" else apiKey in
    if String.eqb apiKey "" then Err "missing Gemini API key"
    else Ok (GeminiClient {| apiKey := apiKey; httpDo := httpDo |})
  else Err ("unsupported LLM provider: " ++ provider)%string.

(** *** The REST side of [ghRepoImpl]: [GetLatestCommitSHA], [ListTree],
    [ReadFile] *)

(** An entry of a Git tree, by the two accessors that are read. *)
Record TreeEntry := { teType : string; tePath : string }.

(** The REST client, by what it answers.  [gitGetRef owner repo ref] is
    [Git.GetRef] with the SHA of the object of the reference;
    [gitGetTree owner repo sha] is the recursive [Git.GetTree] with the
    entries of the tree, which may be nil; [getContents owner repo path ref]
    is [Repositories.GetContents] with the file, which is nil for a
    directory, by the outcome of its [GetContent]. *)
Record restClient := {
  gitGetRef : string -> string -> string -> result string;
  gitGetTree : string -> string -> string -> result (list (option TreeEntry));
  getContents : string -> string -> string -> string -> result (option (result string))
}.

Definition implGetLatestCommitSHA (g : restClient) (owner repo ref : string)
  : string * option error :=
  match gitGetRef g owner repo ("heads/" ++ ref)%string with
  | Err err => ("", Some err)
  | Ok sha => (sha, None)
  end.

(** The TTL of the caches that are keyed by a commit. *)
Definition commitTTL : Z := 24 * 30 * Hour.

(** The loop of [ListTree] over the entries. *)
Definition blobPaths (entries : list (option TreeEntry)) : list string :=
  fold_left
    (fun paths te =>
       match te with
       | None => paths
       | Some te => if String.eqb (teType te) "blob" then paths ++ [tePath te] else paths
       end)
    entries [].

(** [ListTree]: the cache is read at time [now] and written at time
    [later]; the new state of the disk is returned with the result. *)
Definition implListTree `{GoStd} `{JSON (list string)} (g : restClient) (os : OS)
    (now later : Z) (owner repo ref sha : string) : OS * result (list string) :=
  match getCachePath os [owner; repo; (sha ++ "-tree.json")%string] with
  | Err err => (os, Err err)
  | Ok cachePath =>
      let '(hit, _, cachedTree) := readCache os now cachePath [] commitTTL in
      if hit then (os, Ok cachedTree)
      else
        match gitGetTree g owner repo sha with
        | Err err => (os, Err err)
        | Ok entries =>
            let paths := blobPaths entries in
            (fst (writeCache os later cachePath paths), Ok paths)
        end
  end.

(** [strings.ReplaceAll(s, old, new)] for a one-byte [old]. *)
Fixpoint replaceByte (old : ascii) (new : string) (s : string) : string :=
  match s with
  | EmptyString => EmptyString
  | String c s' =>
      if Ascii.eqb c old then (new ++ replaceByte old new s')%string
      else String c (replaceByte old new s')
  end.

(** [ReadFile].  The bytes are a [[]byte], which [encoding/json] writes as a
    string in base 64: the decoder is the one of that type.  A nil file
    comes back as nil bytes and a nil error. *)
Definition implReadFile `{GoStd} {bytesJSON : JSON string} (g : restClient) (os : OS)
    (now later : Z) (owner repo ref path sha : string) : OS * result string :=
  let safePath := replaceByte "/" "_" path in
  match getCachePath os [owner; repo; sha; (safePath ++ ".cache")%string] with
  | Err err => (os, Err err)
  | Ok cachePath =>
      let '(hit, _, cachedContent) := readCache os now cachePath "" commitTTL in
      if hit then (os, Ok cachedContent)
      else
        match getContents g owner repo path ref with
        | Err err => (os, Err err)
        | Ok None => (os, Ok "")
        | Ok (Some (Err err)) => (os, Err err)
        | Ok (Some (Ok c)) => (fst (writeCache os later cachePath c), Ok c)
        end
  end.

(** *** A reader and a writer of JSON text

    The decoders of the examples go through [json] values.  The reader takes
    the JSON grammar with whole numbers, and of the escapes [\uXXXX] those
    below U+0080; the writer is the one of [encoding/json] on ASCII text. *)

Definition hexValue (c : ascii) : option N :=
  let n := N_of_ascii c in
  if ((48 <=? n) && (n <=? 57))%N then Some (n - 48)%N
  else if ((97 <=? n) && (n <=? 102))%N then Some (n - 87)%N
  else if ((65 <=? n) && (n <=? 70))%N then Some (n - 55)%N
  else None.

Definition unescapeByte (c : ascii) : option ascii :=
  if Ascii.eqb c "034" then Some "034"%char
  else if Ascii.eqb c "\" then Some "\"%char
  else if Ascii.eqb c "/" then Some "/"%char
  else if Ascii.eqb c "b" then Some "008"%char
  else if Ascii.eqb c "f" then Some "012"%char
  else if Ascii.eqb c "n" then Some "010"%char
  else if Ascii.eqb c "r" then Some "013"%char
  else if Ascii.eqb c "t" then Some "009"%char
  else None.

Definition consByte (c : ascii) (r : option (string * string)) : option (string * string) :=
  match r with
  | Some (t, rest) => Some (String c t, rest)
  | None => None
  end.

(** The string that starts after an opening quote, and what follows its
    closing quote. *)
Fixpoint readString (s : string) : option (string * string) :=
  match s with
  | EmptyString => None
  | String c s' =>
      if Ascii.eqb c "034" then Some (EmptyString, s')
      else if Ascii.eqb c "\" then
        match s' with
        | EmptyString => None
        | String e s'' =>
            if Ascii.eqb e "u" then
              match s'' with
              | String h1 (String h2 (String h3 (String h4 s4))) =>
                  match hexValue h1, hexValue h2, hexValue h3, hexValue h4 with
                  | Some 0%N, Some 0%N, Some x, Some y =>
                      if (x <? 8)%N then consByte (ascii_of_N (16 * x + y)) (readString s4)
                      else None
                  | _, _, _, _ => None
                  end
              | _ => None
              end
            else
              match unescapeByte e with
              | Some d => consByte d (readString s'')
              | None => None
              end
        end
      else if (N_of_ascii c <? 32)%N then None
      else consByte c (readString s')
  end.

Definition isDigit (c : ascii) : bool :=
  ((48 <=? N_of_ascii c) && (N_of_ascii c <=? 57))%N.

Fixpoint spanDigits (s : string) : string * string :=
  match s with
  | String c s' =>
      if isDigit c then let '(digits, rest) := spanDigits s' in (String c digits, rest)
      else (EmptyString, s)
  | EmptyString => (EmptyString, EmptyString)
  end.

(** A whole number without a leading zero. *)
Definition readNumber (s : string) : option (json * string) :=
  let '(sign, body) :=
    match s with
    | String "-" s' => ("-", s')
    | _ => ("", s)
    end in
  let '(digits, rest) := spanDigits body in
  match digits with
  | EmptyString => None
  | String "0" (String _ _) => None
  | _ => Some (JNumber (sign ++ digits)%string, rest)
  end.

Definition readLiteral (s : string) : option (json * string) :=
  if HasPrefix s "null" then Some (JNull, substring 4 (String.length s - 4) s)
  else if HasPrefix s "true" then Some (JBool true, substring 4 (String.length s - 4) s)
  else if HasPrefix s "false" then Some (JBool false, substring 5 (String.length s - 5) s)
  else readNumber s.

Fixpoint readValue (fuel : nat) (s : string) : option (json * string) :=
  match fuel with
  | O => None
  | S fuel =>
      match trimLeft s with
      | String "034" rest =>
          match readString rest with
          | Some (t, rest) => Some (JString t, rest)
          | None => None
          end
      | String "[" rest =>
          match trimLeft rest with
          | String "]" rest' => Some (JArray [], rest')
          | _ => readElements fuel rest []
          end
      | String "{" rest =>
          match trimLeft rest with
          | String "}" rest' => Some (JObject [], rest')
          | _ => readMembers fuel rest []
          end
      | other => readLiteral other
      end
  end
with readElements (fuel : nat) (s : string) (acc : list json) : option (json * string) :=
  match fuel with
  | O => None
  | S fuel =>
      match readValue fuel s with
      | Some (v, rest) =>
          match trimLeft rest with
          | String "," rest' => readElements fuel rest' (acc ++ [v])
          | String "]" rest' => Some (JArray (acc ++ [v]), rest')
          | _ => None
          end
      | None => None
      end
  end
with readMembers (fuel : nat) (s : string) (acc : list (string * json))
  : option (json * string) :=
  match fuel with
  | O => None
  | S fuel =>
      match trimLeft s with
      | String "034" rest =>
          match readString rest with
          | Some (key, rest) =>
              match trimLeft rest with
              | String ":" rest =>
                  match readValue fuel rest with
                  | Some (v, rest) =>
                      match trimLeft rest with
                      | String "," rest' => readMembers fuel rest' (acc ++ [(key, v)])
                      | String "}" rest' => Some (JObject (acc ++ [(key, v)]), rest')
                      | _ => None
                      end
                  | None => None
                  end
              | _ => None
              end
          | None => None
          end
      | _ => None
      end
  end.

(** The value that a text holds, and nothing but white space after it. *)
Definition parseJSON (s : string) : option json :=
  match readValue (2 * String.length s + 2) s with
  | Some (v, rest) => if String.eqb (trimLeft rest) "" then Some v else None
  | None => None
  end.

Definition hexDigitOf (n : N) : ascii :=
  if (n <? 10)%N then ascii_of_N (48 + n) else ascii_of_N (87 + n).

Definition escapeJSONByte (c : ascii) : string :=
  if Ascii.eqb c "034" then String "\" quote
  else if Ascii.eqb c "\" then "\\"
  else if Ascii.eqb c "010" then "\n"
  else if Ascii.eqb c "013" then "\r"
  else if Ascii.eqb c "009" then "\t"
  else if (N_of_ascii c <? 32)%N || Ascii.eqb c "<" || Ascii.eqb c ">" || Ascii.eqb c "&"
  then ("\u00" ++ String (hexDigitOf (N_of_ascii c / 16))
                    (String (hexDigitOf (N_of_ascii c mod 16)) EmptyString))%string
  else String c EmptyString.

Fixpoint escapeJSON (s : string) : string :=
  match s with
  | EmptyString => EmptyString
  | String c s' => (escapeJSONByte c ++ escapeJSON s')%string
  end.

Definition quoteJSON (s : string) : string := (quote ++ escapeJSON s ++ quote)%string.

Fixpoint writeJSON (v : json) : string :=
  match v with
  | JNull => "null"
  | JBool b => if b then "true" else "false"
  | JNumber literal => literal
  | JString s => quoteJSON s
  | JArray elements => ("[" ++ String.concat "," (map writeJSON elements) ++ "]")%string
  | JObject members =>
      ("{" ++ String.concat ","
                (map (fun m => let '(key, v) := m in
                               (quoteJSON key ++ ":" ++ writeJSON v)%string) members)
       ++ "}")%string
  end.

(** The standard base 64 of [encoding/base64], with padding. *)
Definition base64Alphabet : string :=
  "ABCDEFGHIJKLMNOPQRSTUVWXYZabcdefghijklmnopqrstuvwxyz0123456789+/".

Definition base64Char (n : N) : ascii :=
  default "="%char (String.get (N.to_nat n) base64Alphabet).

Definition base64Index (c : ascii) : option N :=
  N.of_nat <$> indexByte base64Alphabet c.

Fixpoint base64Encode (s : string) : string :=
  match s with
  | EmptyString => EmptyString
  | String a EmptyString =>
      let x := N_of_ascii a in
      String (base64Char (x / 4)) (String (base64Char ((x mod 4) * 16)) "==")
  | String a (String b EmptyString) =>
      let x := N_of_ascii a in
      let y := N_of_ascii b in
      String (base64Char (x / 4))
        (String (base64Char ((x mod 4) * 16 + y / 16))
           (String (base64Char ((y mod 16) * 4)) "="))
  | String a (String b (String c rest)) =>
      let x := N_of_ascii a in
      let y := N_of_ascii b in
      let z := N_of_ascii c in
      String (base64Char (x / 4))
        (String (base64Char ((x mod 4) * 16 + y / 16))
           (String (base64Char ((y mod 16) * 4 + z / 64))
              (String (base64Char (z mod 64)) (base64Encode rest))))
  end%N.

Fixpoint base64Decode (s : string) : option string :=
  match s with
  | EmptyString => Some EmptyString
  | String a (String b (String c (String d rest))) =>
      match base64Index a, base64Index b with
      | Some x, Some y =>
          let first := ascii_of_N (x * 4 + y / 16) in
          if Ascii.eqb c "=" then
            if Ascii.eqb d "=" && String.eqb rest "" then Some (String first EmptyString)
            else None
          else
            match base64Index c with
            | Some z =>
                let second := ascii_of_N ((y mod 16) * 16 + z / 4) in
                if Ascii.eqb d "=" then
                  if String.eqb rest ""
                  then Some (String first (String second EmptyString))
                  else None
                else
                  match base64Index d, base64Decode rest with
                  | Some w, Some tail =>
                      Some (String first
                              (String second (String (ascii_of_N ((z mod 4) * 64 + w)) tail)))
                  | _, _ => None
                  end
            | None => None
            end
      | _, _ => None
      end
  | _ => None
  end%N.

(** [encoding/json] at type [[]byte], into a target without capacity: a
    string in base 64 gives the bytes, [null] gives nil. *)
Definition bytesJSON : JSON string := {|
  Marshal content := Ok (quote ++ base64Encode content ++ quote)%string;
  Unmarshal text target :=
    match parseJSON text with
    | Some (JString encoded) =>
        match base64Decode encoded with
        | Some content => (content, None)
        | None => (target, Some "illegal base64 data")
        end
    | Some JNull => ("", None)
    | Some _ => (target, Some "json: cannot unmarshal into Go value of type []uint8")
    | None => (target, Some "invalid character")
    end
|}.

(** The elements of an array, with the first error. *)
Definition decodeElements {E} (decode : json -> E * option error) (elements : list json)
  : list E * option error :=
  fold_left
    (fun st v =>
       let '(e, err) := decode v in
       (fst st ++ [e], match snd st with Some _ => snd st | None => err end))
    elements ([], None).

(** [encoding/json] at type [[]string], into a target without capacity. *)
#[export] Instance stringsJSON : JSON (list string) := {
  Marshal paths := Ok (writeJSON (JArray (map JString paths)));
  Unmarshal text target :=
    match parseJSON text with
    | Some (JArray elements) => decodeElements (fun v => unmarshalString v "") elements
    | Some JNull => ([], None)
    | Some _ => (target, Some "json: cannot unmarshal into Go value of type []string")
    | None => (target, Some "invalid character")
    end
}.

Definition decimalZ (literal : string) : Z :=
  match literal with
  | String "-" digits => - Z.of_N (fold_left (fun n c => 10 * n + (N_of_ascii c - 48))%N
                                     (list_ascii_of_string digits) 0%N)
  | _ => Z.of_N (fold_left (fun n c => 10 * n + (N_of_ascii c - 48))%N
                   (list_ascii_of_string literal) 0%N)
  end.

(** One member of an object into a [RepoTarget]: the fields have no tags,
    so the keys are their names, whatever the case. *)
Definition decodeTargetMember (st : RepoTarget * option error) (member : string * json)
  : RepoTarget * option error :=
  let '(t, err) := st in
  let key := asciiToLower (fst member) in
  let keep e := match err with Some _ => err | None => e end in
  let mismatch := Some "json: cannot unmarshal into Go struct field of RepoTarget" in
  let setString (set : string -> RepoTarget) (get : string) :=
    let '(v, e) := unmarshalString (snd member) get in (set v, keep e) in
  if String.eqb key "owner" then
    setString (fun v => {| Owner := v; Name := Name t; DefaultBranch := DefaultBranch t;
                           Stars := Stars t; Pinned := Pinned t; Language := Language t |})
      (Owner t)
  else if String.eqb key "name" then
    setString (fun v => {| Owner := Owner t; Name := v; DefaultBranch := DefaultBranch t;
                           Stars := Stars t; Pinned := Pinned t; Language := Language t |})
      (Name t)
  else if String.eqb key "defaultbranch" then
    setString (fun v => {| Owner := Owner t; Name := Name t; DefaultBranch := v;
                           Stars := Stars t; Pinned := Pinned t; Language := Language t |})
      (DefaultBranch t)
  else if String.eqb key "language" then
    setString (fun v => {| Owner := Owner t; Name := Name t;
                           DefaultBranch := DefaultBranch t; Stars := Stars t;
                           Pinned := Pinned t; Language := v |})
      (Language t)
  else if String.eqb key "stars" then
    match snd member with
    | JNumber literal =>
        if (- 2 ^ 63 <=? decimalZ literal) && (decimalZ literal <? 2 ^ 63)
        then ({| Owner := Owner t; Name := Name t; DefaultBranch := DefaultBranch t;
                 Stars := decimalZ literal; Pinned := Pinned t; Language := Language t |},
              err)
        else (t, keep mismatch)
    | JNull => st
    | _ => (t, keep mismatch)
    end
  else if String.eqb key "pinned" then
    match snd member with
    | JBool b =>
        ({| Owner := Owner t; Name := Name t; DefaultBranch := DefaultBranch t;
            Stars := Stars t; Pinned := b; Language := Language t |}, err)
    | JNull => st
    | _ => (t, keep mismatch)
    end
  else st.

Definition decodeTarget (v : json) : RepoTarget * option error :=
  match v with
  | JObject members => fold_left decodeTargetMember members (zeroRepoTarget, None)
  | JNull => (zeroRepoTarget, None)
  | _ => (zeroRepoTarget, Some "json: cannot unmarshal into Go value of type RepoTarget")
  end.

Definition encodeTarget (t : RepoTarget) : json :=
  JObject [("Owner", JString (Owner t)); ("Name", JString (Name t));
           ("DefaultBranch", JString (DefaultBranch t)); ("Stars", JNumber (pretty (Stars t)));
           ("Pinned", JBool (Pinned t)); ("Language", JString (Language t))].

(** [encoding/json] at type [[]RepoTarget], into a target without
    capacity. *)
#[export] Instance targetsJSON : JSON (list RepoTarget) := {
  Marshal targets := Ok (writeJSON (JArray (map encodeTarget targets)));
  Unmarshal text target :=
    match parseJSON text with
    | Some (JArray elements) => decodeElements decodeTarget elements
    | Some JNull => ([], None)
    | Some _ => (target, Some "json: cannot unmarshal into Go value of type []RepoTarget")
    | None => (target, Some "invalid character")
    end
}.

(** A disk on which nothing is cached and every write succeeds. *)
Definition emptyDisk : OS := {|
  userCacheDir := Ok "/home/u/.cache";
  files := ∅;
  mkdirAllErr := fun _ => None;
  writeFileErr := fun _ => None
|}.

(** A REST client that knows one file of one tree, and one that is
    offline. *)
Definition oneFileClient : restClient := {|
  gitGetRef := fun _ _ _ => Ok "3f2a9c1d5e";
  gitGetTree := fun _ _ _ =>
    Ok [Some {| teType := "tree"; tePath := "a" |}; None;
        Some {| teType := "blob"; tePath := "a/b_c.go" |}];
  getContents := fun _ _ path _ =>
    if String.eqb path "a/b_c.go" then Ok (Some (Ok "package a")) else Err "404 Not Found"
|}.

Definition offlineClient : restClient := {|
  gitGetRef := fun _ _ _ => Err "dial tcp: no route to host";
  gitGetTree := fun _ _ _ => Err "dial tcp: no route to host";
  getContents := fun _ _ _ _ => Err "dial tcp: no route to host"
|}.

(** *** The prompts: [loadPrompt], [NewService] *)

(** [loadPrompt]: the text and where it comes from.  [readDisk p] is
    [os.ReadFile(filepath.Clean(p))]; [fsys], when it is not nil, is
    [fs.ReadFile(fsys, _)]. *)
Definition loadPrompt (readDisk : string -> result string)
    (fsys : option (string -> result string)) (diskPath embedPath : string)
  : result (string * string) :=
  let fromEmbed :=
    match fsys with
    | Some readEmbed =>
        match readEmbed embedPath with
        | Err err => Err err
        | Ok b => Ok (b, ("embed:" ++ embedPath)%string)
        end
    | None => Err "no prompt source available"
    end in
  if negb (String.eqb diskPath "") then
    match readDisk diskPath with
    | Ok b => Ok (b, ("file:" ++ diskPath)%string)
    | Err _ => fromEmbed
    end
  else fromEmbed.

(** What [NewService] puts into the service: the configuration, the client
    and the prompts, and the token of the GitHub clients that
    [newGitHubRepo] makes (it never fails). *)
Record serviceFields := {
  sfCfg : Config;
  sfPrompts : llmService;
  sfToken : string
}.

Definition wrapErr {A B} (prefix : string) (r : result A) (k : A -> result B) : result B :=
  match r with
  | Err err => Err (prefix ++ err)%string
  | Ok a => k a
  end.

(** [NewService]; the [embed.FS] it is given is never a nil [fs.FS]. *)
Definition NewService (readDisk : string -> result string)
    (readEmbed : string -> result string) (cfg : Config) (client : Client)
  : result serviceFields :=
  let fsys := Some readEmbed in
  wrapErr "repo prompt: "
    (loadPrompt readDisk fsys (PromptPath (cfgApp cfg)) "prompts/prompt.txt")
    (fun repoPrompt =>
  wrapErr "summary prompt: " (loadPrompt readDisk fsys "" "prompts/summary.txt")
    (fun summaryPrompt =>
  wrapErr "headline prompt: " (loadPrompt readDisk fsys "" "prompts/headline_summary.txt")
    (fun headlinePrompt =>
  wrapErr "standard arch prompt: " (loadPrompt readDisk fsys "" "prompts/arch_standard.txt")
    (fun standardArchPrompt =>
  wrapErr "monorepo arch prompt: " (loadPrompt readDisk fsys "" "prompts/arch_monorepo.txt")
    (fun monoRepoArchPrompt =>
  Ok {| sfCfg := cfg;
        sfPrompts := {| llm := client;
                        repoPrompt := fst repoPrompt;
                        summaryPrompt := fst summaryPrompt;
                        headlinePrompt := fst headlinePrompt;
                        standardArchPrompt := fst standardArchPrompt;
                        monoRepoArchPrompt := fst monoRepoArchPrompt |};
        sfToken := GithubToken (cfgAuth cfg) |}))))).

(** *** The page: [renderHTML] *)

(** [sort.Slice], which is not stable: a parameter of the embedding. *)
Class GoSort := {
  SortSlice : forall {A : Type}, (A -> A -> bool) -> list A -> list A
}.


Definition emDash : string := String "226" (String "128" (String "148" EmptyString)).
Definition enDash : string := String "226" (String "128" (String "147" EmptyString)).

Definition languageTagFormat (a1 : string) : string :=
  ("<span class=" ++ quote
   ++ "inline-block bg-sky-100 text-sky-800 text-xs font-semibold mr-2 px-2.5 py-0.5 rounded-full"
   ++ quote ++ ">" ++ a1 ++ "</span>")%string.

Definition langSectionFormat (a1 : string) : string :=
  ("<section class=" ++ quote ++ "mt-8" ++ quote ++ ">" ++ newline ++ "    <h2 class="
   ++ quote ++ "text-lg font-semibold mb-2" ++ quote ++ ">Main Languages</h2>" ++ newline
   ++ "    " ++ a1 ++ newline ++ "  </section>")%string.

Definition sampleLinkFormat (a1 : string) : string :=
  ("<a class=" ++ quote ++ "underline" ++ quote ++ " href=" ++ quote ++ a1 ++ quote
   ++ " target=" ++ quote ++ "_blank" ++ quote ++ " rel=" ++ quote ++ "noreferrer" ++ quote
   ++ ">sample</a>")%string.

Definition codeRowFormat (a1 a2 a3 a4 a5 a6 : string) : string :=
  ("<tr class=" ++ quote ++ "border-b" ++ quote ++ ">" ++ newline ++ "<td class=" ++ quote
   ++ "py-2 px-3 font-medium align-top" ++ quote ++ ">" ++ a1 ++ "/" ++ a2 ++ "</td>"
   ++ newline ++ "<td class=" ++ quote ++ "py-2 px-3 text-right align-top" ++ quote ++ ">"
   ++ a3 ++ "</td>" ++ newline ++ "<td class=" ++ quote ++ "py-2 px-3" ++ quote ++ ">"
   ++ a4 ++ "</td>" ++ newline ++ "<td class=" ++ quote ++ "py-2 px-3" ++ quote ++ ">"
   ++ a5 ++ "</td>" ++ newline ++ "<td class=" ++ quote ++ "py-2 px-3 align-top" ++ quote
   ++ ">" ++ a6 ++ "</td>" ++ newline ++ "</tr>")%string.

Definition archRowFormat (a1 a2 a3 a4 : string) : string :=
  ("<tr class=" ++ quote ++ "border-b" ++ quote ++ ">" ++ newline ++ "<td class=" ++ quote
   ++ "py-2 px-3 font-medium align-top" ++ quote ++ ">" ++ a1 ++ "/" ++ a2 ++ "</td>"
   ++ newline ++ "<td class=" ++ quote ++ "py-2 px-3" ++ quote ++ ">" ++ a3 ++ "</td>"
   ++ newline ++ "<td class=" ++ quote ++ "py-2 px-3" ++ quote ++ ">" ++ a4 ++ "</td>"
   ++ newline ++ "</tr>")%string.

Definition pageFormat (a1 a2 a3 a4 a5 a6 a7 a8 : string) : string :=
  ("<!doctype html>" ++ newline ++ "<html lang=" ++ quote ++ "en" ++ quote ++ ">"
   ++ newline ++ "<head>" ++ newline ++ "<meta charset=" ++ quote ++ "utf-8" ++ quote
   ++ ">" ++ newline ++ "<meta name=" ++ quote ++ "viewport" ++ quote ++ " content="
   ++ quote ++ "width=device-width,initial-scale=1" ++ quote ++ ">" ++ newline
   ++ "<title>GitHub Profiller " ++ enDash ++ " @" ++ a1 ++ "</title>" ++ newline
   ++ "<script src=" ++ quote ++ "https://cdn.tailwindcss.com" ++ quote ++ "></script>"
   ++ newline ++ "</head>" ++ newline ++ "<body class=" ++ quote
   ++ "bg-slate-50 text-slate-900" ++ quote ++ ">" ++ newline ++ "<main class=" ++ quote
   ++ "max-w-5xl mx-auto p-6" ++ quote ++ ">" ++ newline ++ "<header class=" ++ quote
   ++ "mb-6" ++ quote ++ ">" ++ newline ++ "  <h1 class=" ++ quote ++ "text-2xl font-bold"
   ++ quote ++ ">GitHub Profiller for <a href=" ++ quote ++ "https://github.com/" ++ a2
   ++ quote ++ " class=" ++ quote ++ "text-blue-600 hover:underline" ++ quote ++ " target="
   ++ quote ++ "_blank" ++ quote ++ " rel=" ++ quote ++ "noreferrer" ++ quote ++ ">@" ++ a3
   ++ "</a></h1>" ++ newline ++ "  <p class=" ++ quote ++ "text-sm text-slate-600" ++ quote
   ++ ">Generated locally. Scores are LLM-assisted and based on sampled files.</p>"
   ++ newline ++ "</header>" ++ newline ++ newline ++ a4 ++ newline ++ newline
   ++ "<section class=" ++ quote ++ "mt-8" ++ quote ++ ">" ++ newline ++ "  <h2 class="
   ++ quote ++ "text-xl font-semibold mb-4" ++ quote ++ ">Code Analysis</h2>" ++ newline
   ++ "  <div class=" ++ quote ++ "bg-white shadow rounded-xl overflow-hidden" ++ quote
   ++ ">" ++ newline ++ "    <table class=" ++ quote ++ "w-full text-sm" ++ quote ++ ">"
   ++ newline ++ "      <thead class=" ++ quote ++ "bg-slate-100" ++ quote ++ ">"
   ++ newline ++ "        <tr>" ++ newline ++ "          <th class=" ++ quote
   ++ "text-left py-2 px-3 w-1/4" ++ quote ++ ">Repo</th>" ++ newline
   ++ "          <th class=" ++ quote ++ "text-right py-2 px-3" ++ quote ++ ">Score</th>"
   ++ newline ++ "          <th class=" ++ quote ++ "text-left py-2 px-3" ++ quote
   ++ ">Strengths</th>" ++ newline ++ "          <th class=" ++ quote
   ++ "text-left py-2 px-3" ++ quote ++ ">Risks</th>" ++ newline ++ "          <th class="
   ++ quote ++ "text-left py-2 px-3" ++ quote ++ ">Samples</th>" ++ newline
   ++ "        </tr>" ++ newline ++ "      </thead>" ++ newline ++ "      <tbody>"
   ++ newline ++ "        " ++ a5 ++ newline ++ "      </tbody>" ++ newline
   ++ "    </table>" ++ newline ++ "  </div>" ++ newline ++ "</section>" ++ newline
   ++ newline ++ "<section class=" ++ quote ++ "mt-8" ++ quote ++ ">" ++ newline
   ++ "  <h2 class=" ++ quote ++ "text-xl font-semibold mb-4" ++ quote
   ++ ">Architecture Analysis</h2>" ++ newline ++ "  <div class=" ++ quote
   ++ "bg-white shadow rounded-xl overflow-hidden" ++ quote ++ ">" ++ newline
   ++ "    <table class=" ++ quote ++ "w-full text-sm" ++ quote ++ ">" ++ newline
   ++ "      <thead class=" ++ quote ++ "bg-slate-100" ++ quote ++ ">" ++ newline
   ++ "        <tr>" ++ newline ++ "          <th class=" ++ quote
   ++ "text-left py-2 px-3 w-1/4" ++ quote ++ ">Repo</th>" ++ newline
   ++ "          <th class=" ++ quote ++ "text-left py-2 px-3" ++ quote
   ++ ">Strengths</th>" ++ newline ++ "          <th class=" ++ quote
   ++ "text-left py-2 px-3" ++ quote ++ ">Considerations</th>" ++ newline
   ++ "        </tr>" ++ newline ++ "      </thead>" ++ newline ++ "      <tbody>"
   ++ newline ++ "        " ++ a6 ++ newline ++ "      </tbody>" ++ newline
   ++ "    </table>" ++ newline ++ "  </div>" ++ newline ++ "</section>" ++ newline
   ++ newline ++ a7 ++ newline ++ a8 ++ newline ++ newline ++ "</main>" ++ newline
   ++ "</body>" ++ newline ++ "</html>")%string.

(** The body of the loop that counts the languages. *)
Definition countLanguage (langCounts : gmap string Z) (r : RepoResult) : gmap string Z :=
  if String.eqb (Language (Repo r)) "" then langCounts
  else <[Language (Repo r) := default 0 (langCounts !! Language (Repo r)) + 1]> langCounts.

Record langStat := { lsName : string; lsCount : Z }.

(** The languages after [sort.Slice]. *)
Definition sortedLanguages `{GoStd} `{GoSort} (results : list RepoResult) : list langStat :=
  let langCounts := fold_left countLanguage results ∅ in
  let sortedLangs :=
    map (fun nc => {| lsName := fst nc; lsCount := snd nc |}) (mapRange langCounts) in
  SortSlice (fun a b => lsCount b <? lsCount a) sortedLangs.

(** The tags of the five first languages, and the section around them. *)
Definition languageTags `{GoStd} `{GoSort} (results : list RepoResult) : string :=
  fold_left (fun tags ls => (tags ++ languageTagFormat (EscapeString (lsName ls)))%string)
    (firstn 5 (sortedLanguages results)) "".

Definition languageSection `{GoStd} `{GoSort} (results : list RepoResult) : string :=
  let langTags := languageTags results in
  if (0 <? String.length langTags)%nat then langSectionFormat langTags else "".

(** A list of escaped items, or a dash when there is none. *)
Definition itemList (items : list string) : string :=
  if 0 <? len items
  then (fold_left (fun ss s => ss ++ "<li>" ++ EscapeString s ++ "</li>") items "<ul>"
        ++ "</ul>")%string
  else emDash.

Definition codeRow (r : RepoResult) : string :=
  let ss := itemList (Strengths r) in
  let rs := itemList (Risks r) in
  let sm := map (fun s => sampleLinkFormat (URL s)) (Samples r) in
  let samples := if 0 <? len sm then String.concat " " sm else emDash in
  codeRowFormat (EscapeString (Owner (Repo r))) (EscapeString (Name (Repo r)))
    (pretty (Score r)) ss rs samples.

Definition archRow (r : RepoResult) : string :=
  let archSs := itemList (map asPoint (rrArchStrengths r)) in
  let archCs :=
    if 0 <? len (rrArchConsiderations r)
    then (fold_left
            (fun cs c => cs ++ "<li>" ++ EscapeString (acPoint c)
                         ++ " <span class='text-xs text-slate-500'>("
                         ++ EscapeString (acSeverity c) ++ ")</span></li>")
            (rrArchConsiderations r) "<ul>" ++ "</ul>")%string
    else emDash in
  archRowFormat (EscapeString (Owner (Repo r))) (EscapeString (Name (Repo r))) archSs archCs.

Definition renderHTML `{GoStd} `{GoSort} (user : string) (results : list RepoResult)
    (headlineHTML summaryHTML : string) : string :=
  let langSection := languageSection results in
  let codeRows := fold_left (fun rows r => (rows ++ codeRow r)%string) results "" in
  let archRows := fold_left (fun rows r => (rows ++ archRow r)%string) results "" in
  pageFormat (EscapeString user) (EscapeString user) (EscapeString user) headlineHTML
    codeRows archRows summaryHTML langSection.


(** The zero [ChunkScore], and [encoding/json] at that type: the members of
    an object set the fields that they name (the tags of the struct,
    whatever the case), the others are skipped. *)
Definition zeroChunkScore : ChunkScore :=
  {| Readability := 0; Design := 0; Testing := 0; Maintain := 0; Idiomatic := 0;
     Security := 0; Notes := []; Citations := [] |}.

Definition decodeInt (v : json) (old : Z) : Z * option error :=
  match v with
  | JNumber literal =>
      if (- 2 ^ 63 <=? decimalZ literal) && (decimalZ literal <? 2 ^ 63)
      then (decimalZ literal, None)
      else (old, Some "json: cannot unmarshal number into Go value of type int")
  | JNull => (old, None)
  | _ => (old, Some "json: cannot unmarshal into Go value of type int")
  end.

Definition decodeStrings (v : json) (old : list string) : list string * option error :=
  match v with
  | JArray elements => decodeElements (fun e => unmarshalString e "") elements
  | JNull => ([], None)
  | _ => (old, Some "json: cannot unmarshal into Go value of type []string")
  end.

Definition decodeCitationMember (st : Citation * option error) (member : string * json)
  : Citation * option error :=
  let '(c, err) := st in
  let key := asciiToLower (fst member) in
  let keep e := match err with Some _ => err | None => e end in
  if String.eqb key "file" then
    let '(v, e) := unmarshalString (snd member) (File c) in
    ({| File := v; Lines := Lines c; Reason := Reason c |}, keep e)
  else if String.eqb key "lines" then
    let '(v, e) := unmarshalString (snd member) (Lines c) in
    ({| File := File c; Lines := v; Reason := Reason c |}, keep e)
  else if String.eqb key "reason" then
    let '(v, e) := unmarshalString (snd member) (Reason c) in
    ({| File := File c; Lines := Lines c; Reason := v |}, keep e)
  else st.

Definition decodeCitation (v : json) : Citation * option error :=
  let zero := {| File := ""; Lines := ""; Reason := "" |} in
  match v with
  | JObject members => fold_left decodeCitationMember members (zero, None)
  | JNull => (zero, None)
  | _ => (zero, Some "json: cannot unmarshal into Go value of type struct")
  end.

Definition decodeScoreMember (st : ChunkScore * option error) (member : string * json)
  : ChunkScore * option error :=
  let '(sc, err) := st in
  let key := asciiToLower (fst member) in
  let keep e := match err with Some _ => err | None => e end in
  let withInts r d t m i s :=
    {| Readability := r; Design := d; Testing := t; Maintain := m; Idiomatic := i;
       Security := s; Notes := Notes sc; Citations := Citations sc |} in
  if String.eqb key "readability" then
    let '(v, e) := decodeInt (snd member) (Readability sc) in
    (withInts v (Design sc) (Testing sc) (Maintain sc) (Idiomatic sc) (Security sc), keep e)
  else if String.eqb key "design" then
    let '(v, e) := decodeInt (snd member) (Design sc) in
    (withInts (Readability sc) v (Testing sc) (Maintain sc) (Idiomatic sc) (Security sc),
     keep e)
  else if String.eqb key "testing" then
    let '(v, e) := decodeInt (snd member) (Testing sc) in
    (withInts (Readability sc) (Design sc) v (Maintain sc) (Idiomatic sc) (Security sc),
     keep e)
  else if String.eqb key "maintainability" then
    let '(v, e) := decodeInt (snd member) (Maintain sc) in
    (withInts (Readability sc) (Design sc) (Testing sc) v (Idiomatic sc) (Security sc),
     keep e)
  else if String.eqb key "idiomatic" then
    let '(v, e) := decodeInt (snd member) (Idiomatic sc) in
    (withInts (Readability sc) (Design sc) (Testing sc) (Maintain sc) v (Security sc),
     keep e)
  else if String.eqb key "security" then
    let '(v, e) := decodeInt (snd member) (Security sc) in
    (withInts (Readability sc) (Design sc) (Testing sc) (Maintain sc) (Idiomatic sc) v,
     keep e)
  else if String.eqb key "notes" then
    let '(v, e) := decodeStrings (snd member) (Notes sc) in
    ({| Readability := Readability sc; Design := Design sc; Testing := Testing sc;
        Maintain := Maintain sc; Idiomatic := Idiomatic sc; Security := Security sc;
        Notes := v; Citations := Citations sc |}, keep e)
  else if String.eqb key "citations" then
    match snd member with
    | JArray elements =>
        let '(v, e) := decodeElements decodeCitation elements in
        ({| Readability := Readability sc; Design := Design sc; Testing := Testing sc;
            Maintain := Maintain sc; Idiomatic := Idiomatic sc; Security := Security sc;
            Notes := Notes sc; Citations := v |}, keep e)
    | JNull =>
        ({| Readability := Readability sc; Design := Design sc; Testing := Testing sc;
            Maintain := Maintain sc; Idiomatic := Idiomatic sc; Security := Security sc;
            Notes := Notes sc; Citations := [] |}, err)
    | _ => (sc, keep (Some "json: cannot unmarshal into Go value of type []struct"))
    end
  else st.

Definition encodeScore (sc : ChunkScore) : json :=
  JObject [("readability", JNumber (pretty (Readability sc)));
           ("design", JNumber (pretty (Design sc)));
           ("testing", JNumber (pretty (Testing sc)));
           ("maintainability", JNumber (pretty (Maintain sc)));
           ("idiomatic", JNumber (pretty (Idiomatic sc)));
           ("security", JNumber (pretty (Security sc)));
           ("notes", JArray (map JString (Notes sc)));
           ("citations",
            JArray (map (fun c => JObject [("file", JString (File c));
                                           ("lines", JString (Lines c));
                                           ("reason", JString (Reason c))])
                      (Citations sc)))].

#[export] Instance scoreJSON : JSON ChunkScore := {
  Marshal sc := Ok (writeJSON (encodeScore sc));
  Unmarshal text target :=
    match parseJSON text with
    | Some (JObject members) => fold_left decodeScoreMember members (target, None)
    | Some JNull => (target, None)
    | Some _ => (target, Some "json: cannot unmarshal into Go value of type ChunkScore")
    | None => (target, Some "invalid character")
    end
}.

(** The request of [evaluateRepo] to the client. *)
Definition scoringInput (repoPrompt : string) (repo : RepoTarget) (chunks : list FileChunk)
  : EvalInput :=
  {| inPrompt := repoPrompt; inOwner := Owner repo; inRepo := Name repo;
     inBranch := DefaultBranch repo; inChunks := toLLMChunks chunks |}.

(** A service that scores through an OpenAI client whose service answers
    every chunk with the same text. *)
Definition answeringClient (text : string) : openAIClient :=
  {| ocCfg := configWithChunks 2;
     sdk := fun _ _ _ => Ok {| Choices := [text] |};
     rpm := 60; para := 4 |}.

Definition openAIService (text : string) : service := {|
  cfg := configWithChunks 2;
  gh := gh (resolvedRefService []);
  scoreChunks := fun repo chunks =>
    match openAI_EvaluateJSON (answeringClient text) []
            (PtrToSlice ChunkScore zeroChunkScore scoreJSON)
            (scoringInput "Score the code." repo chunks) [] with
    | Done (r, _) => r
    | _ => ([], None)
    end;
  archOf := archOf (resolvedRefService []);
  report := report (resolvedRefService [])
|}.

(** *** Further notions *)

(** What [sampleChunks] guarantees of a chunk. *)
Definition wellFormedChunk `{GoStd} (s : service) (c : FileChunk) : Prop :=
  StartLine c = 1 /\ EndLine c = 1 + countNewlines (Content c) /\
  Z.of_nat (String.length (Content c)) <= MaxChunkBytes (cfgApp (cfg s)) /\
  fcLanguage c = guessLang (Path c).

(** The caps of the scoring loop. *)
Definition capped (st : tally) : Prop :=
  len (strengths st) <= 3 /\ len (risks st) <= 3 /\ len (samples st) <= 3.

(** What every returned result satisfies. *)
Definition boundedResult (repo : RepoTarget) (res : RepoResult) : Prop :=
  Repo res = repo /\ 0 <= Score res <= 100 /\
  len (Strengths res) <= 3 /\ len (Risks res) <= 3 /\ len (Samples res) <= 3 /\
  0 <= Chunks res <= Files res.

(** The three signs of a monorepo, on the lower-cased paths. *)
Definition hasMarkerFile (l : string) : bool :=
  String.eqb (Base l) "lerna.json" || String.eqb (Base l) "turbo.json"
  || String.eqb (Base l) "nx.json".

Definition isGoMod (l : string) : bool := String.eqb (Base l) "go.mod".

Definition monorepoSigns `{GoStd} (paths : list string) : bool :=
  let lowered := map ToLower paths in
  existsb hasMarkerFile lowered
  || (existsb (fun l => HasPrefix l "apps/") lowered
      && existsb (fun l => HasPrefix l "packages/" || HasPrefix l "libs/") lowered)
  || (2 <? len (List.filter isGoMod lowered)).

(** The text of a file that could be read. *)
Definition readable (read : string -> result string) (path text : string) : Prop :=
  read path = Ok text.

(** A text without the bytes that open or close a tag or an attribute
    value. *)
Fixpoint htmlSafe (s : string) : bool :=
  match s with
  | EmptyString => true
  | String c s' =>
      negb (Ascii.eqb c "<" || Ascii.eqb c ">" || Ascii.eqb c "034" || Ascii.eqb c "'")
      && htmlSafe s'
  end.


(** A score whose six marks add up to [n]. *)
Definition marksOf (n : Z) : ChunkScore :=
  {| Readability := n; Design := 0; Testing := 0; Maintain := 0; Idiomatic := 0;
     Security := 0; Notes := []; Citations := [] |}.

(** ** Part II: properties *)

(** *** Sorting: the contract of [slices.SortFunc] and its insertion-sort instance *)

(** A comparison that subtracts two keys (with the larger key first) is a
    strict weak ordering. *)
Lemma StrictWeakOn_key_desc {A} (key : A -> Z) (l : list A) :
  StrictWeakOn (fun a b => key b - key a) l.
Proof. split; intros; lia. Qed.

Lemma insertCmp_perm {A} (cmp : A -> A -> Z) (x : A) (l : list A) :
  Permutation (insertCmp cmp x l) (x :: l).
Proof.
  induction l as [|y l IH]; simpl; [reflexivity|].
  destruct (cmp x y <? 0); [reflexivity|].
  rewrite IH. apply perm_swap.
Qed.

Lemma insertionSort_perm {A} (cmp : A -> A -> Z) (l : list A) :
  Permutation (insertionSort cmp l) l.
Proof.
  unfold insertionSort.
  enough (Hgen : forall acc, Permutation (fold_left (fun acc x => insertCmp cmp x acc) l acc)
                               (l ++ acc)).
  { rewrite Hgen. now rewrite app_nil_r. }
  induction l as [|x l IH]; intros acc; simpl; [reflexivity|].
  rewrite IH, insertCmp_perm. symmetry. apply Permutation_middle.
Qed.

Lemma insertCmp_sorted {A} (cmp : A -> A -> Z) (L : list A) (x : A) (l : list A) :
  StrictWeakOn cmp L -> In x L -> incl l L ->
  StronglySorted (fun a b => ~ cmp b a < 0) l ->
  StronglySorted (fun a b => ~ cmp b a < 0) (insertCmp cmp x l).
Proof.
  intros Hsw Hx Hl Hs. induction Hs as [|y l Hs IH Hall]; simpl.
  - repeat constructor.
  - assert (Hy : In y L) by (apply Hl; now left).
    assert (Hl' : incl l L) by (intros z Hz; apply Hl; now right).
    destruct (cmp x y <? 0) eqn:E.
    + apply Z.ltb_lt in E. constructor; [now constructor|].
      constructor.
      * intros Hyx. apply (sw_irrefl cmp L Hsw x Hx).
        now apply (sw_trans cmp L Hsw x y x).
      * apply List.Forall_forall. intros z Hz Hzx.
        apply (proj1 (List.Forall_forall _ _) Hall z Hz).
        apply (sw_trans cmp L Hsw z x y); auto.
    + apply Z.ltb_ge in E. constructor; [now apply IH|].
      apply List.Forall_forall. intros z Hz.
      apply (Permutation_in _ (insertCmp_perm cmp x l)) in Hz as [<-|Hz].
      * lia.
      * exact (proj1 (List.Forall_forall _ _) Hall z Hz).
Qed.

Lemma insertionSort_sorted {A} (cmp : A -> A -> Z) (l : list A) :
  StrictWeakOn cmp l ->
  StronglySorted (fun a b => ~ cmp b a < 0) (insertionSort cmp l).
Proof.
  intros Hsw. unfold insertionSort.
  enough (Hgen : forall todo acc, incl todo l -> incl acc l ->
            StronglySorted (fun a b => ~ cmp b a < 0) acc ->
            StronglySorted (fun a b => ~ cmp b a < 0)
              (fold_left (fun acc x => insertCmp cmp x acc) todo acc)).
  { apply Hgen; [apply incl_refl | intros ? [] | constructor]. }
  induction todo as [|x todo IH]; intros acc Htodo Hacc Hs; simpl; [exact Hs|].
  assert (Hx : In x l) by (apply Htodo; now left).
  apply IH.
  - intros z Hz. apply Htodo. now right.
  - intros z Hz. apply (Permutation_in _ (insertCmp_perm cmp x acc)) in Hz as [<-|Hz]; auto.
  - now apply (insertCmp_sorted cmp l).
Qed.

(** The concrete instance keeps the promises of the library. *)
Lemma asciiStdSpec : GoStdSpec asciiStd.
Proof.
  split; simpl.
  - intros. apply insertionSort_perm.
  - intros. now apply insertionSort_sorted.
  - reflexivity.
Qed.

Lemma firstn_In {A} (x : A) (l : list A) (k : nat) :
  In x (firstn k l) -> In x l.
Proof.
  revert k. induction l as [|a l IH]; intros [|k]; simpl; try tauto.
  intros [->|Hx]; eauto.
Qed.

Lemma StronglySorted_firstn {A} (R : A -> A -> Prop) (l : list A) (k : nat) :
  StronglySorted R l -> StronglySorted R (firstn k l).
Proof.
  intros Hs. revert k.
  induction Hs as [|a l Hs IH Hall]; intros [|k]; simpl; try constructor.
  - apply IH.
  - apply List.Forall_forall. intros x Hx.
    apply (proj1 (List.Forall_forall _ _) Hall).
    eapply firstn_In. exact Hx.
Qed.

(** Sortedness is carried along a map when the two relations agree on the
    elements of the list. *)
Lemma StronglySorted_map_on {A B} (f : A -> B) (R : A -> A -> Prop)
    (S : B -> B -> Prop) (l : list A) :
  (forall a b, In a l -> In b l -> R a b -> S (f a) (f b)) ->
  StronglySorted R l -> StronglySorted S (map f l).
Proof.
  intros HRS Hs. induction Hs as [|a l Hs IH Hall]; simpl; constructor.
  - apply IH. intros x y Hx Hy. apply HRS; now right.
  - apply List.Forall_forall. intros y Hy.
    apply in_map_iff in Hy as (x & <- & Hx).
    apply HRS; [now left | now right |].
    exact (proj1 (List.Forall_forall _ _) Hall x Hx).
Qed.

(** *** File selection *)

Lemma containsExcludedDir_unfold l :
  containsExcludedDir l =
  (Contains l "/vendor/" || Contains l "/node_modules/" || Contains l "/.git/"
   || Contains l "/build/" || Contains l "/dist/").
Proof. unfold containsExcludedDir. simpl. now rewrite !orb_false_r, !orb_assoc. Qed.

Lemma hasBinaryExt_unfold l :
  hasBinaryExt l =
  (HasSuffix l ".png" || HasSuffix l ".jpg" || HasSuffix l ".zip"
   || HasSuffix l ".pdf" || HasSuffix l ".svg").
Proof. unfold hasBinaryExt. simpl. now rewrite !orb_false_r, !orb_assoc. Qed.

(** A path under none of the excluded directories, at any depth, has none of
    their segments. *)
Lemma underExcludedDir_contains (l : string) :
  underExcludedDir l = false -> containsExcludedDir l = false.
Proof.
  unfold underExcludedDir, containsExcludedDir. cbn [existsb].
  rewrite !orb_false_r. intros Hunder.
  repeat (apply orb_false_iff in Hunder as [Hdir Hunder];
          apply orb_false_iff in Hdir as [_ ->]; cbn [orb]).
  apply orb_false_iff in Hunder as [_ ->]. reflexivity.
Qed.

(** C3, as the code has it by design.  A path whose lower-cased form
    contains one of the segments /vendor/, /node_modules/, /.git/, /build/ or
    /dist/ scores 0 whatever else it is named; a path with a binary-asset
    extension that is neither under gen/ or docs/ nor contains "example"
    scores 0; and a path under gen/ or docs/ or containing "example" that
    lies under none of those directories, at any depth, scores 1 even with a
    binary-asset extension.  Nothing is said of the other paths whose first
    component is one of those directories. *)
Theorem scorePath_hard_exclude `{GoStd} (p : string) :
  (containsExcludedDir (ToLower p) = true -> scorePath p = 0) /\
  (hasBinaryExt (ToLower p) = true -> isGeneratedOrDocs (ToLower p) = false ->
   scorePath p = 0) /\
  (underExcludedDir (ToLower p) = false -> isGeneratedOrDocs (ToLower p) = true ->
   scorePath p = 1).
Proof.
  split; [|split].
  - rewrite containsExcludedDir_unfold. unfold scorePath. intros ->. reflexivity.
  - rewrite hasBinaryExt_unfold. unfold isGeneratedOrDocs, scorePath.
    intros Hb ->. rewrite Hb.
    match goal with |- (if ?c then _ else _) = _ => now destruct c end.
  - intros Hunder. apply underExcludedDir_contains in Hunder. revert Hunder.
    rewrite containsExcludedDir_unfold. unfold isGeneratedOrDocs, scorePath.
    intros -> ->. reflexivity.
Qed.

Lemma scorePath_hard_exclude_witness :
  scorePath "pkg/Vendor/lib.go" = 0 /\ scorePath "assets/logo.png" = 0 /\
  scorePath "docs/img/report.png" = 1.
Proof.
  pose proof (scorePath_hard_exclude (H := asciiStd) "pkg/Vendor/lib.go") as (H1 & _ & _).
  pose proof (scorePath_hard_exclude (H := asciiStd) "assets/logo.png") as (_ & H2 & _).
  pose proof (scorePath_hard_exclude (H := asciiStd) "docs/img/report.png") as (_ & _ & H3).
  split; [ apply H1; reflexivity | split; [ apply H2; reflexivity | apply H3; reflexivity ] ].
Defined.

(** C3 as stated fails by the order of the guards: a binary asset under
    docs/, which lies under none of the excluded directories, scores 1. *)
Lemma scorePath_not_always_zero :
  hasBinaryExt (ToLower "docs/img/report.png") = true /\
  underExcludedDir (ToLower "docs/img/report.png") = false /\
  scorePath "docs/img/report.png" = 1 /\
  scorePath "docs/img/report.png" <> 0.
Proof. repeat split. discriminate. Qed.

(** Every scored entry is an input path, carries its own score, and the score
    is positive. *)
Lemma scoreEntries_In `{GoStd} (entries : list string) (sp : scoredPath) :
  In sp (scoreEntries entries) <->
  In (spPath sp) entries /\ spScore sp = scorePath (spPath sp) /\ 0 < spScore sp.
Proof.
  unfold scoreEntries. rewrite in_flat_map. split.
  - intros (p & Hp & Hsp). destruct (0 <? scorePath p) eqn:E; [|destruct Hsp].
    destruct Hsp as [<-|[]]. simpl. apply Z.ltb_lt in E. auto.
  - intros (Hin & Hs & Hpos). exists (spPath sp). split; [exact Hin|].
    rewrite <- Hs. apply Z.ltb_lt in Hpos. rewrite Hpos.
    left. now destruct sp.
Qed.

(** The append-then-test loop stops after [max 1 (n - len out)] entries. *)
Lemma takePaths_firstn (sps : list scoredPath) (out : list string) (n : Z) :
  takePaths sps out n =
  out ++ map spPath (firstn (Z.to_nat (Z.max 1 (n - len out))) sps).
Proof.
  revert out. induction sps as [|sp rest IH]; intros out; simpl.
  - now rewrite firstn_nil, app_nil_r.
  - assert (Hlen : len (out ++ [spPath sp]) = len out + 1).
    { unfold len. rewrite length_app. simpl. lia. }
    destruct (n <=? len (out ++ [spPath sp])) eqn:E.
    + apply Z.leb_le in E.
      replace (Z.to_nat (Z.max 1 (n - len out))) with 1%nat by lia.
      reflexivity.
    + apply Z.leb_gt in E. rewrite IH, Hlen.
      replace (Z.to_nat (Z.max 1 (n - len out)))
        with (S (Z.to_nat (Z.max 1 (n - (len out + 1))))) by lia.
      simpl. now rewrite <- app_assoc.
Qed.

Lemma pickPaths_firstn `{GoStd} (entries : list string) (cfg : Config) :
  pickPaths entries cfg =
  map spPath
    (firstn (Z.to_nat (Z.max 1 (ChunksPerRepo (cfgApp cfg))))
       (SortFunc (fun a b => spScore b - spScore a) (scoreEntries entries))).
Proof. unfold pickPaths. rewrite takePaths_firstn. simpl. now rewrite Z.sub_0_r. Qed.

(** C4.  [pickPaths] returns input paths with a positive score, in descending
    order of score, and at most [n] of them when [n >= 1]; when [n <= 0] and
    some entry has a positive score it still returns one path, because the
    loop appends before it tests the length. *)
Theorem pickPaths_selection `{G : GoStd} {HG : GoStdSpec G}
    (entries : list string) (cfg : Config) :
  let n := ChunksPerRepo (cfgApp cfg) in
  let out := pickPaths entries cfg in
  Forall (fun p => In p entries /\ 0 < scorePath p) out /\
  StronglySorted (fun a b => scorePath b <= scorePath a) out /\
  (1 <= n -> len out <= n) /\
  (n <= 0 -> Exists (fun p => 0 < scorePath p) entries -> len out = 1).
Proof.
  intros n out. subst out. rewrite pickPaths_firstn. fold n.
  set (cmp := fun a b => spScore b - spScore a).
  assert (Hin : forall sp, In sp (SortFunc cmp (scoreEntries entries)) ->
                           In sp (scoreEntries entries)).
  { intros sp. apply Permutation_in, SortFunc_perm. }
  repeat split.
  - apply List.Forall_forall. intros p Hp.
    apply in_map_iff in Hp as (sp & <- & Hsp).
    apply firstn_In, Hin, scoreEntries_In in Hsp as (? & <- & ?). auto.
  - apply StronglySorted_map_on with (R := fun a b => ~ cmp b a < 0).
    + intros a b Ha Hb Hab.
      apply firstn_In, Hin, scoreEntries_In in Ha as (_ & <- & _).
      apply firstn_In, Hin, scoreEntries_In in Hb as (_ & <- & _).
      unfold cmp in Hab. lia.
    + apply StronglySorted_firstn, SortFunc_sorted, StrictWeakOn_key_desc.
  - intros Hn. unfold len. rewrite length_map, length_firstn. lia.
  - intros Hn Hex. unfold len. rewrite length_map, length_firstn.
    replace (Z.to_nat (Z.max 1 n)) with 1%nat by lia.
    rewrite (Permutation_length (SortFunc_perm _ cmp (scoreEntries entries))).
    apply List.Exists_exists in Hex as (p & Hp & Hpos).
    assert (Hsp : In {| spPath := p; spScore := scorePath p |} (scoreEntries entries)).
    { apply scoreEntries_In. simpl. auto. }
    destruct (scoreEntries entries); [destruct Hsp | simpl; lia].
Qed.

Lemma pickPaths_selection_witness :
  len (pickPaths ["vendor/x.go"; "internal/service.go"; "README.md"; "go.sum"]
         (configWithChunks 2)) <= 2 /\
  len (pickPaths ["main.go"] (configWithChunks 0)) = 1.
Proof.
  split.
  - apply (pickPaths_selection (HG := asciiStdSpec)
             ["vendor/x.go"; "internal/service.go"; "README.md"; "go.sum"]
             (configWithChunks 2)).
    simpl. lia.
  - apply (pickPaths_selection (HG := asciiStdSpec) ["main.go"] (configWithChunks 0)).
    + simpl. lia.
    + constructor. reflexivity.
Defined.

(** With [chunks_per_repo] left at 0, one path is still selected. *)
Example pickPaths_zero_count :
  pickPaths ["cmd/main.go"; "README.md"] (configWithChunks 0) = ["cmd/main.go"].
Proof. reflexivity. Qed.

(** [LoadConfig] passes [chunks_per_repo] on as the file gives it, so a file
    without the key leaves it at 0. *)
Lemma LoadConfig_keeps_App (file : result string)
    (yamlUnmarshal : string -> result Config) (getenv : string -> string) (c' : Config) :
  LoadConfig file yamlUnmarshal getenv = Ok c' ->
  exists b c, file = Ok b /\ yamlUnmarshal b = Ok c /\ cfgApp c' = cfgApp c /\
              0 < ParallelRequests (cfgLLM c') /\ 0 < RequestsPerMinute (cfgLLM c').
Proof.
  unfold LoadConfig. destruct file as [b|]; [|discriminate].
  destruct (yamlUnmarshal b) as [c|] eqn:E; [|discriminate].
  intros [= <-]. exists b, c. cbn. repeat split; try assumption.
  - destruct (ParallelRequests (cfgLLM c) <=? 0) eqn:Ep; [lia | apply Z.leb_gt in Ep; lia].
  - destruct (RequestsPerMinute (cfgLLM c) <=? 0) eqn:Er; [lia | apply Z.leb_gt in Er; lia].
Qed.

Example LoadConfig_empty_file :
  LoadConfig (Ok "") (fun _ => Ok zeroConfig) (fun _ => "") = Ok (configWithChunks 0).
Proof. reflexivity. Qed.

(** The selection scenario of the specification, except that the top-level
    vendor directory is not excluded: vendor/x.go scores 60 and takes the
    second place. *)
Example pickPaths_scenario :
  pickPaths ["vendor/x.go"; "internal/service.go"; "README.md"; "go.sum"]
    (configWithChunks 2) = ["internal/service.go"; "vendor/x.go"].
Proof. reflexivity. Qed.

(** *** The TTL disk cache *)

Lemma boolJSON_roundtrip : JSONRoundTrip bool.
Proof. intros [|] target b [= <-]; reflexivity. Qed.

(** C8.  A read of an absent path is a miss without an error; a read of a
    file whose age exceeds [ttl] is a miss without an error whatever the file
    holds; and a read is a hit exactly when the file is there, its age is at
    most [ttl], it can be read and its content decodes into the target. *)
Theorem readCache_hit_or_miss {T} `{JSON T} (os : OS) (now : Z) (path : string)
    (target : T) (ttl : Z) :
  (files os !! path = None ->
   readCache os now path target ttl = (false, None, target)) /\
  (forall ent modTime,
     files os !! path = Some ent -> entStat ent = Ok modTime ->
     ttl < Since now modTime ->
     readCache os now path target ttl = (false, None, target)) /\
  (forall err target',
     readCache os now path target ttl = (true, err, target') <->
     err = None /\
     exists ent modTime b,
       files os !! path = Some ent /\ entStat ent = Ok modTime /\
       Since now modTime <= ttl /\ entData ent = Ok b /\
       Unmarshal b target = (target', None)).
Proof.
  unfold readCache. split; [|split].
  - intros ->. reflexivity.
  - intros ent modTime -> -> Hold. apply Z.ltb_lt in Hold. now rewrite Hold.
  - intros err target'. split.
    + destruct (files os !! path) as [ent|] eqn:Hent; [|discriminate].
      destruct (entStat ent) as [modTime|] eqn:Hstat; [|discriminate].
      destruct (ttl <? Since now modTime) eqn:Httl; [discriminate|].
      destruct (entData ent) as [b|] eqn:Hdata; [|discriminate].
      destruct (Unmarshal b target) as [t [e|]] eqn:Hun; [discriminate|].
      intros [= <- <-]. apply Z.ltb_ge in Httl.
      split; [reflexivity|]. exists ent, modTime, b. auto.
    + intros (-> & ent & modTime & b & -> & -> & Hfresh & -> & ->).
      apply Z.ltb_ge in Hfresh. now rewrite Hfresh.
Qed.

Lemma readCache_hit_or_miss_witness :
  readCache (diskWith "k" "true") 5000 "absent" false 10000 = (false, None, false) /\
  readCache (diskWith "k" "true") 5000 "k" false 3999 = (false, None, false) /\
  readCache (diskWith "k" "true") 5000 "k" false 4000 = (true, None, true).
Proof.
  pose proof (readCache_hit_or_miss (diskWith "k" "true") 5000 "absent" false 10000)
    as (Habsent & _ & _).
  pose proof (readCache_hit_or_miss (diskWith "k" "true") 5000 "k" false 3999)
    as (_ & Hstale & _).
  pose proof (readCache_hit_or_miss (diskWith "k" "true") 5000 "k" false 4000)
    as (_ & _ & Hhit).
  split; [|split].
  - apply Habsent. reflexivity.
  - apply (Hstale {| entStat := Ok 1000; entData := Ok "true" |} 1000);
      [reflexivity | reflexivity | vm_compute; reflexivity].
  - apply Hhit. split; [reflexivity|].
    exists {| entStat := Ok 1000; entData := Ok "true" |}, 1000, "true".
    repeat split. vm_compute. discriminate.
Defined.

(** C9.  After a successful [writeCache] at time [now], a [readCache] of the
    same path at time [later] with [ttl] at least the elapsed time is a hit
    and leaves the written value in the target, for every type whose JSON
    encoding decodes back to the value. *)
Theorem writeCache_readCache {T} `{JSON T} {RT : JSONRoundTrip T}
    (os os' : OS) (now later : Z) (path : string) (v target : T) (ttl : Z) :
  writeCache os now path v = (os', None) ->
  Since later now <= ttl ->
  readCache os' later path target ttl = (true, None, v).
Proof.
  unfold writeCache. intros Hw Hfresh.
  destruct (mkdirAllErr os path); [discriminate|].
  destruct (Marshal v) as [b|] eqn:Hm; [|discriminate].
  destruct (writeFileErr os path); [discriminate|].
  injection Hw as <-.
  unfold readCache. simpl. rewrite lookup_insert_eq. simpl.
  apply Z.ltb_ge in Hfresh. rewrite Hfresh.
  now rewrite (unmarshal_marshal v target b Hm).
Qed.

Lemma writeCache_readCache_witness :
  readCache (fst (writeCache (diskWith "k" "false") 2000 "k" true)) 2500 "k" false 500
  = (true, None, true).
Proof.
  apply (writeCache_readCache (RT := boolJSON_roundtrip)
           (diskWith "k" "false") _ 2000 2500 "k" true false 500).
  - reflexivity.
  - vm_compute. discriminate.
Defined.

(** *** Repository discovery *)

Lemma findByName_None k l : findByName k l = None <-> ~ In k (map NameWithOwner l).
Proof.
  unfold findByName. induction l as [|r l IH]; simpl; [tauto|].
  destruct (String.eqb_spec (NameWithOwner r) k); [split; [discriminate|tauto]|].
  rewrite IH. tauto.
Qed.

Lemma addPinned_keepNode opt m po r :
  addPinned opt (m, po) r =
  if keepNode opt r
  then (<[NameWithOwner r := repoGraphQLToTarget r true]> m, po ++ [NameWithOwner r])
  else (m, po).
Proof.
  unfold addPinned, keepNode.
  destruct (String.eqb (NameWithOwner r) ""); [reflexivity|].
  now destruct (optExcludeForks opt && IsFork r).
Qed.

Lemma fold_addPinned opt l m po :
  fold_left (addPinned opt) l (m, po) =
  (fold_left (fun m r => <[NameWithOwner r := repoGraphQLToTarget r true]> m)
     (List.filter (keepNode opt) l) m,
   po ++ map NameWithOwner (List.filter (keepNode opt) l)).
Proof.
  revert m po. induction l as [|r l IH]; intros m po.
  - simpl. now rewrite app_nil_r.
  - cbn [fold_left List.filter]. rewrite addPinned_keepNode.
    destruct (keepNode opt r); [|apply IH].
    rewrite IH. cbn [fold_left map]. now rewrite <- app_assoc.
Qed.

Lemma lookup_fold_insert_pinned (kept : list repoGraphQL) (m : gmap string RepoTarget) k :
  NoDup (map NameWithOwner kept) ->
  fold_left (fun m r => <[NameWithOwner r := repoGraphQLToTarget r true]> m) kept m !! k =
  match findByName k kept with
  | Some r => Some (repoGraphQLToTarget r true)
  | None => m !! k
  end.
Proof.
  revert m. induction kept as [|r kept IH]; intros m Hnd; simpl; [reflexivity|].
  apply NoDup_cons in Hnd as [Hr Hnd]. rewrite IH by exact Hnd.
  unfold findByName in *. simpl.
  destruct (String.eqb_spec (NameWithOwner r) k) as [<-|Hne].
  - replace (find _ kept) with (@None repoGraphQL).
    + apply lookup_insert_eq.
    + symmetry. apply findByName_None. rewrite <- list_elem_of_In. exact Hr.
  - destruct (find _ kept); [reflexivity|]. now apply lookup_insert_ne.
Qed.

Lemma lookup_fold_addNonPinned opt (l : list repoGraphQL) (m : gmap string RepoTarget) k :
  fold_left (addNonPinned opt) l m !! k =
  match m !! k with
  | Some v => Some v
  | None =>
      match findByName k (List.filter (keepNode opt) l) with
      | Some r => Some (repoGraphQLToTarget r false)
      | None => None
      end
  end.
Proof.
  revert m. induction l as [|r l IH]; intros m.
  - simpl. now destruct (m !! k).
  - cbn [fold_left List.filter]. rewrite IH. unfold addNonPinned, keepNode.
    destruct (String.eqb (NameWithOwner r) ""); simpl; [reflexivity|].
    case_bool_decide as Hsome.
    + destruct (optExcludeForks opt && IsFork r); simpl; [reflexivity|].
      unfold findByName. simpl.
      destruct (String.eqb_spec (NameWithOwner r) k) as [<-|Hne]; [|reflexivity].
      destruct Hsome as [v ->]. reflexivity.
    + destruct (optExcludeForks opt && IsFork r); simpl; [reflexivity|].
      unfold findByName. simpl.
      destruct (String.eqb_spec (NameWithOwner r) k) as [<-|Hne].
      * rewrite lookup_insert_eq.
        destruct (m !! NameWithOwner r) eqn:E; [|reflexivity].
        exfalso. apply Hsome. eauto.
      * now rewrite lookup_insert_ne.
Qed.

Lemma fold_movePinned (po : list string) (ts : list RepoTarget)
    (m : gmap string RepoTarget) :
  NoDup po ->
  fold_left movePinned po (ts, m) =
  (ts ++ map (fun k => default zeroRepoTarget (m !! k)) po,
   fold_left (fun m k => delete k m) po m).
Proof.
  revert ts m. induction po as [|k po IH]; intros ts m Hnd.
  - simpl. now rewrite app_nil_r.
  - apply NoDup_cons in Hnd as [Hk Hnd].
    cbn [fold_left movePinned]. rewrite IH by exact Hnd.
    cbn [map]. rewrite <- app_assoc. cbn [app]. do 3 f_equal.
    apply map_ext_in. intros k' Hk'.
    rewrite lookup_delete_ne; [reflexivity|].
    intros ->. apply Hk. now apply list_elem_of_In.
Qed.

Lemma lookup_fold_delete (po : list string) (m : gmap string RepoTarget) k :
  fold_left (fun m k => delete k m) po m !! k =
  if decide (k ∈ po) then None else m !! k.
Proof.
  revert m. induction po as [|k' po IH]; intros m; cbn [fold_left].
  - case_decide as H; [|reflexivity]. now apply elem_of_nil in H.
  - rewrite IH. destruct (decide (k = k')) as [->|Hne].
    + rewrite lookup_delete_eq, (decide_True (P := k' ∈ k' :: po))
        by (apply elem_of_cons; now left).
      now destruct (decide (k' ∈ po)).
    + rewrite lookup_delete_ne by congruence.
      destruct (decide (k ∈ po)) as [Hin|Hnin].
      * rewrite decide_True by (apply elem_of_cons; now right). reflexivity.
      * rewrite decide_False; [reflexivity|].
        intros [?|?]%elem_of_cons; tauto.
Qed.

(** Membership in the deduplicated list, by name. *)
Lemma dedupByName_In (seen : list string) (l : list repoGraphQL) r :
  In r (dedupByName seen l) <->
  ~ In (NameWithOwner r) seen /\ findByName (NameWithOwner r) l = Some r.
Proof.
  revert seen. induction l as [|x l IH]; intros seen; simpl.
  - unfold findByName. simpl. split; [tauto | intros [_ [=]]].
  - unfold findByName in *. simpl.
    case_decide as Hseen.
    + rewrite IH. rewrite list_elem_of_In in Hseen.
      destruct (String.eqb_spec (NameWithOwner x) (NameWithOwner r)) as [E|E].
      * rewrite E in Hseen. split; [tauto|]. intros [? _]. tauto.
      * tauto.
    + rewrite list_elem_of_In in Hseen. simpl. rewrite IH. simpl.
      destruct (String.eqb_spec (NameWithOwner x) (NameWithOwner r)) as [E|E].
      * split.
        -- intros [->|[Hc _]]; [|tauto]. split; [exact Hseen|reflexivity].
        -- intros [_ [= ->]]. now left.
      * split.
        -- intros [->|[Hc Hf]]; [congruence|]. tauto.
        -- intros [Hn Hf]. right. split; [|exact Hf]. intros [Hx|Hx]; tauto.
Qed.

Lemma dedupByName_NoDup (seen : list string) (l : list repoGraphQL) :
  NoDup (map NameWithOwner (dedupByName seen l)) /\
  (forall r, In r (dedupByName seen l) -> ~ In (NameWithOwner r) seen).
Proof.
  split; [|intros r Hr; now apply dedupByName_In in Hr].
  revert seen. induction l as [|x l IH]; intros seen; simpl; [constructor|].
  case_decide as Hseen; [apply IH|].
  simpl. apply NoDup_cons. split; [|apply IH].
  rewrite list_elem_of_In, in_map_iff. intros (r & Hname & Hr).
  apply dedupByName_In in Hr as [Hn _]. apply Hn. left. congruence.
Qed.

Lemma findByName_Some k l r : findByName k l = Some r -> In r l /\ NameWithOwner r = k.
Proof.
  intros H. apply find_some in H as [Hin Heq]. split; [exact Hin|].
  now apply String.eqb_eq.
Qed.

Lemma findByName_NoDup l r :
  NoDup (map NameWithOwner l) -> In r l -> findByName (NameWithOwner r) l = Some r.
Proof.
  unfold findByName. induction l as [|x l IH]; intros Hnd Hin; [destruct Hin|].
  simpl in Hnd. apply NoDup_cons in Hnd as [Hx Hnd]. simpl.
  destruct (String.eqb_spec (NameWithOwner x) (NameWithOwner r)) as [E|E].
  - destruct Hin as [->|Hin]; [reflexivity|].
    exfalso. apply Hx. rewrite E, list_elem_of_In. now apply in_map.
  - destruct Hin as [->|Hin]; [congruence|]. now apply IH.
Qed.

Lemma wrap64_small z : - 2 ^ 63 <= z < 2 ^ 63 -> wrap64 z = z.
Proof.
  unfold wrap64. change (2 ^ 64) with 18446744073709551616.
  change (2 ^ 63) with 9223372036854775808.
  intros Hz. rewrite Z.mod_small; lia.
Qed.

(** On star counts that are non-negative, the comparison of
    [DiscoverUserRepos] does not wrap and orders by descending stars. *)
Lemma StrictWeakOn_stars (l : list RepoTarget) :
  Forall (fun t => 0 <= Stars t < 2 ^ 63) l ->
  StrictWeakOn (fun a b => wrap64 (Stars b - Stars a)) l.
Proof.
  intros Hall.
  assert (Hw : forall a b, In a l -> In b l ->
                 wrap64 (Stars b - Stars a) = Stars b - Stars a).
  { intros a b Ha Hb.
    pose proof (proj1 (List.Forall_forall _ _) Hall a Ha).
    pose proof (proj1 (List.Forall_forall _ _) Hall b Hb).
    cbv beta in *. apply wrap64_small.
    change (2 ^ 63) with 9223372036854775808 in *. lia. }
  split.
  - intros a Ha. rewrite Hw by assumption. lia.
  - intros a b c Ha Hb Hc. rewrite !Hw by assumption. lia.
  - intros a b c Ha Hb Hc. rewrite !Hw by assumption. lia.
Qed.

Lemma truncateTo_spec {A} (limit : Z) (l : list A) :
  (if (0 <? limit) && (limit <? len l) then firstn (Z.to_nat limit) l else l)
  = truncateTo limit l.
Proof.
  unfold truncateTo. destruct (0 <? limit) eqn:E0; simpl; [|reflexivity].
  destruct (limit <? len l) eqn:E1; [reflexivity|].
  apply Z.ltb_ge in E1. unfold len in E1. symmetry. apply firstn_all2. lia.
Qed.

Lemma StronglySorted_unmap {A B} (f : A -> B) (R : B -> B -> Prop) (l : list A) :
  StronglySorted R (map f l) -> StronglySorted (fun a b => R (f a) (f b)) l.
Proof.
  induction l as [|a l IH]; simpl; intros Hs; [constructor|].
  apply StronglySorted_inv in Hs as [Hs Hall]. constructor; [now apply IH|].
  apply List.Forall_forall. intros b Hb.
  apply (proj1 (List.Forall_forall _ _) Hall). now apply in_map.
Qed.

(** The loops of [discoverTargets], one after the other: the pinned nodes
    that are kept come first, the values left in the map are sorted. *)
Lemma discoverTargets_unfold `{G : GoStd} (opt : discoverOptions) (q : userRepoQuery) :
  NoDup (map NameWithOwner (pinnedKept opt q)) ->
  exists m3 : gmap string RepoTarget,
    (forall k, m3 !! k =
       if decide (k ∈ map NameWithOwner (pinnedKept opt q)) then None
       else if optIncludeNonPinned opt
       then match findByName k (List.filter (keepNode opt) (Repositories q)) with
            | Some r => Some (repoGraphQLToTarget r false)
            | None => None
            end
       else None) /\
    discoverTargets opt q =
      truncateTo (Limit opt)
        (map (fun r => repoGraphQLToTarget r true) (pinnedKept opt q) ++
         SortFunc (fun a b => wrap64 (Stars b - Stars a)) (map snd (mapRange m3))).
Proof.
  intros Hnd.
  set (kept := pinnedKept opt q) in *.
  set (m1 := fold_left (fun m r => <[NameWithOwner r := repoGraphQLToTarget r true]> m)
               kept (∅ : gmap string RepoTarget)).
  set (m2 := if optIncludeNonPinned opt
             then fold_left (addNonPinned opt) (Repositories q) m1 else m1).
  exists (fold_left (fun m k => delete k m) (map NameWithOwner kept) m2).
  assert (Hm1 : forall k, m1 !! k =
            match findByName k kept with
            | Some r => Some (repoGraphQLToTarget r true)
            | None => None
            end).
  { intros k. subst m1. rewrite lookup_fold_insert_pinned by exact Hnd.
    destruct (findByName k kept); [reflexivity | apply lookup_empty]. }
  split.
  - intros k. rewrite lookup_fold_delete.
    destruct (decide (k ∈ map NameWithOwner kept)) as [Hin|Hnin]; [reflexivity|].
    assert (Hnone : m1 !! k = None).
    { rewrite Hm1. replace (findByName k kept) with (@None repoGraphQL); [reflexivity|].
      symmetry. apply findByName_None. now rewrite <- list_elem_of_In. }
    subst m2. destruct (optIncludeNonPinned opt); [|exact Hnone].
    rewrite lookup_fold_addNonPinned, Hnone. reflexivity.
  - unfold discoverTargets.
    replace (if optIncludePinned opt
             then fold_left (addPinned opt) (PinnedItems q) (∅, [])
             else (∅, []))
      with (m1, map NameWithOwner kept).
    2:{ subst m1 kept. unfold pinnedKept.
        destruct (optIncludePinned opt); [now rewrite fold_addPinned | reflexivity]. }
    cbv beta iota zeta. fold m2.
    rewrite fold_movePinned by exact Hnd.
    cbv beta iota zeta. rewrite truncateTo_spec. do 2 f_equal.
    rewrite map_map. apply map_ext_in. intros r Hr.
    assert (Hk : m1 !! NameWithOwner r = Some (repoGraphQLToTarget r true)).
    { rewrite Hm1. now rewrite findByName_NoDup. }
    subst m2. destruct (optIncludeNonPinned opt).
    + rewrite lookup_fold_addNonPinned, Hk. reflexivity.
    + now rewrite Hk.
Qed.

Lemma discoverTargets_merge `{G : GoStd} {HG : GoStdSpec G}
    (opt : discoverOptions) (q : userRepoQuery) :
  NoDup (map NameWithOwner (pinnedKept opt q)) ->
  Forall (fun r => 0 <= StargazerCount r < 2 ^ 63) (Repositories q) ->
  exists rest,
    Permutation rest (nonPinnedKept opt q) /\
    StronglySorted (fun a b => StargazerCount b <= StargazerCount a) rest /\
    NoDup (map NameWithOwner (pinnedKept opt q ++ rest)) /\
    discoverTargets opt q =
      truncateTo (Limit opt)
        (map (fun r => repoGraphQLToTarget r true) (pinnedKept opt q) ++
         map (fun r => repoGraphQLToTarget r false) rest).
Proof.
  intros Hnd Hstars.
  destruct (discoverTargets_unfold opt q Hnd) as (m3 & Hm3 & Hres).
  set (pair := fun r => (NameWithOwner r, repoGraphQLToTarget r false)).
  (* the map holds exactly the kept non-pinned nodes *)
  assert (Hperm : Permutation (map_to_list m3) (map pair (nonPinnedKept opt q))).
  { apply NoDup_Permutation.
    - apply NoDup_map_to_list.
    - apply NoDup_ListNoDup, List.NoDup_map_inv with (f := fst), NoDup_ListNoDup.
      rewrite map_map. simpl.
      unfold nonPinnedKept. destruct (optIncludeNonPinned opt); [|constructor].
      apply dedupByName_NoDup.
    - intros [k v].
      rewrite elem_of_map_to_list, Hm3, (list_elem_of_In _ (k, v)), in_map_iff.
      unfold nonPinnedKept, pair.
      destruct (decide (k ∈ map NameWithOwner (pinnedKept opt q))) as [Hin|Hnin].
      + split; [discriminate|]. intros (r & [= <- <-] & Hr).
        destruct (optIncludeNonPinned opt); [|destruct Hr].
        apply dedupByName_In in Hr as [Hn _]. exfalso. apply Hn.
        now apply list_elem_of_In.
      + destruct (optIncludeNonPinned opt).
        2:{ split; [discriminate | intros (r & _ & [])]. }
        destruct (findByName k _) as [r|] eqn:Hf.
        * pose proof (findByName_Some _ _ _ Hf) as [_ Hname]. split.
          -- intros [= <-]. exists r. split; [now rewrite Hname|].
             apply dedupByName_In. rewrite Hname. split; [|exact Hf].
             now rewrite <- list_elem_of_In.
          -- intros (r' & [= <- <-] & Hr'). apply dedupByName_In in Hr' as [_ Hf'].
             congruence.
        * split; [discriminate|]. intros (r' & [= <- <-] & Hr').
          apply dedupByName_In in Hr' as [_ Hf']. congruence. }
  set (cmp := fun a b => wrap64 (Stars b - Stars a)) in *.
  assert (Hvals : Permutation (map snd (mapRange m3))
                    (map (fun r => repoGraphQLToTarget r false) (nonPinnedKept opt q))).
  { rewrite (mapRange_perm _ m3), Hperm, map_map. reflexivity. }
  assert (Hbound : Forall (fun t => 0 <= Stars t < 2 ^ 63) (map snd (mapRange m3))).
  { apply List.Forall_forall. intros t Ht.
    apply (Permutation_in _ Hvals), in_map_iff in Ht as (r & <- & Hr).
    unfold nonPinnedKept in Hr. destruct (optIncludeNonPinned opt); [|destruct Hr].
    apply dedupByName_In in Hr as [_ Hf]. apply findByName_Some in Hf as [Hin _].
    apply filter_In in Hin as [Hin _].
    exact (proj1 (List.Forall_forall _ _) Hstars r Hin). }
  pose proof (SortFunc_perm _ cmp (map snd (mapRange m3))) as Hsp.
  pose proof (SortFunc_sorted _ cmp _ (StrictWeakOn_stars _ Hbound)) as Hss.
  destruct (Permutation_map_inv _ _ (Permutation_trans Hsp Hvals))
    as (rest & Heq & Hrest).
  exists rest. split; [now symmetry|]. split; [|split].
  - rewrite Heq in Hss. apply StronglySorted_unmap in Hss.
    rewrite <- (map_id rest).
    apply StronglySorted_map_on with (2 := Hss). intros a b Ha Hb Hab. simpl in Hab.
    assert (Hin : forall r, In r rest -> 0 <= StargazerCount r < 2 ^ 63).
    { intros r Hr.
      apply (proj1 (List.Forall_forall _ _) Hbound (repoGraphQLToTarget r false)).
      apply (Permutation_in _ Hsp). rewrite Heq. apply in_map_iff. eauto. }
    pose proof (Hin a Ha). pose proof (Hin b Hb).
    unfold cmp in Hab. rewrite wrap64_small in Hab;
      cbn [Stars repoGraphQLToTarget] in *;
      change (2 ^ 63) with 9223372036854775808 in *; lia.
  - rewrite map_app. apply NoDup_app. split; [exact Hnd|]. split.
    + intros k Hk Hk'. rewrite list_elem_of_In, in_map_iff in Hk'.
      destruct Hk' as (r & <- & Hr).
      apply (Permutation_in _ (Permutation_sym Hrest)) in Hr.
      unfold nonPinnedKept in Hr. destruct (optIncludeNonPinned opt); [|destruct Hr].
      apply dedupByName_In in Hr as [Hn _]. apply Hn. now apply list_elem_of_In.
    + rewrite <- Hrest. unfold nonPinnedKept.
      destruct (optIncludeNonPinned opt); [|constructor]. apply dedupByName_NoDup.
  - rewrite Hres. fold cmp. now rewrite Heq.
Qed.

(** C5.  After a fresh query, the targets are the kept pinned repositories in
    query order, followed by the kept non-pinned repositories that are not
    already present (first occurrence of each name), in descending order of
    stars, the whole cut to the limit when it is positive; no name occurs
    twice.  The pinned names are assumed distinct and the star counts
    non-negative, as GitHub returns them.  In the scenario pinned = [A(5),
    B(1)], others = [B(1), C(50)], limit 2, the result is [A, B]. *)
Theorem discoverTargets_order `{G : GoStd} {HG : GoStdSpec G} :
  (forall (opt : discoverOptions) (q : userRepoQuery),
     NoDup (map NameWithOwner (pinnedKept opt q)) ->
     Forall (fun r => 0 <= StargazerCount r < 2 ^ 63) (Repositories q) ->
     exists rest,
       Permutation rest (nonPinnedKept opt q) /\
       StronglySorted (fun a b => StargazerCount b <= StargazerCount a) rest /\
       NoDup (map NameWithOwner (pinnedKept opt q ++ rest)) /\
       discoverTargets opt q =
         truncateTo (Limit opt)
           (map (fun r => repoGraphQLToTarget r true) (pinnedKept opt q) ++
            map (fun r => repoGraphQLToTarget r false) rest)) /\
  discoverTargets scenarioOptions scenarioQuery =
    [repoGraphQLToTarget (nodeOf "A" 5) true; repoGraphQLToTarget (nodeOf "B" 1) true].
Proof.
  split; [intros opt q; apply discoverTargets_merge|].
  destruct (discoverTargets_merge scenarioOptions scenarioQuery)
    as (rest & Hrest & _ & _ & ->).
  - apply (bool_decide_unpack _). vm_compute. exact I.
  - repeat constructor; vm_compute; discriminate.
  - change (nonPinnedKept scenarioOptions scenarioQuery) with [nodeOf "C" 50] in Hrest.
    apply Permutation_sym, Permutation_length_1_inv in Hrest as ->. reflexivity.
Qed.

Lemma discoverTargets_order_witness :
  (exists rest,
     Permutation rest [nodeOf "C" 50] /\
     discoverTargets scenarioOptions scenarioQuery =
       truncateTo 2
         ([repoGraphQLToTarget (nodeOf "A" 5) true;
           repoGraphQLToTarget (nodeOf "B" 1) true] ++
          map (fun r => repoGraphQLToTarget r false) rest)) /\
  discoverTargets scenarioOptions scenarioQuery =
    [repoGraphQLToTarget (nodeOf "A" 5) true; repoGraphQLToTarget (nodeOf "B" 1) true].
Proof.
  pose proof (discoverTargets_order (HG := asciiStdSpec)) as [Hgen Hscenario].
  split; [|exact Hscenario].
  destruct (Hgen scenarioOptions scenarioQuery) as (rest & Hperm & _ & _ & Heq).
  - apply (bool_decide_unpack _). vm_compute. exact I.
  - repeat constructor; vm_compute; discriminate.
  - exists rest. split; [exact Hperm | exact Heq].
Defined.

(** On a cache miss with a successful query, [DiscoverUserRepos] returns the
    targets computed from the reply. *)
Lemma DiscoverUserRepos_fresh `{G : GoStd} `{JSON (list RepoTarget)}
    (g : ghRepoImpl) (os : OS) (now later : Z) (handle cachePath : string)
    (opt : discoverOptions) (q : userRepoQuery) :
  getCachePath os [("repos-" ++ handle ++ ".json")%string] = Ok cachePath ->
  fst (fst (readCache os now cachePath [] (1 * Hour))) = false ->
  graphqlQuery g handle = Ok q ->
  snd (DiscoverUserRepos g os now later handle opt) = Ok (discoverTargets opt q).
Proof.
  intros Hpath Hmiss Hq. unfold DiscoverUserRepos. rewrite Hpath.
  destruct (readCache os now cachePath [] (1 * Hour)) as [[hit e] cached].
  simpl in Hmiss. subst hit. now rewrite Hq.
Qed.

(** *** The string-or-object decoders *)

Lemma fieldByKey_In `{GoStd} {F} (fields : list (string * F)) key f :
  fieldByKey fields key = Some f -> In f (map snd fields).
Proof.
  unfold fieldByKey.
  destruct (find _ fields) as [nf|] eqn:E1.
  - intros [= <-]. apply find_some in E1 as [Hin _]. now apply in_map.
  - clear E1. destruct (find _ fields) as [nf|] eqn:E2; [|discriminate].
    intros [= <-]. apply find_some in E2 as [Hin _]. now apply in_map.
Qed.

Lemma decode_consideration_members `{GoStd} (members : list (string * json))
    (a : ArchConsideration) :
  stringMembers considerationFields members ->
  fold_left (decodeMember considerationFields acGet acSet) members (a, None) =
  ({| acPoint := givenField considerationFields FPoint members (acPoint a);
      acJustification :=
        givenField considerationFields FJustification members (acJustification a);
      acSeverity := givenField considerationFields FSeverity members (acSeverity a) |},
   None).
Proof.
  unfold givenField. intros Hall. revert a.
  induction Hall as [|[key v] members Hm Hall IH]; intros a; [now destruct a|].
  cbn [fold_left]. unfold decodeMember at 2. cbn [fst snd] in *.
  destruct (fieldByKey considerationFields key) as [f|] eqn:Hf.
  - destruct Hm as [[=]|[->|[t ->]]]; cbn [unmarshalString];
      rewrite IH; destruct f; reflexivity.
  - rewrite IH. reflexivity.
Qed.

Lemma decode_strength_members `{GoStd} (members : list (string * json))
    (a : ArchStrength) :
  stringMembers strengthFields members ->
  fold_left (decodeMember strengthFields asGet asSet) members (a, None) =
  ({| asPoint := givenField strengthFields FPoint members (asPoint a);
      asJustification :=
        givenField strengthFields FJustification members (asJustification a) |},
   None).
Proof.
  unfold givenField. intros Hall. revert a.
  induction Hall as [|[key v] members Hm Hall IH]; intros a; [now destruct a|].
  cbn [fold_left]. unfold decodeMember at 2. cbn [fst snd] in *.
  destruct (fieldByKey strengthFields key) as [f|] eqn:Hf.
  - assert (Hf' : f = FPoint \/ f = FJustification).
    { apply fieldByKey_In in Hf. destruct Hf as [<-|[<-|[]]]; auto. }
    destruct Hm as [[=]|[->|[t ->]]]; cbn [unmarshalString];
      rewrite IH; destruct Hf' as [-> | ->]; reflexivity.
  - rewrite IH. reflexivity.
Qed.

(** C7.  Both decoders try the bare string first: a JSON string [s] sets
    [Point] to [s] (and, for a consideration, [Severity] to "Low") and leaves
    [Justification] as the receiver has it, which is empty for the fresh
    values that decoding creates.  Otherwise the object form is decoded and
    replaces the receiver: each of point, justification and severity is the
    string the object gives for it, and empty when the object has none. *)
Theorem UnmarshalJSON_string_or_object `{GoStd} :
  (forall (s : string) (ac : ArchConsideration),
     ArchConsideration_UnmarshalJSON ac (JString s) =
     ({| acPoint := s; acJustification := acJustification ac; acSeverity := "Low" |},
      None)) /\
  (forall s : string,
     ArchConsideration_UnmarshalJSON zeroArchConsideration (JString s) =
     ({| acPoint := s; acJustification := ""; acSeverity := "Low" |}, None)) /\
  (forall (s : string) (as_ : ArchStrength),
     ArchStrength_UnmarshalJSON as_ (JString s) =
     ({| asPoint := s; asJustification := asJustification as_ |}, None)) /\
  (forall (members : list (string * json)) (ac : ArchConsideration),
     stringMembers considerationFields members ->
     ArchConsideration_UnmarshalJSON ac (JObject members) =
     ({| acPoint := givenField considerationFields FPoint members "";
         acJustification := givenField considerationFields FJustification members "";
         acSeverity := givenField considerationFields FSeverity members "" |},
      None)) /\
  (forall (members : list (string * json)) (as_ : ArchStrength),
     stringMembers strengthFields members ->
     ArchStrength_UnmarshalJSON as_ (JObject members) =
     ({| asPoint := givenField strengthFields FPoint members "";
         asJustification := givenField strengthFields FJustification members "" |},
      None)).
Proof.
  repeat split; try reflexivity.
  - intros members ac Hm. unfold ArchConsideration_UnmarshalJSON.
    cbn [unmarshalString unmarshalStruct].
    now rewrite (decode_consideration_members members zeroArchConsideration Hm).
  - intros members as_ Hm. unfold ArchStrength_UnmarshalJSON.
    cbn [unmarshalString unmarshalStruct].
    now rewrite (decode_strength_members members zeroArchStrength Hm).
Qed.

Lemma UnmarshalJSON_string_or_object_witness :
  ArchConsideration_UnmarshalJSON zeroArchConsideration
    (JObject [("point", JString "Layered"); ("severity", JString "High");
              ("justification", JString "clear packages")]) =
  ({| acPoint := "Layered"; acJustification := "clear packages"; acSeverity := "High" |},
   None) /\
  ArchStrength_UnmarshalJSON zeroArchStrength
    (JObject [("Point", JString "Small interfaces"); ("extra", JNumber "1")]) =
  ({| asPoint := "Small interfaces"; asJustification := "" |}, None).
Proof.
  pose proof (UnmarshalJSON_string_or_object (H := asciiStd)) as (_ & _ & _ & Hc & Hs).
  split.
  - apply (Hc [("point", JString "Layered"); ("severity", JString "High");
               ("justification", JString "clear packages")] zeroArchConsideration).
    unfold stringMembers.
    repeat (apply List.Forall_cons; [right; right; eexists; reflexivity|]).
    apply List.Forall_nil.
  - apply (Hs [("Point", JString "Small interfaces"); ("extra", JNumber "1")]
              zeroArchStrength).
    unfold stringMembers.
    apply List.Forall_cons; [right; right; eexists; reflexivity|].
    apply List.Forall_cons; [left; reflexivity | apply List.Forall_nil].
Defined.

(** An object without a severity decodes to an empty severity: "Low" is the
    default of the bare-string form only. *)
Example UnmarshalJSON_object_without_severity :
  ArchConsideration_UnmarshalJSON zeroArchConsideration
    (JObject [("point", JString "Global state")]) =
  ({| acPoint := "Global state"; acJustification := ""; acSeverity := "" |}, None).
Proof. reflexivity. Qed.

(** A value that is neither a string nor an object is an error and leaves
    the receiver as it was. *)
Example UnmarshalJSON_number :
  fst (ArchConsideration_UnmarshalJSON
         {| acPoint := "p"; acJustification := "j"; acSeverity := "s" |} (JNumber "3")) =
  {| acPoint := "p"; acJustification := "j"; acSeverity := "s" |}.
Proof. reflexivity. Qed.

(** *** One LLM call with its retries *)

Lemma indexByte_Some s c i :
  indexByte s c = Some i ->
  String.get i s = Some c /\ forall k, (k < i)%nat -> String.get k s <> Some c.
Proof.
  revert i. induction s as [|d s IH]; intros i; simpl; [discriminate|].
  destruct (Ascii.eqb_spec d c) as [->|Hne].
  - intros [= <-]. split; [reflexivity | intros k Hk; lia].
  - destruct (indexByte s c) as [j|]; [|discriminate]. intros [= <-].
    destruct (IH j eq_refl) as [Hget Hmin]. split; [exact Hget|].
    intros [|k] Hk; [congruence|]. apply Hmin. lia.
Qed.

Lemma indexByte_None s c : indexByte s c = None -> forall k, String.get k s <> Some c.
Proof.
  induction s as [|d s IH]; simpl; [intros _ k; now destruct k|].
  destruct (Ascii.eqb_spec d c) as [->|Hne]; [discriminate|].
  destruct (indexByte s c); [discriminate|]. intros _ [|k]; [congruence|].
  now apply IH.
Qed.

Lemma lastIndexByte_Some s c i :
  lastIndexByte s c = Some i ->
  String.get i s = Some c /\ forall k, (i < k)%nat -> String.get k s <> Some c.
Proof.
  revert i. induction s as [|d s IH]; intros i; simpl; [discriminate|].
  destruct (lastIndexByte s c) as [j|] eqn:E.
  - intros [= <-]. destruct (IH j eq_refl) as [Hget Hmax]. split; [exact Hget|].
    intros [|k] Hk; [lia|]. apply Hmax. lia.
  - destruct (Ascii.eqb_spec d c) as [->|Hne]; [|discriminate]. intros [= <-].
    split; [reflexivity|]. intros [|k] Hk; [lia|].
    clear IH. revert k Hk. induction s as [|d' s IHs]; intros k Hk; simpl.
    + discriminate.
    + simpl in E. destruct (lastIndexByte s c) eqn:E'; [discriminate|].
      destruct (Ascii.eqb_spec d' c) as [->|Hne]; [discriminate|].
      destruct k as [|k]; [congruence|]. apply IHs; [reflexivity | lia].
Qed.

Lemma lastIndexByte_None s c :
  lastIndexByte s c = None -> forall k, String.get k s <> Some c.
Proof.
  induction s as [|d s IH]; simpl; [intros _ k; now destruct k|].
  destruct (lastIndexByte s c); [discriminate|].
  destruct (Ascii.eqb_spec d c) as [->|Hne]; [discriminate|].
  intros _ [|k]; [congruence|]. now apply IH.
Qed.

(** [extractJSON] returns the text from the first opening brace to the last
    closing brace, and fails exactly when no closing brace follows an opening
    one. *)
Lemma extractJSON_spec (s : string) :
  match extractJSON s with
  | Ok js =>
      exists i j : nat,
        (String.get i s = Some "{"%char /\
         forall k, (k < i)%nat -> String.get k s <> Some "{"%char) /\
        (String.get j s = Some "}"%char /\
         forall k, (j < k)%nat -> String.get k s <> Some "}"%char) /\
        (i < j)%nat /\ js = substring i (j - i + 1) s
  | Err _ =>
      ~ exists i j : nat,
          (i < j)%nat /\ String.get i s = Some "{"%char /\
          String.get j s = Some "}"%char
  end.
Proof.
  unfold extractJSON, IndexByte, LastIndexByte.
  destruct (indexByte s "{") as [i|] eqn:Ei.
  2:{ simpl. intros (i & j & _ & Hi & _). exact (indexByte_None _ _ Ei i Hi). }
  destruct (lastIndexByte s "}") as [j|] eqn:Ej.
  2:{ replace (Z.of_nat i =? -1) with false by (symmetry; apply Z.eqb_neq; lia).
      simpl. intros (i' & j' & _ & _ & Hj). exact (lastIndexByte_None _ _ Ej j' Hj). }
  replace (Z.of_nat i =? -1) with false by (symmetry; apply Z.eqb_neq; lia).
  replace (Z.of_nat j =? -1) with false by (symmetry; apply Z.eqb_neq; lia).
  pose proof (indexByte_Some _ _ _ Ei) as [Hi Hmin].
  pose proof (lastIndexByte_Some _ _ _ Ej) as [Hj Hmax].
  simpl. destruct (Z.of_nat j <=? Z.of_nat i) eqn:E.
  - apply Z.leb_le in E. intros (i' & j' & Hlt & Hi' & Hj').
    destruct (Nat.lt_ge_cases i' i) as [H1|H1]; [exact (Hmin i' H1 Hi')|].
    destruct (Nat.lt_ge_cases j j') as [H2|H2]; [exact (Hmax j' H2 Hj')|]. lia.
  - apply Z.leb_gt in E. exists i, j. repeat split; try assumption; [lia|].
    f_equal; lia.
Qed.

(** Case analysis on the reply text of a completion. *)
Ltac simplify_reply :=
  repeat match goal with
         | |- context [match Choices ?r with _ => _ end] => destruct (Choices r)
         | |- context [decodeReply ?t ?o] => destruct (decodeReply t o)
         end.

(** Case analysis on the request of attempt [k]: [tac] closes the case of a
    reply, the case of a failure is left. *)
Ltac on_attempt sdk k tac :=
  let E := fresh "E" in
  destruct (sdk k) eqn:E; [try rewrite E; tac|].

Ltac on_attempts sdk tac :=
  on_attempt sdk 0%nat tac; on_attempt sdk 1%nat tac; on_attempt sdk 2%nat tac.

(** C6.  [evalOne] sends at most three requests; every failed request, and
    nothing else, is followed by a sleep of 300 ms times the attempt number;
    after three failures the last error is returned; a reply without choices
    ends the call with an error and no further request; a reply text is
    decoded as a whole and, when that fails, from its first opening brace to
    its last closing brace, and the call fails when there is no such pair of
    braces or when that text does not decode either. *)
Theorem evalOne_retry_and_fallback {T} `{JSON T}
    (sdk : nat -> result ChatCompletion) (out : T) :
  let n := leadingFailures sdk 3 0 in
  snd (evalOne sdk out) = retryEffects n ++ (if (n <? 3)%nat then [Request n] else []) /\
  (List.length (List.filter isRequest (snd (evalOne sdk out))) <= 3)%nat /\
  (n = 3%nat -> exists e, sdk 2%nat = Err e /\ fst (evalOne sdk out) = (out, Some e)) /\
  (forall resp, (n < 3)%nat -> sdk n = Ok resp ->
     fst (evalOne sdk out) =
     match Choices resp with
     | [] => (out, Some "empty completion")
     | txt :: _ => decodeReply txt out
     end) /\
  (forall txt : string,
     snd (decodeReply txt out) = None <->
     snd (Unmarshal txt out) = None \/
     exists js, extractJSON txt = Ok js /\
                snd (Unmarshal js (fst (Unmarshal txt out))) = None) /\
  (forall txt : string,
     match extractJSON txt with
     | Ok js =>
         exists i j : nat,
           (String.get i txt = Some "{"%char /\
            forall k, (k < i)%nat -> String.get k txt <> Some "{"%char) /\
           (String.get j txt = Some "}"%char /\
            forall k, (j < k)%nat -> String.get k txt <> Some "}"%char) /\
           (i < j)%nat /\ js = substring i (j - i + 1) txt
     | Err _ =>
         ~ exists i j : nat,
             (i < j)%nat /\ String.get i txt = Some "{"%char /\
             String.get j txt = Some "}"%char
     end).
Proof.
  intros n. subst n. unfold evalOne. cbn [evalOneFrom leadingFailures].
  split; [|split; [|split; [|split; [|split]]]].
  - on_attempts sdk ltac:(simplify_reply; reflexivity). reflexivity.
  - on_attempts sdk ltac:(simplify_reply; simpl; lia). simpl. lia.
  - on_attempts sdk ltac:(discriminate). intros _. eexists. split; reflexivity.
  - intros resp. on_attempts sdk ltac:(intros _ [= <-]; simplify_reply; reflexivity).
    intros Hlt. lia.
  - intros txt. unfold decodeReply.
    destruct (Unmarshal txt out) as [o [e|]]; simpl; [|tauto].
    destruct (extractJSON txt) as [js|e'].
    + destruct (Unmarshal js o) as [o' [e2|]] eqn:E; simpl.
      * split; [discriminate|]. intros [[=]|(js' & [= <-] & Hjs)].
        rewrite E in Hjs. discriminate.
      * split; [|reflexivity]. intros _. right. exists js. now rewrite E.
    + simpl. split; [discriminate|]. intros [[=]|(js' & [=] & _)].
  - exact extractJSON_spec.
Qed.

Lemma evalOne_retry_and_fallback_witness :
  evalOne sdkDown false =
    (false, Some "connection refused",
     [Request 0; Sleep 300; Request 1; Sleep 600; Request 2; Sleep 900]) /\
  evalOne (sdkSecondTry []) false =
    (false, Some "empty completion", [Request 0; Sleep 300; Request 1]) /\
  fst (evalOne (sdkSecondTry [" true "]) false) = (true, None).
Proof.
  pose proof (evalOne_retry_and_fallback sdkDown false) as (He1 & _ & Hr1 & _).
  pose proof (evalOne_retry_and_fallback (sdkSecondTry []) false) as (He2 & _ & _ & Hr2 & _).
  pose proof (evalOne_retry_and_fallback (sdkSecondTry [" true "]) false)
    as (_ & _ & _ & Hr3 & _).
  split; [|split].
  - destruct (Hr1 eq_refl) as (e & [= <-] & Hfst).
    destruct (evalOne sdkDown false) as [res effects]. simpl in *. now subst.
  - specialize (Hr2 {| Choices := [] |} ltac:(vm_compute; lia) eq_refl).
    destruct (evalOne (sdkSecondTry []) false) as [res effects]. simpl in *. now subst.
  - exact (Hr3 {| Choices := [" true "] |} ltac:(vm_compute; lia) eq_refl).
Defined.

Example extractJSON_wrapped :
  extractJSON "Here it is: {a: {b: 1}} - done" = Ok "{a: {b: 1}}".
Proof. reflexivity. Qed.

Example extractJSON_reversed : extractJSON "} then {" = Err "no json braces found".
Proof. reflexivity. Qed.

(** *** Aggregation of the chunk scores *)

Lemma skipn_nth_error {A} (l : list A) (i : nat) :
  skipn i l = match nth_error l i with
              | Some x => x :: skipn (S i) l
              | None => []
              end.
Proof.
  revert i. induction l as [|a l IH]; intros [|i]; simpl; try reflexivity.
  rewrite IH. now destruct (nth_error l i).
Qed.

Lemma clamp_bounds v lo hi : lo <= hi -> lo <= clamp v lo hi <= hi.
Proof.
  intros Hle. unfold clamp.
  destruct (v <? lo) eqn:E1; [lia|]. destruct (hi <? v) eqn:E2; [lia|].
  apply Z.ltb_ge in E1, E2. lia.
Qed.

(** The loop adds the contributions of the chunks that count, in order. *)
Lemma forRange_tally_sums `{GoStd} (repo : RepoTarget) (chunks : list FileChunk)
    (scores : list ChunkScore) (i : nat) (st st' : tally) :
  forRange (tallyScore repo chunks) scores i st = Returns st' ->
  sum st' = fold_left PrimFloat.add
              (map fst (contributions (skipn i chunks) scores)) (sum st) /\
  cnt st' = fold_left PrimFloat.add
              (map snd (contributions (skipn i chunks) scores)) (cnt st).
Proof.
  revert i st. induction scores as [|sc scores IH]; intros i st; cbn [forRange].
  - intros [= <-]. unfold contributions. now destruct (skipn i chunks).
  - unfold tallyScore at 1. rewrite (skipn_nth_error chunks i).
    unfold contributions. destruct (total sc =? 0) eqn:Ez.
    + cbn [bindOutcome]. intros Hrest. apply IH in Hrest.
      destruct (nth_error chunks i) as [ch|] eqn:E; cbn [combine flat_map fst snd].
      * rewrite Ez. exact Hrest.
      * cbn [combine flat_map map fold_left].
        unfold contributions in Hrest. rewrite (skipn_nth_error chunks (S i)) in Hrest.
        assert (Hnone : nth_error chunks (S i) = None).
        { apply nth_error_None. apply nth_error_None in E. lia. }
        rewrite Hnone in Hrest. now destruct scores.
    + destruct (nth_error chunks i) as [ch|]; [|discriminate].
      destruct (fold_left classifyNote (Notes sc) (strengths st, risks st)) as [ss rs].
      cbn [bindOutcome]. intros Hrest. apply IH in Hrest.
      cbn [combine flat_map fst snd]. rewrite Ez.
      cbn [app map fold_left fst snd]. exact Hrest.
Qed.

Lemma forRange_tally_returns `{GoStd} (repo : RepoTarget) (chunks : list FileChunk)
    (scores : list ChunkScore) (i : nat) (st : tally) :
  (i + List.length scores <= List.length chunks)%nat ->
  exists st', forRange (tallyScore repo chunks) scores i st = Returns st'.
Proof.
  revert i st. induction scores as [|sc scores IH]; intros i st Hlen; cbn [forRange].
  - eauto.
  - simpl in Hlen. unfold tallyScore at 1.
    destruct (total sc =? 0); cbn [bindOutcome]; [apply IH; lia|].
    destruct (nth_error chunks i) as [ch|] eqn:E.
    + destruct (fold_left classifyNote _ _). cbn [bindOutcome]. apply IH. lia.
    + apply nth_error_None in E. lia.
Qed.

(** The score in the result of [evaluateRepo] is the one of [repoScore] on
    the sampled chunks and the scores the LLM left for them, unless the
    result is the degraded one. *)
Lemma evaluateRepo_Score `{GoStd} (s : service) (repo : RepoTarget) (res : RepoResult)
    (err : option error) :
  evaluateRepo s repo = Returns (res, err) ->
  res = emptyResult repo \/
  exists (sha : string) (tree : list string) (chunks : list FileChunk),
    ListTree (gh s) (Owner repo) (Name repo) (DefaultBranch repo) sha = Ok tree /\
    sampleChunks s repo (pickPaths tree (cfg s)) sha = Returns chunks /\
    repoScore repo chunks (fst (scoreChunks s repo chunks)) = Returns (Score res).
Proof.
  unfold evaluateRepo.
  destruct (GetLatestCommitSHA _ _ _ _) as [sha e].
  destruct (_ <? 7); [discriminate|].
  destruct (ListTree _ _ _ _ _) as [tree|e'] eqn:Htree; [|intros [= <- <-]; now left].
  destruct (sampleChunks _ _ _ _) as [chunks|msg] eqn:Hchunks; cbn [bindOutcome];
    [|discriminate].
  destruct (len chunks =? 0); [intros [= <- <-]; now left|].
  destruct (scoreChunks s repo chunks) as [scores e''] eqn:Hscores.
  destruct (forRange _ scores 0%nat emptyTally) as [st|msg] eqn:Hloop;
    cbn [bindOutcome]; [|discriminate].
  intros [= <- <-]. right. exists sha, tree, chunks.
  repeat split; try assumption.
  unfold repoScore. rewrite Hscores. cbn [fst]. rewrite Hloop. reflexivity.
Qed.

(** C1, as the code has it.  The score of a repository is computed in
    binary64: each chunk with a non-zero total brings (total/30) * weight to
    the numerator and its weight to the denominator, both summed from left
    to right, and the score is 0 when no chunk counts.  Otherwise the score
    is clamp(int(numerator / denominator * 100), 0, 100), where the
    conversion to [int] discards the fraction instead of rounding: it is the
    integral part of that float whenever this lies in the range of [int],
    and what the implementation makes of the float when it does not; in
    every case the score lies between 0 and 100.  The loop returns whenever
    there are no more scores than chunks.  For totals 18 at weight 1.0 and
    24 at weight 1.2 the score is 70; for totals 9 and 18 at weight 1.0 it
    is 44; and a total of 2^63 - 1 takes the float out of the range of
    [int], where the conversion of amd64 gives a score of 0. *)
Theorem repoScore_weighted_average `{GoStd} :
  (forall (repo : RepoTarget) (chunks : list FileChunk) (scores : list ChunkScore)
          (score : Z),
     repoScore repo chunks scores = Returns score ->
     score = scoreFromFraction intOfFloat (contributions chunks scores) /\
     0 <= score <= 100) /\
  (forall (repo : RepoTarget) (chunks : list FileChunk) (scores : list ChunkScore)
          (score : Z),
     repoScore repo chunks scores = Returns score ->
     let numerator := fsum (map fst (contributions chunks scores)) in
     let denominator := fsum (map snd (contributions chunks scores)) in
     let percent := (numerator / denominator * 100)%float in
     ((0 <? denominator)%float = false -> score = 0) /\
     ((0 <? denominator)%float = true ->
      forall v, truncFloat percent = Some v -> - 2 ^ 63 <= v < 2 ^ 63 ->
                score = clamp v 0 100) /\
     ((0 <? denominator)%float = true ->
      (forall v, truncFloat percent = Some v -> ~ (- 2 ^ 63 <= v < 2 ^ 63)) ->
      score = clamp (intOfFloatOverflow percent) 0 100)) /\
  (forall (repo : RepoTarget) (chunks : list FileChunk) (scores : list ChunkScore),
     (List.length scores <= List.length chunks)%nat ->
     exists score, repoScore repo chunks scores = Returns score) /\
  repoScore (H := asciiStd) scenarioRepo scenarioChunks scenarioScores = Returns 70 /\
  repoScore (H := asciiStd) scenarioRepo [chunkAt "main.go"; chunkAt "util.go"]
    [marksOf 9; marksOf 18] = Returns 44 /\
  repoScore (H := asciiStd) scenarioRepo [chunkAt "main.go"] [marksOf (2 ^ 63 - 1)]
    = Returns 0.
Proof.
  assert (Hscore : forall (repo : RepoTarget) (chunks : list FileChunk)
                          (scores : list ChunkScore) (score : Z),
            repoScore repo chunks scores = Returns score ->
            score = scoreFromFraction intOfFloat (contributions chunks scores) /\
            0 <= score <= 100).
  { intros repo chunks scores score. unfold repoScore.
    destruct (forRange _ scores 0%nat emptyTally) as [st|msg] eqn:Hloop; [|discriminate].
    cbn [bindOutcome]. intros [= <-].
    apply forRange_tally_sums in Hloop as [Hsum Hcnt]. cbn [skipn] in Hsum, Hcnt.
    unfold finalScore, scoreFromFraction, fsum. rewrite Hsum, Hcnt. cbn [emptyTally sum cnt].
    split; [reflexivity|].
    destruct (_ <? _)%float; [apply clamp_bounds; lia | lia]. }
  split; [exact Hscore|]. split; [|split; [|split; [|split]]].
  - intros repo chunks scores score Hret numerator denominator percent.
    destruct (Hscore repo chunks scores score Hret) as [-> _].
    unfold scoreFromFraction. fold numerator. fold denominator. cbv zeta. fold percent.
    split; [|split].
    + intros ->. reflexivity.
    + intros -> v Hv Hrange. unfold intOfFloat. rewrite Hv.
      replace ((- 2 ^ 63 <=? v) && (v <? 2 ^ 63)) with true; [reflexivity|].
      symmetry. apply andb_true_iff. split; [apply Z.leb_le | apply Z.ltb_lt]; lia.
    + intros -> Hout. unfold intOfFloat.
      destruct (truncFloat percent) as [v|] eqn:Hv; [|reflexivity].
      replace ((- 2 ^ 63 <=? v) && (v <? 2 ^ 63)) with false; [reflexivity|].
      symmetry. apply andb_false_iff.
      destruct (Z.leb_spec (- 2 ^ 63) v); [|now left].
      destruct (Z.ltb_spec v (2 ^ 63)); [|now right].
      destruct (Hout v eq_refl). lia.
  - intros repo chunks scores Hlen. unfold repoScore.
    destruct (forRange_tally_returns repo chunks scores 0 emptyTally Hlen) as [st ->].
    cbn [bindOutcome]. eauto.
  - vm_compute. reflexivity.
  - vm_compute. reflexivity.
  - vm_compute. reflexivity.
Qed.

Lemma repoScore_weighted_average_witness :
  (70 = scoreFromFraction (intOfFloat (H := asciiStd))
          (contributions (H := asciiStd) scenarioChunks scenarioScores) /\
   0 <= 70 <= 100) /\
  70 = clamp 70 0 100 /\
  exists score,
    repoScore (H := asciiStd) scenarioRepo scenarioChunks scenarioScores = Returns score.
Proof.
  pose proof (repoScore_weighted_average (H := asciiStd))
    as (Hscore & Hpercent & Hret & Hscenario & _).
  split; [|split].
  - exact (Hscore scenarioRepo scenarioChunks scenarioScores 70 Hscenario).
  - destruct (Hpercent scenarioRepo scenarioChunks scenarioScores 70 Hscenario)
      as (_ & Hin & _).
    apply (Hin eq_refl 70); [vm_compute; reflexivity|].
    split; [vm_compute; discriminate | reflexivity].
  - apply (Hret scenarioRepo scenarioChunks scenarioScores). simpl. lia.
Defined.

(** C1 as stated fails on its own scenario: rounding the weighted average
    gives 71, the code returns 70. *)
Lemma repoScore_truncates_not_rounds :
  scoreFromFraction roundFloat
    (contributions (H := asciiStd) scenarioChunks scenarioScores) = 71 /\
  repoScore (H := asciiStd) scenarioRepo scenarioChunks scenarioScores = Returns 70 /\
  repoScore (H := asciiStd) scenarioRepo scenarioChunks scenarioScores <> Returns 71.
Proof. split; [|split]; vm_compute; [reflexivity | reflexivity | discriminate]. Qed.

(** *** Strengths and risks *)

Lemma classifyNote_cases `{GoStd} (n : string) (ss rs : list string) :
  classifyNote (ss, rs) n =
  if hasPositive (ToLower n)
  then ((if len ss <? 3 then ss ++ [n] else ss), rs)
  else if hasNegative (ToLower n)
  then (ss, (if len rs <? 3 then rs ++ [n] else rs))
  else (ss, rs).
Proof. reflexivity. Qed.

Section NoteInvariant.
Context `{GoStd}.

Lemma classifyNote_classified (n : string) (ss rs : list string) :
  classified ss rs ->
  classified (fst (classifyNote (ss, rs) n)) (snd (classifyNote (ss, rs) n)).
Proof.
  intros [Hs Hr]. rewrite classifyNote_cases.
  destruct (hasPositive (ToLower n)) eqn:Ep; cbn [fst snd].
  - split; [|exact Hr]. destruct (len ss <? 3); [|exact Hs].
    apply Forall_app. split; [exact Hs|]. now constructor.
  - destruct (hasNegative (ToLower n)) eqn:En; cbn [fst snd]; [|now split].
    split; [exact Hs|]. destruct (len rs <? 3); [|exact Hr].
    apply Forall_app. split; [exact Hr|]. now constructor.
Qed.

Lemma fold_classifyNote_classified (notes : list string) (ss rs : list string) :
  classified ss rs ->
  classified (fst (fold_left classifyNote notes (ss, rs)))
               (snd (fold_left classifyNote notes (ss, rs))).
Proof.
  revert ss rs. induction notes as [|n notes IH]; intros ss rs Hinv; [exact Hinv|].
  cbn [fold_left]. pose proof (classifyNote_classified n ss rs Hinv) as Hstep.
  destruct (classifyNote (ss, rs) n) as [ss' rs']. now apply IH.
Qed.

Lemma forRange_tally_classified (repo : RepoTarget) (chunks : list FileChunk)
    (scores : list ChunkScore) (i : nat) (st st' : tally) :
  classified (strengths st) (risks st) ->
  forRange (tallyScore repo chunks) scores i st = Returns st' ->
  classified (strengths st') (risks st').
Proof.
  revert i st. induction scores as [|sc scores IH]; intros i st Hinv; cbn [forRange].
  - now intros [= <-].
  - unfold tallyScore at 1. destruct (total sc =? 0); cbn [bindOutcome].
    + now apply IH.
    + destruct (nth_error chunks i) as [ch|]; [|discriminate].
      pose proof (fold_classifyNote_classified (Notes sc) _ _ Hinv) as Hstep.
      destruct (fold_left classifyNote (Notes sc) (strengths st, risks st)) as [ss rs].
      cbn [bindOutcome]. now apply IH.
Qed.

Lemma evaluateRepo_classified (s : service) (repo : RepoTarget) (res : RepoResult)
    (err : option error) :
  evaluateRepo s repo = Returns (res, err) ->
  classified (Strengths res) (Risks res).
Proof.
  unfold evaluateRepo.
  destruct (GetLatestCommitSHA _ _ _ _) as [sha e].
  destruct (_ <? 7); [discriminate|].
  destruct (ListTree _ _ _ _ _) as [tree|e'].
  2:{ intros [= <- <-]. split; constructor. }
  destruct (sampleChunks _ _ _ _) as [chunks|msg]; cbn [bindOutcome]; [|discriminate].
  destruct (len chunks =? 0).
  { intros [= <- <-]. split; constructor. }
  destruct (scoreChunks s repo chunks) as [scores e''].
  destruct (forRange _ scores 0%nat emptyTally) as [st|msg] eqn:Hloop;
    cbn [bindOutcome]; [|discriminate].
  intros [= <- <-]. cbn [Strengths Risks].
  apply (forRange_tally_classified repo chunks scores 0 emptyTally st);
    [split; constructor | exact Hloop].
Qed.
End NoteInvariant.

(** C10.  A note whose lower-cased text contains a positive keyword goes to
    the strengths (while fewer than three are recorded) and leaves the risks
    as they are, whatever else it contains; a note with a negative keyword
    and no positive one goes to the risks (while fewer than three are
    recorded) and leaves the strengths as they are.  So in every result each
    strength has a positive keyword and each risk has a negative keyword and
    no positive one. *)
Theorem classifyNote_positive_first `{GoStd} :
  (forall (n : string) (ss rs : list string),
     hasPositive (ToLower n) = true ->
     classifyNote (ss, rs) n = ((if len ss <? 3 then ss ++ [n] else ss), rs)) /\
  (forall (n : string) (ss rs : list string),
     hasPositive (ToLower n) = false -> hasNegative (ToLower n) = true ->
     classifyNote (ss, rs) n = (ss, (if len rs <? 3 then rs ++ [n] else rs))) /\
  (forall (s : service) (repo : RepoTarget) (res : RepoResult) (err : option error),
     evaluateRepo s repo = Returns (res, err) ->
     Forall (fun n => hasPositive (ToLower n) = true) (Strengths res) /\
     Forall (fun n => hasPositive (ToLower n) = false /\ hasNegative (ToLower n) = true)
       (Risks res)).
Proof.
  split; [|split].
  - intros n ss rs Hp. now rewrite classifyNote_cases, Hp.
  - intros n ss rs Hp Hn. now rewrite classifyNote_cases, Hp, Hn.
  - intros s repo res err. apply evaluateRepo_classified.
Qed.

Lemma classifyNote_positive_first_witness :
  classifyNote (H := asciiStd) ([], [])
    "Well-structured, but the security model is unclear" =
    (["Well-structured, but the security model is unclear"], []) /\
  classifyNote (H := asciiStd) ([], []) "No security problems found" =
    ([], ["No security problems found"]) /\
  Forall (fun n => hasPositive (asciiToLower n) = true)
    ["Idiomatic error handling despite shared globals"].
Proof.
  pose proof (classifyNote_positive_first (H := asciiStd)) as (Hpos & Hneg & Hres).
  split; [|split].
  - apply (Hpos "Well-structured, but the security model is unclear" [] []).
    reflexivity.
  - apply (Hneg "No security problems found" [] []); reflexivity.
  - apply (Hres (resolvedRefService ["Idiomatic error handling despite shared globals"])
                scenarioRepo
                {| Repo := scenarioRepo; Score := 60;
                   Strengths := ["Idiomatic error handling despite shared globals"];
                   Risks := []; rrArchStrengths := []; rrArchConsiderations := [];
                   Samples := []; Files := 1; Chunks := 1 |} None).
    vm_compute. reflexivity.
Defined.

(** *** Failures below [Submit] *)

Lemma evaluateAll_panics `{GoStd} (s : service) (repos : list RepoTarget)
    (repo : RepoTarget) (msg : string) :
  In repo repos -> evaluateRepo s repo = Panics msg ->
  exists msg', evaluateAll s repos = Panics msg'.
Proof.
  intros Hin Hpanic. induction repos as [|r repos IH]; [destruct Hin|].
  cbn [evaluateAll]. destruct Hin as [->|Hin].
  - rewrite Hpanic. cbn [bindOutcome]. eauto.
  - destruct (evaluateRepo s r) as [res|msg']; cbn [bindOutcome]; [|eauto].
    destruct (IH Hin) as [msg' ->]. cbn [bindOutcome]. eauto.
Qed.

(** C2 fails in the code.  When [GetLatestCommitSHA] gives a string shorter
    than seven bytes (the empty string, on any error), [evaluateRepo] panics
    at [sha[:7]] after it has logged the warning, and the panic of that
    goroutine ends [Submit] for every repository: [Submit] gives no report,
    and it panics whatever the capacity of its semaphore, unless that is
    zero (then no goroutine gets as far).  When the SHA has seven bytes or
    more, a failure of the tree listing does degrade that repository's
    result and the run goes on. *)
Theorem evaluateRepo_short_sha_panics `{GoStd} :
  (forall (s : service) (repo : RepoTarget),
     (String.length
        (fst (GetLatestCommitSHA (gh s) (Owner repo) (Name repo) (DefaultBranch repo)))
      < 7)%nat ->
     evaluateRepo s repo = Panics "slice bounds out of range") /\
  (forall (s : service) (user : string) (repos : list RepoTarget) (repo : RepoTarget),
     ghDiscoverUserRepos (gh s) user (optionsOf (cfg s)) = Ok repos ->
     In repo repos ->
     (String.length
        (fst (GetLatestCommitSHA (gh s) (Owner repo) (Name repo) (DefaultBranch repo)))
      < 7)%nat ->
     (forall r, Submit s user <> Done r) /\
     (ParallelRequests (cfgLLM (cfg s)) <> 0 -> exists msg, Submit s user = Panic msg)) /\
  (forall (s : service) (repo : RepoTarget) (err : error),
     let sha :=
       fst (GetLatestCommitSHA (gh s) (Owner repo) (Name repo) (DefaultBranch repo)) in
     (7 <= String.length sha)%nat ->
     ListTree (gh s) (Owner repo) (Name repo) (DefaultBranch repo) sha = Err err ->
     evaluateRepo s repo = Returns (emptyResult repo, Some err)).
Proof.
  assert (Hshort : forall (s : service) (repo : RepoTarget),
     (String.length
        (fst (GetLatestCommitSHA (gh s) (Owner repo) (Name repo) (DefaultBranch repo)))
      < 7)%nat ->
     evaluateRepo s repo = Panics "slice bounds out of range").
  { intros s repo Hlen. unfold evaluateRepo.
    destruct (GetLatestCommitSHA _ _ _ _) as [sha e]. cbn [fst] in Hlen.
    replace (Z.of_nat (String.length sha) <? 7) with true; [reflexivity|].
    symmetry. apply Z.ltb_lt. lia. }
  split; [exact Hshort|split].
  - intros s user repos repo Hdisc Hin Hlen. unfold Submit. rewrite Hdisc.
    destruct (len repos =? 0) eqn:E.
    { apply Z.eqb_eq in E. unfold len in E. destruct repos; [destruct Hin | simpl in E; lia]. }
    destruct (evaluateAll_panics s repos repo _ Hin (Hshort s repo Hlen)) as [msg ->].
    cbv zeta. destruct (Z.ltb_spec (ParallelRequests (cfgLLM (cfg s))) 0).
    { split; [discriminate | eauto]. }
    destruct (Z.eqb_spec (ParallelRequests (cfgLLM (cfg s))) 0).
    { split; [discriminate | contradiction]. }
    split; [discriminate | eauto].
  - intros s repo err sha Hlen Htree. subst sha. unfold evaluateRepo.
    destruct (GetLatestCommitSHA _ _ _ _) as [sha e]. cbn [fst] in *.
    replace (Z.of_nat (String.length sha) <? 7) with false
      by (symmetry; apply Z.ltb_ge; lia).
    now rewrite Htree.
Qed.

Lemma evaluateRepo_short_sha_panics_witness :
  evaluateRepo (H := asciiStd) unresolvedRefService scenarioRepo =
    Panics "slice bounds out of range" /\
  exists msg, Submit (H := asciiStd) unresolvedRefService "u" = Panic msg.
Proof.
  pose proof (evaluateRepo_short_sha_panics (H := asciiStd)) as (Hrepo & Hsubmit & _).
  split.
  - apply (Hrepo unresolvedRefService scenarioRepo). simpl. lia.
  - apply (Hsubmit unresolvedRefService "u" [scenarioRepo] scenarioRepo).
    + reflexivity.
    + now left.
    + simpl. lia.
    + discriminate.
Defined.

(** The run of the failing input, evaluated. *)
Example Submit_unresolved_ref :
  Submit (H := asciiStd) unresolvedRefService "u" = Panic "slice bounds out of range".
Proof. reflexivity. Qed.

(** The same run when the branch resolves: a report is produced. *)
Example Submit_resolved_ref :
  Submit (H := asciiStd) (resolvedRefService []) "u" = Done (Ok "<!doctype html>").
Proof. vm_compute. reflexivity. Qed.

(** ** Part III: further properties of the package *)

(** *** Strings *)

Lemma HasPrefix_cons (l : string) (a : ascii) (x : string) :
  HasPrefix l (String a x) = true -> exists l', l = String a l'.
Proof.
  unfold HasPrefix. destruct l as [|b l']; simpl; [discriminate|].
  destruct (ascii_dec a b) as [->|]; [eauto | discriminate].
Qed.

Lemma substring_length (n m : nat) (s : string) :
  (n + m <= String.length s)%nat -> String.length (substring n m s) = m.
Proof.
  revert n m. induction s as [|c s IH]; intros [|n] [|m] Hlen; simpl in *;
    try reflexivity; try lia.
  - f_equal. apply (IH 0%nat m). lia.
  - apply (IH n 0%nat). lia.
  - apply (IH n (S m)). lia.
Qed.

Lemma substring_all (s : string) : substring 0 (String.length s) s = s.
Proof. induction s as [|c s IH]; simpl; [reflexivity | now rewrite IH]. Qed.

Lemma append_cons (c : ascii) (s t : string) :
  (String c s ++ t)%string = String c (s ++ t)%string.
Proof. reflexivity. Qed.

Lemma append_nil (t : string) : (EmptyString ++ t)%string = t.
Proof. reflexivity. Qed.

Lemma substring_app_skip (pre s : string) (k m : nat) :
  substring (String.length pre + k) m (pre ++ s)%string = substring k m s.
Proof.
  induction pre as [|c pre IH]; [reflexivity|].
  rewrite append_cons. simpl. exact IH.
Qed.

Lemma length_app_string (s t : string) :
  String.length (s ++ t)%string = (String.length s + String.length t)%nat.
Proof.
  induction s as [|c s IH]; [reflexivity|].
  rewrite append_cons. simpl. now rewrite IH.
Qed.

Lemma string_split (k : nat) (s : string) :
  (k <= String.length s)%nat ->
  s = (substring 0 k s ++ substring k (String.length s - k) s)%string.
Proof.
  revert k. induction s as [|c s IH]; intros [|k] Hk; simpl in *; try lia.
  - reflexivity.
  - rewrite append_nil. now rewrite substring_all.
  - rewrite append_cons. f_equal. apply IH. lia.
Qed.

(** [HasSuffix] holds exactly of the strings that end with the suffix. *)
Lemma HasSuffix_iff (s suffix : string) :
  HasSuffix s suffix = true <-> exists pre, s = (pre ++ suffix)%string.
Proof.
  unfold HasSuffix. split.
  - intros H. apply andb_true_iff in H as [Hlen Heq].
    apply Nat.leb_le in Hlen. apply String.eqb_eq in Heq.
    exists (substring 0 (String.length s - String.length suffix) s).
    rewrite (string_split (String.length s - String.length suffix) s) at 1 by lia.
    f_equal. rewrite <- Heq at 3. f_equal. lia.
  - intros [pre ->]. rewrite length_app_string.
    apply andb_true_iff. split; [apply Nat.leb_le; lia|].
    replace (String.length pre + String.length suffix - String.length suffix)%nat
      with (String.length pre + 0)%nat by lia.
    rewrite substring_app_skip, substring_all. apply String.eqb_refl.
Qed.

(** Whether a string ends with [x] is decided by any of its suffixes that is
    at least as long as [x]. *)
Lemma HasSuffix_app (pre s x : string) :
  (String.length x <= String.length s)%nat ->
  HasSuffix (pre ++ s) x = HasSuffix s x.
Proof.
  intros Hlen. unfold HasSuffix. rewrite length_app_string.
  replace (String.length x <=? String.length pre + String.length s)%nat with true
    by (symmetry; apply Nat.leb_le; lia).
  replace (String.length x <=? String.length s)%nat with true
    by (symmetry; apply Nat.leb_le; lia).
  replace (String.length pre + String.length s - String.length x)%nat
    with (String.length pre + (String.length s - String.length x))%nat by lia.
  now rewrite substring_app_skip.
Qed.

(** *** File selection, continued *)

(** A path under cmd/ is not under internal/, pkg/, src/ or lib/: the two
    directory bonuses of [scorePath] never add up. *)
Lemma cmd_prefix_exclusive (l : string) :
  HasPrefix l "cmd/" = true ->
  HasPrefix l "internal/" || HasPrefix l "pkg/" || HasPrefix l "src/"
  || HasPrefix l "lib/" = false.
Proof. intros H. apply HasPrefix_cons in H as [l' ->]. reflexivity. Qed.

(** X1.  Every score lies between 0 and 80, and a path scores 0 exactly when
    its lower-cased form contains an excluded directory segment, or ends in a
    binary-asset extension without being under gen/ or docs/ or containing
    "example": these are the only paths that [pickPaths] can never select. *)
Theorem scorePath_range `{GoStd} (p : string) :
  0 <= scorePath p <= 80 /\
  (scorePath p = 0 <->
   containsExcludedDir (ToLower p) = true \/
   (isGeneratedOrDocs (ToLower p) = false /\ hasBinaryExt (ToLower p) = true)).
Proof.
  rewrite containsExcludedDir_unfold, hasBinaryExt_unfold.
  unfold isGeneratedOrDocs, scorePath.
  set (l := ToLower p).
  destruct (Contains l "/vendor/" || _ || _ || _ || _); [split; [lia | tauto]|].
  destruct (HasPrefix l "gen/" || _ || _).
  { split; [lia|]. split; [discriminate | intros [[=]|[[=] _]]]. }
  destruct (HasSuffix l ".png" || _ || _ || _ || _); [split; [lia | tauto]|].
  assert (Hpos : forall z : Z, 5 <= z <= 80 ->
            0 <= z <= 80 /\ (z = 0 <-> false = true \/ false = false /\ false = true)).
  { intros z Hz. split; [lia|]. split; [lia | intros [[=]|[_ [=]]]]. }
  destruct (HasSuffix l ".lock" || HasSuffix l "go.sum").
  { split; [lia|]. split; [discriminate | intros [[=]|[_ [=]]]]. }
  apply Hpos.
  destruct (HasPrefix l "cmd/") eqn:Ecmd.
  - rewrite (cmd_prefix_exclusive l Ecmd).
    repeat match goal with |- context [if ?c then _ else _] => destruct c end; lia.
  - repeat match goal with |- context [if ?c then _ else _] => destruct c end; lia.
Qed.

Lemma scoreEntries_paths `{GoStd} (entries : list string) :
  map spPath (scoreEntries entries) =
  List.filter (fun p => 0 <? scorePath p) entries.
Proof.
  unfold scoreEntries. induction entries as [|p entries IH]; [reflexivity|].
  cbn [flat_map List.filter]. rewrite map_app, IH.
  now destruct (0 <? scorePath p).
Qed.

Lemma StronglySorted_app_inv {A} (R : A -> A -> Prop) (l1 l2 : list A) :
  StronglySorted R (l1 ++ l2) ->
  forall a b, In a l1 -> In b l2 -> R a b.
Proof.
  induction l1 as [|x l1 IH]; intros Hs a b Ha Hb; [destruct Ha|].
  simpl in Hs. apply StronglySorted_inv in Hs as [Hs Hall].
  destruct Ha as [->|Ha]; [|now apply IH].
  apply (proj1 (List.Forall_forall _ _) Hall). apply in_or_app. now right.
Qed.

(** X2.  [pickPaths] selects from the top: the selected paths and the paths
    left out are together the entries with a positive score, no path left
    out scores more than a selected one, and nothing is left out when the
    configured count covers all of them. *)
Theorem pickPaths_takes_top `{G : GoStd} {HG : GoStdSpec G}
    (entries : list string) (cfg : Config) :
  exists rest : list string,
    Permutation (List.filter (fun p => 0 <? scorePath p) entries)
                (pickPaths entries cfg ++ rest) /\
    Forall (fun q => Forall (fun p => scorePath q <= scorePath p) (pickPaths entries cfg))
      rest /\
    (len (List.filter (fun p => 0 <? scorePath p) entries) <= ChunksPerRepo (cfgApp cfg) ->
     rest = []).
Proof.
  rewrite pickPaths_firstn, <- scoreEntries_paths.
  set (cmp := fun a b => spScore b - spScore a).
  set (k := Z.to_nat (Z.max 1 (ChunksPerRepo (cfgApp cfg)))).
  set (sorted := SortFunc cmp (scoreEntries entries)).
  assert (Hperm : Permutation sorted (scoreEntries entries)) by apply SortFunc_perm.
  assert (Hsorted : StronglySorted (fun a b => ~ cmp b a < 0) sorted)
    by apply SortFunc_sorted, StrictWeakOn_key_desc.
  assert (Hown : forall sp, In sp sorted -> spScore sp = scorePath (spPath sp)).
  { intros sp Hsp. apply (Permutation_in _ Hperm), scoreEntries_In in Hsp. tauto. }
  exists (map spPath (skipn k sorted)). split; [|split].
  - rewrite <- map_app, firstn_skipn. now rewrite Hperm.
  - rewrite <- (firstn_skipn k sorted) in Hsorted.
    apply List.Forall_forall. intros q Hq. apply List.Forall_forall. intros p Hp.
    apply in_map_iff in Hq as (sq & <- & Hq). apply in_map_iff in Hp as (sp & <- & Hp).
    pose proof (StronglySorted_app_inv _ _ _ Hsorted sp sq Hp Hq) as Hle.
    rewrite <- (Hown sp), <- (Hown sq).
    + unfold cmp in Hle. lia.
    + rewrite <- (firstn_skipn k sorted). apply in_or_app. now right.
    + now apply firstn_In in Hp.
  - intros Hall. rewrite skipn_all2; [reflexivity|].
    unfold len in Hall. rewrite length_map in Hall.
    rewrite (Permutation_length Hperm). subst k. lia.
Qed.

Lemma pickPaths_takes_top_witness :
  exists rest : list string,
    Permutation
      (List.filter (fun p => 0 <? scorePath (H := asciiStd) p)
         ["docs/a.md"; "cmd/main.go"; "logo.png"])
      (pickPaths (H := asciiStd) ["docs/a.md"; "cmd/main.go"; "logo.png"]
         (configWithChunks 5) ++ rest) /\
    rest = [].
Proof.
  destruct (pickPaths_takes_top (HG := asciiStdSpec)
              ["docs/a.md"; "cmd/main.go"; "logo.png"] (configWithChunks 5))
    as (rest & Hperm & _ & Hall).
  exists rest. split; [exact Hperm|]. apply Hall. vm_compute. discriminate.
Defined.

(** *** Sampling the selected files *)

Lemma sampleChunksFrom_spec `{GoStd} (s : service) (repo : RepoTarget) (sha : string)
    (files : list string) (acc chunks : list FileChunk) :
  sampleChunksFrom s repo sha files acc = Returns chunks ->
  exists new,
    chunks = acc ++ new /\ sublist (map Path new) files /\
    Forall (wellFormedChunk s) new /\
    len chunks <= Z.max (len acc) (ChunksPerRepo (cfgApp (cfg s))).
Proof.
  revert acc. induction files as [|fp files IH]; intros acc; cbn [sampleChunksFrom].
  - intros [= <-]. exists []. rewrite app_nil_r.
    repeat split; [constructor | constructor | lia].
  - unfold sampleChunk.
    destruct (ChunksPerRepo (cfgApp (cfg s)) <=? len acc) eqn:Efull.
    { cbn [bindOutcome]. intros [= <-]. exists []. rewrite app_nil_r.
      repeat split; [apply sublist_nil_l | constructor | lia]. }
    apply Z.leb_gt in Efull.
    assert (Hskip : sampleChunksFrom s repo sha files acc = Returns chunks ->
              exists new, chunks = acc ++ new /\ sublist (map Path new) (fp :: files) /\
                Forall (wellFormedChunk s) new /\
                len chunks <= Z.max (len acc) (ChunksPerRepo (cfgApp (cfg s)))).
    { intros Hrest. apply IH in Hrest as (new & -> & Hsub & Hwf & Hlen).
      exists new. repeat split; try assumption. now apply sublist_cons. }
    destruct (ReadFile _ _ _ _ _ _) as [data|e]; [|exact Hskip].
    destruct (Z.of_nat (String.length data) =? 0); [exact Hskip|].
    set (maxBytes := MaxChunkBytes (cfgApp (cfg s))).
    assert (Hadd : forall data',
              Z.of_nat (String.length data') <= maxBytes ->
              sampleChunksFrom s repo sha files
                (acc ++ [ {| Path := fp; StartLine := 1;
                             EndLine := 1 + countNewlines data';
                             Content := data'; fcLanguage := guessLang fp |} ])
              = Returns chunks ->
              exists new, chunks = acc ++ new /\ sublist (map Path new) (fp :: files) /\
                Forall (wellFormedChunk s) new /\
                len chunks <= Z.max (len acc) (ChunksPerRepo (cfgApp (cfg s)))).
    { intros data' Hdata Hrest. apply IH in Hrest as (new & -> & Hsub & Hwf & Hlen).
      eexists (_ :: new). rewrite <- app_assoc. split; [reflexivity|].
      split; [now apply sublist_skip|]. split.
      - constructor; [|exact Hwf]. repeat split. exact Hdata.
      - unfold len in *. rewrite !length_app in *. simpl in *. lia. }
    destruct (maxBytes <? Z.of_nat (String.length data)) eqn:Ecut.
    + apply Z.ltb_lt in Ecut. destruct (maxBytes <? 0) eqn:Eneg; [discriminate|].
      apply Z.ltb_ge in Eneg. cbn [bindOutcome]. apply Hadd.
      rewrite substring_length; lia.
    + apply Z.ltb_ge in Ecut. cbn [bindOutcome]. now apply Hadd.
Qed.

Lemma sampleChunksFrom_returns `{GoStd} (s : service) (repo : RepoTarget) (sha : string)
    (files : list string) (acc : list FileChunk) :
  0 <= MaxChunkBytes (cfgApp (cfg s)) ->
  exists chunks, sampleChunksFrom s repo sha files acc = Returns chunks.
Proof.
  intros Hmax. revert acc.
  induction files as [|fp files IH]; intros acc; cbn [sampleChunksFrom]; [eauto|].
  unfold sampleChunk.
  destruct (_ <=? len acc); cbn [bindOutcome]; [eauto|].
  destruct (ReadFile _ _ _ _ _ _) as [data|e]; cbn [bindOutcome]; [|apply IH].
  destruct (_ =? 0); cbn [bindOutcome]; [apply IH|].
  destruct (_ <? Z.of_nat _); cbn [bindOutcome]; [|apply IH].
  replace (MaxChunkBytes (cfgApp (cfg s)) <? 0) with false
    by (symmetry; apply Z.ltb_ge; lia).
  cbn [bindOutcome]. apply IH.
Qed.

(** X3.  [sampleChunks] returns whenever [MaxChunkBytes] is not negative.
    What it returns holds at most [ChunksPerRepo] chunks, their paths are
    taken from the files in order (each file at most once), and every chunk
    starts at line 1, ends at one plus its number of newlines, holds at most
    [MaxChunkBytes] bytes and has the language of its path. *)
Theorem sampleChunks_bounds `{GoStd} (s : service) (repo : RepoTarget)
    (files : list string) (sha : string) :
  (0 <= MaxChunkBytes (cfgApp (cfg s)) ->
   exists chunks, sampleChunks s repo files sha = Returns chunks) /\
  (forall chunks,
     sampleChunks s repo files sha = Returns chunks ->
     len chunks <= Z.max 0 (ChunksPerRepo (cfgApp (cfg s))) /\
     sublist (map Path chunks) files /\
     Forall (wellFormedChunk s) chunks).
Proof.
  unfold sampleChunks. split; [apply sampleChunksFrom_returns|].
  intros chunks Hret. apply sampleChunksFrom_spec in Hret as (new & -> & Hsub & Hwf & Hlen).
  cbn [app] in *. auto.
Qed.

Lemma sampleChunks_bounds_witness :
  (exists chunks,
     sampleChunks (H := asciiStd) (resolvedRefService []) scenarioRepo
       ["main.go"; "cmd/main.go"; "README.md"] "3f2a9c1d5e" = Returns chunks) /\
  len [ {| Path := "main.go"; StartLine := 1; EndLine := 1; Content := "";
           fcLanguage := "Go" |};
        {| Path := "cmd/main.go"; StartLine := 1; EndLine := 1; Content := "";
           fcLanguage := "Go" |} ] <= Z.max 0 2.
Proof.
  pose proof (sampleChunks_bounds (H := asciiStd) (resolvedRefService []) scenarioRepo
                ["main.go"; "cmd/main.go"; "README.md"] "3f2a9c1d5e") as [Hret Hbounds].
  split.
  - apply Hret. vm_compute. discriminate.
  - apply (Hbounds _ eq_refl).
Defined.

(** *** The result of one repository *)

Lemma len_app_one {A} (l : list A) (x : A) : len (l ++ [x]) = len l + 1.
Proof. unfold len. rewrite length_app. simpl. lia. Qed.

Lemma fold_classifyNote_capped `{GoStd} (notes ss rs : list string) :
  len ss <= 3 -> len rs <= 3 ->
  len (fst (fold_left classifyNote notes (ss, rs))) <= 3 /\
  len (snd (fold_left classifyNote notes (ss, rs))) <= 3.
Proof.
  revert ss rs. induction notes as [|n notes IH]; intros ss rs Hs Hr; [now split|].
  cbn [fold_left]. rewrite classifyNote_cases.
  destruct (hasPositive (ToLower n)).
  - destruct (len ss <? 3) eqn:E; apply IH; try assumption.
    apply Z.ltb_lt in E. rewrite len_app_one. lia.
  - destruct (hasNegative (ToLower n)); [|now apply IH].
    destruct (len rs <? 3) eqn:E; apply IH; try assumption.
    apply Z.ltb_lt in E. rewrite len_app_one. lia.
Qed.

Lemma forRange_tally_capped `{GoStd} (repo : RepoTarget) (chunks : list FileChunk)
    (scores : list ChunkScore) (i : nat) (st st' : tally) :
  capped st ->
  forRange (tallyScore repo chunks) scores i st = Returns st' -> capped st'.
Proof.
  revert i st. induction scores as [|sc scores IH]; intros i st Hcap; cbn [forRange].
  - now intros [= <-].
  - unfold tallyScore at 1. destruct (total sc =? 0); cbn [bindOutcome]; [now apply IH|].
    destruct (nth_error chunks i) as [ch|]; [|discriminate].
    destruct Hcap as (Hs & Hr & Hm).
    pose proof (fold_classifyNote_capped (Notes sc) _ _ Hs Hr) as [Hs' Hr'].
    destruct (fold_left classifyNote (Notes sc) (strengths st, risks st)) as [ss rs].
    cbn [bindOutcome]. apply IH. repeat split; cbn [strengths risks samples fst snd] in *;
      try assumption.
    destruct (len (samples st) <? 3) eqn:E; cbn [andb]; [|exact Hm].
    destruct (0 <? len (Citations sc)); [|exact Hm].
    apply Z.ltb_lt in E. rewrite len_app_one. lia.
Qed.

Lemma finalScore_bounds `{GoStd} (st : tally) : 0 <= finalScore st <= 100.
Proof.
  unfold finalScore. destruct (_ <? _)%float; [apply clamp_bounds; lia | lia].
Qed.

Lemma evaluateRepo_invariants `{GoStd} (s : service) (repo : RepoTarget)
    (res : RepoResult) (err : option error) :
  evaluateRepo s repo = Returns (res, err) ->
  Repo res = repo /\ 0 <= Score res <= 100 /\
  len (Strengths res) <= 3 /\ len (Risks res) <= 3 /\ len (Samples res) <= 3 /\
  0 <= Chunks res <= Files res /\
  (err <> None -> res = emptyResult repo).
Proof.
  assert (Hempty : forall e,
            Repo (emptyResult repo) = repo /\ 0 <= Score (emptyResult repo) <= 100 /\
            len (Strengths (emptyResult repo)) <= 3 /\ len (Risks (emptyResult repo)) <= 3 /\
            len (Samples (emptyResult repo)) <= 3 /\
            0 <= Chunks (emptyResult repo) <= Files (emptyResult repo) /\
            (e <> (None : option error) -> emptyResult repo = emptyResult repo)).
  { intros e. unfold emptyResult, len. cbn. repeat split; try lia; auto. }
  unfold evaluateRepo.
  destruct (GetLatestCommitSHA _ _ _ _) as [sha e].
  destruct (_ <? 7); [discriminate|].
  destruct (ListTree _ _ _ _ _) as [tree|e']; [|intros [= <- <-]; apply Hempty].
  destruct (sampleChunks _ _ _ _) as [chunks|msg] eqn:Hchunks; cbn [bindOutcome];
    [|discriminate].
  destruct (len chunks =? 0); [intros [= <- <-]; apply Hempty|].
  destruct (scoreChunks s repo chunks) as [scores e''].
  destruct (forRange _ scores 0%nat emptyTally) as [st|msg] eqn:Hloop;
    cbn [bindOutcome]; [|discriminate].
  intros [= <- <-]. cbn [Repo Score Strengths Risks Samples Chunks Files].
  assert (Hcap : capped st).
  { apply (forRange_tally_capped repo chunks scores 0 emptyTally st); [|exact Hloop].
    unfold capped, emptyTally, len. cbn. repeat split; lia. }
  destruct Hcap as (Hs & Hr & Hm).
  apply sampleChunksFrom_spec in Hchunks as (new & -> & Hsub & _).
  apply sublist_length in Hsub. rewrite length_map in Hsub. cbn [app].
  repeat split; try assumption; try apply finalScore_bounds;
    try (unfold len; lia). congruence.
Qed.

(** X4.  Whatever the GitHub side and the LLM answer, a result that
    [evaluateRepo] returns is the result of that repository, its score lies
    between 0 and 100, it holds at most three strengths, three risks and
    three samples, it counts no more chunks than selected files, and it is
    the empty result whenever an error comes with it. *)
Theorem evaluateRepo_result_bounds `{GoStd} (s : service) (repo : RepoTarget)
    (res : RepoResult) (err : option error) :
  evaluateRepo s repo = Returns (res, err) ->
  boundedResult repo res /\ (err <> None -> res = emptyResult repo).
Proof.
  intros Hret. apply evaluateRepo_invariants in Hret. unfold boundedResult. tauto.
Qed.

Lemma evaluateRepo_result_bounds_witness :
  0 <= 60 <= 100 /\ (1 <= 1)%Z.
Proof.
  pose proof (evaluateRepo_result_bounds (H := asciiStd)
                (resolvedRefService ["Idiomatic error handling despite shared globals"])
                scenarioRepo
                {| Repo := scenarioRepo; Score := 60;
                   Strengths := ["Idiomatic error handling despite shared globals"];
                   Risks := []; rrArchStrengths := []; rrArchConsiderations := [];
                   Samples := []; Files := 1; Chunks := 1 |} None) as Hb.
  destruct Hb as ((_ & Hscore & _ & _ & _ & Hchunks) & _).
  - vm_compute. reflexivity.
  - split; [exact Hscore | apply Hchunks].
Defined.

Lemma sampleChunks_no_budget `{GoStd} (s : service) (repo : RepoTarget)
    (files : list string) (sha : string) :
  ChunksPerRepo (cfgApp (cfg s)) <= 0 -> sampleChunks s repo files sha = Returns [].
Proof.
  intros Hbudget. unfold sampleChunks. destruct files as [|fp files]; [reflexivity|].
  cbn [sampleChunksFrom]. unfold sampleChunk.
  replace (ChunksPerRepo (cfgApp (cfg s)) <=? len []) with true; [reflexivity|].
  symmetry. apply Z.leb_le. unfold len. cbn. lia.
Qed.

(** X5.  With a chunk budget [ChunksPerRepo] of zero or less, no file is
    read and nothing is sent to the LLM for scoring: once the commit SHA has
    its seven bytes, [evaluateRepo] returns the empty result of the
    repository, with the error of [ListTree] if that failed and with none
    otherwise, whatever the tree holds. *)
Theorem evaluateRepo_no_budget `{GoStd} (s : service) (repo : RepoTarget) :
  ChunksPerRepo (cfgApp (cfg s)) <= 0 ->
  7 <= Z.of_nat (String.length
                   (fst (GetLatestCommitSHA (gh s) (Owner repo) (Name repo)
                           (DefaultBranch repo)))) ->
  evaluateRepo s repo =
  Returns (emptyResult repo,
           match ListTree (gh s) (Owner repo) (Name repo) (DefaultBranch repo)
                   (fst (GetLatestCommitSHA (gh s) (Owner repo) (Name repo)
                           (DefaultBranch repo))) with
           | Err err => Some err
           | Ok _ => None
           end).
Proof.
  intros Hbudget Hsha. unfold evaluateRepo.
  destruct (GetLatestCommitSHA _ _ _ _) as [sha e]. cbn [fst] in *.
  replace (Z.of_nat (String.length sha) <? 7) with false
    by (symmetry; apply Z.ltb_ge; exact Hsha).
  destruct (ListTree _ _ _ _ _) as [tree|err]; [|reflexivity].
  rewrite sampleChunks_no_budget by exact Hbudget. reflexivity.
Qed.

Lemma evaluateRepo_no_budget_witness :
  evaluateRepo (H := asciiStd)
    {| cfg := configWithChunks 0; gh := gh (resolvedRefService []);
       scoreChunks := scoreChunks (resolvedRefService []);
       archOf := archOf (resolvedRefService []);
       report := report (resolvedRefService []) |} scenarioRepo =
  Returns (emptyResult scenarioRepo, None).
Proof.
  apply (evaluateRepo_no_budget (H := asciiStd)
           {| cfg := configWithChunks 0; gh := gh (resolvedRefService []);
              scoreChunks := scoreChunks (resolvedRefService []);
              archOf := archOf (resolvedRefService []);
              report := report (resolvedRefService []) |} scenarioRepo).
  - vm_compute. discriminate.
  - vm_compute. discriminate.
Defined.

Lemma forRange_tally_panics `{GoStd} (repo : RepoTarget) (chunks : list FileChunk)
    (scores : list ChunkScore) (i : nat) (st : tally) :
  (exists msg, forRange (tallyScore repo chunks) scores i st = Panics msg) <->
  (exists (j : nat) (sc : ChunkScore),
     nth_error scores j = Some sc /\ total sc <> 0 /\ (List.length chunks <= i + j)%nat).
Proof.
  revert i st. induction scores as [|sc scores IH]; intros i st; cbn [forRange].
  - split; [intros [msg [=]] | intros (j & sc & Hj & _)]. now destruct j.
  - unfold tallyScore at 1. destruct (total sc =? 0) eqn:Ez; cbn [bindOutcome].
    + rewrite IH. apply Z.eqb_eq in Ez. split.
      * intros (j & sc' & Hj & Hnz & Hlen). exists (S j), sc'. cbn. repeat split; [assumption..|lia].
      * intros (j & sc' & Hj & Hnz & Hlen). destruct j as [|j]; cbn in Hj.
        -- injection Hj as <-. contradiction.
        -- exists j, sc'. repeat split; [assumption..|lia].
    + apply Z.eqb_neq in Ez. destruct (nth_error chunks i) as [ch|] eqn:E.
      * destruct (fold_left classifyNote _ _). cbn [bindOutcome]. rewrite IH.
        assert (i < List.length chunks)%nat by (apply nth_error_Some; congruence).
        split.
        -- intros (j & sc' & Hj & Hnz & Hlen). exists (S j), sc'.
           cbn. repeat split; [assumption..|lia].
        -- intros (j & sc' & Hj & Hnz & Hlen). destruct j as [|j]; cbn in Hj; [lia|].
           exists j, sc'. repeat split; [assumption..|lia].
      * cbn [bindOutcome]. apply nth_error_None in E. split; [|eauto].
        intros _. exists 0%nat, sc. cbn. repeat split; [assumption|lia].
Qed.

(** X6.  The scoring loop of [evaluateRepo] indexes the chunks by the
    position of each score.  It panics exactly when the LLM client left a
    score whose six marks do not add up to zero at a position where there is
    no chunk; scores that add up to zero are skipped before the chunk is
    read, wherever they stand. *)
Theorem scoring_loop_panics_iff `{GoStd} (repo : RepoTarget) (chunks : list FileChunk)
    (scores : list ChunkScore) :
  (exists msg, forRange (tallyScore repo chunks) scores 0 emptyTally = Panics msg) <->
  (exists (j : nat) (sc : ChunkScore),
     nth_error scores j = Some sc /\ total sc <> 0 /\ (List.length chunks <= j)%nat).
Proof. apply forRange_tally_panics. Qed.

(** *** The report of [Submit] *)

Lemma evaluateAll_results `{GoStd} (s : service) (repos : list RepoTarget)
    (results : list RepoResult) :
  evaluateAll s repos = Returns results ->
  Forall2 (fun repo res => exists err, evaluateRepo s repo = Returns (res, err))
    repos results.
Proof.
  revert results. induction repos as [|repo repos IH]; intros results; cbn [evaluateAll].
  - intros [= <-]. constructor.
  - destruct (evaluateRepo s repo) as [[res err]|msg] eqn:Hres; cbn [bindOutcome];
      [|discriminate].
    destruct (evaluateAll s repos) as [rest|msg]; cbn [bindOutcome]; [|discriminate].
    cbn [fst]. intros [= <-]. constructor; [exists err; exact Hres | now apply IH].
Qed.

Lemma evaluateAll_bounded `{GoStd} (s : service) (repos : list RepoTarget)
    (results : list RepoResult) :
  evaluateAll s repos = Returns results ->
  map Repo results = repos /\ Forall (fun res => boundedResult (Repo res) res) results.
Proof.
  intros Hall. apply evaluateAll_results in Hall.
  induction Hall as [|repo res repos results [err Hres] _ [IHrepos IHall]].
  - split; constructor.
  - apply evaluateRepo_invariants in Hres.
    assert (Hrepo : Repo res = repo) by tauto.
    split; [cbn; congruence|]. constructor; [|exact IHall].
    rewrite Hrepo. unfold boundedResult. tauto.
Qed.

Lemma StronglySorted_weaken {A} (R R' : A -> A -> Prop) (l : list A) :
  (forall a b, R a b -> R' a b) -> StronglySorted R l -> StronglySorted R' l.
Proof.
  intros Himp Hs. induction Hs as [|a l Hs IH Hall]; constructor; [exact IH|].
  eapply List.Forall_impl; [|exact Hall]. intros b. apply Himp.
Qed.

(** X7.  [Submit] fails only when discovery fails or finds no repository;
    the errors of the single repositories are dropped.  When it returns a
    report, the report is rendered over one result for each discovered
    repository, each within the bounds of [evaluateRepo], in an order in
    which no result is followed by one with a higher score. *)
Theorem Submit_report `{G : GoStd} {HG : GoStdSpec G} (s : service) (user : string)
    (r : result string) :
  Submit s user = Done r ->
  match ghDiscoverUserRepos (gh s) user (optionsOf (cfg s)) with
  | Err err => r = Err err
  | Ok [] => r = Err ("no repositories for @" ++ user)%string
  | Ok repos =>
      exists results : list RepoResult,
        r = Ok (report s user results) /\
        Permutation (map Repo results) repos /\
        Forall (fun res => boundedResult (Repo res) res) results /\
        StronglySorted (fun a b => Score b <= Score a) results
  end.
Proof.
  unfold Submit. destruct (ghDiscoverUserRepos _ _ _) as [repos|err]; [|now intros [= <-]].
  destruct repos as [|repo repos]; [now intros [= <-]|].
  replace (len (repo :: repos) =? 0) with false
    by (symmetry; apply Z.eqb_neq; unfold len; cbn [List.length]; lia).
  cbv zeta. destruct (_ <? 0); [discriminate|]. destruct (_ =? 0); [discriminate|].
  destruct (evaluateAll s (repo :: repos)) as [results|msg] eqn:Hall; [|discriminate].
  intros [= <-]. apply evaluateAll_bounded in Hall as [Hrepos Hbounded].
  set (cmp := fun a b : RepoResult => Score b - Score a).
  assert (Hperm : Permutation (SortFunc cmp results) results) by apply SortFunc_perm.
  exists (SortFunc cmp results). repeat split.
  - rewrite <- Hrepos. now apply Permutation_map.
  - apply List.Forall_forall. intros res Hres.
    apply (Permutation_in _ Hperm) in Hres.
    exact (proj1 (List.Forall_forall _ _) Hbounded res Hres).
  - eapply StronglySorted_weaken; [|apply (SortFunc_sorted _ cmp), StrictWeakOn_key_desc].
    intros a b Hab. unfold cmp in Hab. cbv beta in Hab. lia.
Qed.

Lemma Submit_report_witness :
  exists results : list RepoResult,
    Permutation (map Repo results) [scenarioRepo] /\
    StronglySorted (fun a b => Score b <= Score a) results.
Proof.
  assert (Hrun : Submit (H := asciiStd) (resolvedRefService []) "u" =
                 Done (Ok "<!doctype html>")) by (vm_compute; reflexivity).
  pose proof (Submit_report (G := asciiStd) (HG := asciiStdSpec)
                (resolvedRefService []) "u" (Ok "<!doctype html>") Hrun) as Hreport.
  cbn [resolvedRefService gh ghDiscoverUserRepos] in Hreport.
  destruct Hreport as (results & _ & Hperm & _ & Hsorted).
  exists results. split; assumption.
Defined.

(** *** Repository discovery: the limit and the two switches *)

Lemma Permutation_nil_l {A} (l : list A) : Permutation l [] -> l = [].
Proof. intros Hp. apply Permutation_sym in Hp. now apply Permutation_nil in Hp. Qed.

(** X8.  A positive [Limit] bounds the number of targets, whatever the reply
    holds (duplicated names included); a limit of zero or less bounds
    nothing.  With both [IncludePinned] and [IncludeNonPinned] off, no
    repository is a target. *)
Theorem discoverTargets_limit `{G : GoStd} {HG : GoStdSpec G}
    (opt : discoverOptions) (q : userRepoQuery) :
  (0 < Limit opt -> len (discoverTargets opt q) <= Limit opt) /\
  (optIncludePinned opt = false -> optIncludeNonPinned opt = false ->
   discoverTargets opt q = []).
Proof.
  split.
  - intros Hpos. unfold discoverTargets.
    destruct (if optIncludePinned opt then _ else _) as [repoMap pinnedOrder].
    destruct (fold_left movePinned pinnedOrder _) as [targets repoMap'].
    destruct (0 <? Limit opt) eqn:E1; [|apply Z.ltb_ge in E1; lia]. cbn [andb].
    destruct (Limit opt <? len _) eqn:E2.
    + unfold len. rewrite length_firstn. lia.
    + now apply Z.ltb_ge in E2.
  - intros Hp Hn. unfold discoverTargets. rewrite Hp, Hn. cbn [fold_left].
    assert (Hrange : mapRange (∅ : gmap string RepoTarget) = []).
    { apply Permutation_nil_l. rewrite mapRange_perm. now rewrite map_to_list_empty. }
    rewrite Hrange. cbn [map].
    assert (Hsort : SortFunc (fun a b => wrap64 (Stars b - Stars a)) [] = []).
    { apply Permutation_nil_l, SortFunc_perm. }
    rewrite Hsort. cbn [app]. unfold len. cbn [List.length].
    destruct ((0 <? Limit opt) && (Limit opt <? Z.of_nat 0)); [apply firstn_nil | reflexivity].
Qed.

Lemma discoverTargets_limit_witness :
  len (discoverTargets (H := asciiStd) scenarioOptions scenarioQuery) <= 2 /\
  discoverTargets (H := asciiStd)
    {| Limit := 2; optIncludePinned := false; optIncludeNonPinned := false;
       optExcludeForks := false |} scenarioQuery = [].
Proof.
  split.
  - apply (discoverTargets_limit (G := asciiStd) (HG := asciiStdSpec)
             scenarioOptions scenarioQuery). reflexivity.
  - apply (discoverTargets_limit (G := asciiStd) (HG := asciiStdSpec)
             {| Limit := 2; optIncludePinned := false; optIncludeNonPinned := false;
                optExcludeForks := false |} scenarioQuery); reflexivity.
Defined.

(** *** The JSON object inside a reply: [extractJSON] *)

Lemma get_Some_lt (k : nat) (s : string) (c : ascii) :
  String.get k s = Some c -> (k < String.length s)%nat.
Proof.
  revert k. induction s as [|d s IH]; intros [|k]; simpl; try discriminate; [lia|].
  intros Hget. apply IH in Hget. lia.
Qed.

Lemma indexByte_head (s : string) (c : ascii) :
  String.get 0 s = Some c -> indexByte s c = Some 0%nat.
Proof.
  destruct s as [|d s]; simpl; [discriminate|]. intros [= ->].
  now rewrite Ascii.eqb_refl.
Qed.

Lemma lastIndexByte_max (s : string) (c : ascii) (j : nat) :
  String.get j s = Some c -> (forall k, (j < k)%nat -> String.get k s <> Some c) ->
  lastIndexByte s c = Some j.
Proof.
  revert j. induction s as [|d s IH]; intros [|j]; cbn [String.get lastIndexByte];
    try discriminate.
  - intros [= ->] Hmax. destruct (lastIndexByte s c) as [i|] eqn:E.
    + apply lastIndexByte_Some in E as [Hget _].
      destruct (Hmax (S i) ltac:(lia)). exact Hget.
    + now rewrite Ascii.eqb_refl.
  - intros Hget Hmax. rewrite (IH j Hget); [reflexivity|].
    intros k Hk. apply (Hmax (S k)). lia.
Qed.

Lemma lastIndexByte_last (s : string) (c : ascii) :
  String.get (String.length s - 1) s = Some c ->
  lastIndexByte s c = Some (String.length s - 1)%nat.
Proof.
  intros Hget. apply lastIndexByte_max; [exact Hget|].
  intros k Hk Hk'. apply get_Some_lt in Hk'. lia.
Qed.

Lemma extractJSON_braces (s js : string) :
  extractJSON s = Ok js ->
  (2 <= String.length js)%nat /\
  String.get 0 js = Some "{"%char /\
  String.get (String.length js - 1) js = Some "}"%char.
Proof.
  intros Hjs. pose proof (extractJSON_spec s) as Hspec. rewrite Hjs in Hspec.
  destruct Hspec as (i & j & [Hi _] & [Hj _] & Hij & ->).
  pose proof (get_Some_lt _ _ _ Hj) as Hlen.
  rewrite substring_length by lia. repeat split; [lia|..].
  - rewrite substring_correct1 by lia. exact Hi.
  - rewrite substring_correct1 by lia.
    now replace (j - i + 1 - 1 + i)%nat with j by lia.
Qed.

(** X9.  What [extractJSON] returns has at least two bytes, begins with an
    opening brace and ends with a closing brace, and [extractJSON] leaves it
    as it is: extracting twice is extracting once. *)
Theorem extractJSON_idempotent (s js : string) :
  extractJSON s = Ok js ->
  2 <= Z.of_nat (String.length js) /\
  HasPrefix js "{" = true /\ HasSuffix js "}" = true /\
  extractJSON js = Ok js.
Proof.
  intros Hjs. destruct (extractJSON_braces s js Hjs) as (Hlen & Hfirst & Hlast).
  repeat split.
  - lia.
  - unfold HasPrefix. destruct js as [|c js]; [discriminate|].
    injection Hfirst as ->. cbn. destruct (ascii_dec "{" "{"); [|congruence].
    now destruct js.
  - apply HasSuffix_iff. exists (substring 0 (String.length js - 1) js).
    rewrite (string_split (String.length js - 1) js) at 1 by lia. f_equal.
    replace (String.length js - (String.length js - 1))%nat with 1%nat by lia.
    pose proof (substring_correct1 js (String.length js - 1) 1 0) as Hget.
    pose proof (substring_length (String.length js - 1) 1 js) as Hone.
    destruct (substring (String.length js - 1) 1 js) as [|c [|d t]];
      cbn in Hone; try lia.
    cbn in Hget. rewrite Hlast in Hget. specialize (Hget ltac:(lia)). congruence.
  - unfold extractJSON, IndexByte, LastIndexByte.
    rewrite (indexByte_head _ _ Hfirst), (lastIndexByte_last _ _ Hlast).
    replace (Z.of_nat 0 =? -1) with false by reflexivity.
    replace (Z.of_nat (String.length js - 1) =? -1) with false
      by (symmetry; apply Z.eqb_neq; lia).
    replace (Z.of_nat (String.length js - 1) <=? Z.of_nat 0) with false
      by (symmetry; apply Z.leb_gt; lia).
    cbn [orb]. f_equal.
    replace (Z.to_nat (Z.of_nat (String.length js - 1) + 1 - Z.of_nat 0))
      with (String.length js) by lia.
    apply substring_all.
Qed.

Lemma extractJSON_idempotent_witness :
  extractJSON "{score: 7}" = Ok "{score: 7}".
Proof.
  apply (extractJSON_idempotent "Result: {score: 7}. Done" "{score: 7}").
  vm_compute. reflexivity.
Defined.

(** *** The defaults of the configuration *)

(** X10.  A configuration that [LoadConfig] returns has positive
    [ParallelRequests] and [RequestsPerMinute]; its GitHub token is the one
    of the file when that is not empty and the one of the environment
    otherwise; and it is a fixed point: decoding to it again changes
    nothing. *)
Theorem LoadConfig_defaults (file : result string)
    (yamlUnmarshal : string -> result Config) (getenv : string -> string) (c' : Config) :
  LoadConfig file yamlUnmarshal getenv = Ok c' ->
  0 < ParallelRequests (cfgLLM c') /\ 0 < RequestsPerMinute (cfgLLM c') /\
  (exists b c,
     file = Ok b /\ yamlUnmarshal b = Ok c /\
     GithubToken (cfgAuth c') =
       if String.eqb (GithubToken (cfgAuth c)) "" then getenv "GITHUB_TOKEN"
       else GithubToken (cfgAuth c)) /\
  LoadConfig file (fun _ => Ok c') getenv = Ok c'.
Proof.
  unfold LoadConfig. destruct file as [b|]; [|discriminate].
  destruct (yamlUnmarshal b) as [c|] eqn:Hc; [|discriminate].
  intros [= <-]. cbn [cfgLLM cfgAuth cfgApp ParallelRequests RequestsPerMinute GithubToken
                      Provider Model APIKey Endpoint MaxTokens Temperature].
  split; [|split; [|split]].
  - destruct (ParallelRequests (cfgLLM c) <=? 0) eqn:E; [lia|]. apply Z.leb_gt in E. lia.
  - destruct (RequestsPerMinute (cfgLLM c) <=? 0) eqn:E; [lia|]. apply Z.leb_gt in E. lia.
  - exists b, c. auto.
  - f_equal. f_equal.
    + f_equal. destruct (String.eqb_spec (GithubToken (cfgAuth c)) "") as [He|Hne].
      * now destruct (String.eqb (getenv "GITHUB_TOKEN") "").
      * apply String.eqb_neq in Hne. now rewrite Hne.
    + f_equal.
      * destruct (RequestsPerMinute (cfgLLM c) <=? 0) eqn:E; [reflexivity|]. now rewrite E.
      * destruct (ParallelRequests (cfgLLM c) <=? 0) eqn:E; [reflexivity|]. now rewrite E.
Qed.

Lemma LoadConfig_defaults_witness :
  0 < ParallelRequests (cfgLLM (configWithChunks 0)) /\
  0 < RequestsPerMinute (cfgLLM (configWithChunks 0)).
Proof.
  pose proof (LoadConfig_defaults (Ok "") (fun _ => Ok zeroConfig) (fun _ => "")
                (configWithChunks 0) eq_refl) as (Hpar & Hrpm & _).
  split; assumption.
Defined.

(** *** The language label: [guessLang] *)

Lemma extScan_app (pre s e : string) :
  extScan s = Some e -> extScan (pre ++ s) = Some e.
Proof.
  intros He. induction pre as [|c pre IH]; [exact He|].
  rewrite append_cons. cbn [extScan]. now rewrite IH.
Qed.

Lemma extScan_suffix (l e : string) :
  extScan l = Some e -> exists pre, l = (pre ++ e)%string.
Proof.
  induction l as [|c l IH]; cbn [extScan]; [discriminate|].
  destruct (extScan l) as [e'|].
  - intros [= <-]. destruct (IH eq_refl) as [pre ->]. now exists (String c pre).
  - destruct (Ascii.eqb c "/").
    + intros [= <-]. exists (String c l). clear. induction (String c l) as [|d s IH].
      * reflexivity.
      * rewrite append_cons. now rewrite <- IH.
    + destruct (Ascii.eqb c "."); [|discriminate]. intros [= <-]. now exists "".
Qed.

(** A suffix that is a dot followed by neither a dot nor a separator is the
    suffix of a path exactly when it is its extension. *)
Lemma HasSuffix_ext (l w : string) :
  extScan w = None ->
  HasSuffix l (String "." w) = String.eqb (Ext l) (String "." w).
Proof.
  intros Hw. destruct (String.eqb_spec (Ext l) (String "." w)) as [He|Hne].
  - apply HasSuffix_iff. unfold Ext in He.
    destruct (extScan l) as [e|] eqn:E; cbn in He; [|discriminate]. subst e.
    now apply extScan_suffix.
  - destruct (HasSuffix l (String "." w)) eqn:Hs; [|reflexivity].
    apply HasSuffix_iff in Hs as [pre ->]. destruct Hne. unfold Ext.
    rewrite (extScan_app pre (String "." w) (String "." w)); [reflexivity|].
    cbn [extScan]. now rewrite Hw.
Qed.

(** X11.  The label of [guessLang] depends on the path only through the
    extension of its lower-cased form, so that the order of the cases is
    immaterial, and a path without an extension is labelled Unknown. *)
Theorem guessLang_by_extension `{GoStd} (p q : string) :
  (Ext (ToLower p) = Ext (ToLower q) -> guessLang p = guessLang q) /\
  (Ext (ToLower p) = "" -> guessLang p = "Unknown").
Proof.
  assert (Hext : forall p,
            guessLang p =
            let e := Ext (ToLower p) in
            if String.eqb e ".go" then "Go"
            else if String.eqb e ".ts" then "TypeScript"
            else if String.eqb e ".js" then "JavaScript"
            else if String.eqb e ".py" then "Python"
            else if String.eqb e ".rb" then "Ruby"
            else if String.eqb e ".java" then "Java"
            else if String.eqb e ".dart" then "Dart"
            else if String.eqb e ".clj" then "Clojure"
            else if String.eqb e ".cljs" then "ClojureScript"
            else if String.eqb e ".rkt" then "Racket"
            else if String.eqb e ".gleam" then "Gleam"
            else if String.eqb e ".ex" || String.eqb e ".exs" then "Elixir"
            else if String.eqb e ".md" || String.eqb e ".markdown" then "Markdown"
            else if String.eqb e ".cpp" || String.eqb e ".hpp" || String.eqb e ".cc"
                    || String.eqb e ".h" then "C++"
            else if String.eqb e ".cs" then "C#"
            else if String.eqb e ".swift" then "Swift"
            else if String.eqb e ".kt" || String.eqb e ".kts" then "Kotlin"
            else if String.eqb e ".rs" then "Rust"
            else if String.eqb e ".php" then "PHP"
            else if String.eqb e ".html" || String.eqb e ".htm" then "HTML"
            else if String.eqb e ".css" then "CSS"
            else if String.eqb e ".sh" then "Shell"
            else if String.eqb e ".yml" || String.eqb e ".yaml" then "YAML"
            else if String.eqb e ".json" then "JSON"
            else if String.eqb e ".toml" then "TOML"
            else "Unknown").
  { intros p'. unfold guessLang. cbv zeta.
    rewrite !HasSuffix_ext by reflexivity. reflexivity. }
  split.
  - intros Heq. rewrite (Hext p), (Hext q). cbv zeta. now rewrite Heq.
  - intros Hnone. rewrite (Hext p). cbv zeta. now rewrite Hnone.
Qed.

(** *** The kind of repository: [detectRepoType] *)

Lemma detectRepoTypeFrom_signs `{GoStd} (paths : list string) (apps pkgs : bool) (n : Z) :
  0 <= n ->
  detectRepoTypeFrom paths apps pkgs n =
  let lowered := map ToLower paths in
  if existsb hasMarkerFile lowered
     || ((apps || existsb (fun l => HasPrefix l "apps/") lowered)
         && (pkgs || existsb (fun l => HasPrefix l "packages/" || HasPrefix l "libs/")
                       lowered))
     || (2 <? n + len (List.filter isGoMod lowered))
  then "monorepo" else "standard".
Proof.
  revert apps pkgs n. induction paths as [|path paths IH]; intros apps pkgs n Hn.
  - cbn. rewrite !orb_false_r. unfold len. cbn. rewrite Z.add_0_r.
    now destruct (apps && pkgs).
  - cbn [detectRepoTypeFrom map existsb List.filter]. cbv zeta.
    fold (hasMarkerFile (ToLower path)). fold (isGoMod (ToLower path)).
    destruct (hasMarkerFile (ToLower path)); [reflexivity|].
    rewrite IH by (destruct (isGoMod (ToLower path)); lia). cbv zeta. cbn [orb].
    replace ((if isGoMod (ToLower path) then n + 1 else n)
             + len (List.filter isGoMod (map ToLower paths)))
      with (n + len (if isGoMod (ToLower path)
                     then ToLower path :: List.filter isGoMod (map ToLower paths)
                     else List.filter isGoMod (map ToLower paths))).
    2:{ destruct (isGoMod (ToLower path)); unfold len; cbn [List.length]; lia. }
    destruct (HasPrefix (ToLower path) "apps/"),
             (HasPrefix (ToLower path) "packages/" || HasPrefix (ToLower path) "libs/");
      cbn [orb]; rewrite ?orb_true_r; reflexivity.
Qed.

Lemma existsb_Permutation {A} (f : A -> bool) (l l' : list A) :
  Permutation l l' -> existsb f l = existsb f l'.
Proof.
  intros Hp. induction Hp as [|x l l' _ IH|x y l|l l' l'' _ IH1 _ IH2]; cbn.
  - reflexivity.
  - now rewrite IH.
  - now destruct (f x), (f y).
  - now rewrite IH1.
Qed.

Lemma filter_Permutation {A} (f : A -> bool) (l l' : list A) :
  Permutation l l' -> Permutation (List.filter f l) (List.filter f l').
Proof.
  intros Hp. induction Hp as [|x l l' _ IH|x y l|l l' l'' _ IH1 _ IH2]; cbn.
  - reflexivity.
  - destruct (f x); [now constructor | exact IH].
  - destruct (f x), (f y); try reflexivity. apply perm_swap.
  - now rewrite IH1.
Qed.

(** X12.  [detectRepoType] answers monorepo exactly when some path names a
    file [lerna.json], [turbo.json] or [nx.json], or one path lies under
    [apps/] and one under [packages/] or [libs/], or more than two paths
    name a file [go.mod] (all on the lower-cased paths), and standard
    otherwise; so the early return does not make the answer depend on the
    order of the tree. *)
Theorem detectRepoType_signs `{GoStd} (paths : list string) :
  detectRepoType paths = (if monorepoSigns paths then "monorepo" else "standard") /\
  (forall paths', Permutation paths paths' -> detectRepoType paths' = detectRepoType paths).
Proof.
  assert (Hsigns : forall l, detectRepoType l =
                     if monorepoSigns l then "monorepo" else "standard").
  { intros l. unfold detectRepoType. rewrite detectRepoTypeFrom_signs by lia.
    unfold monorepoSigns. cbv zeta. cbn [orb]. now rewrite Z.add_0_l. }
  split; [apply Hsigns|]. intros paths' Hp. rewrite !Hsigns.
  assert (Hl : Permutation (map ToLower paths) (map ToLower paths'))
    by now apply Permutation_map.
  unfold monorepoSigns. cbv zeta.
  rewrite !(existsb_Permutation _ _ _ Hl).
  unfold len. now rewrite (Permutation_length (filter_Permutation isGoMod _ _ Hl)).
Qed.

Example detectRepoType_examples :
  detectRepoType (H := asciiStd) ["go.mod"; "a/go.mod"; "main.go"] = "standard" /\
  detectRepoType (H := asciiStd) ["go.mod"; "a/go.mod"; "b/go.mod"] = "monorepo" /\
  detectRepoType (H := asciiStd) ["Apps/web/index.ts"; "libs/ui/button.ts"] = "monorepo" /\
  detectRepoType (H := asciiStd) ["web/Turbo.json"] = "monorepo" /\
  Base "a/b/" = "b" /\ Base "///" = "/" /\ Base "" = ".".
Proof. vm_compute. repeat split. Qed.

(** *** The OpenAI client: pacing and fan-out *)

Lemma dispatchDelay_div (rpm : Z) :
  dispatchDelay rpm = Z.max Second (Minute / Z.max 1 rpm).
Proof.
  unfold dispatchDelay, maxDelay, max. cbv zeta.
  assert (Hm : (if rpm <? 1 then 1 else rpm) = Z.max 1 rpm)
    by (destruct (Z.ltb_spec rpm 1); lia).
  rewrite Hm, Z.quot_div_nonneg by (unfold Minute, Second; lia).
  destruct (Z.ltb_spec Second (Minute / Z.max 1 rpm)); lia.
Qed.

(** X13.  The pause after each dispatch is never shorter than a second and
    never longer than a minute: a rate of 60 requests per minute or more is
    served as 60, a rate of one or less (zero and negative rates included) as
    one, and in between the pause is the whole number of nanoseconds of a
    minute divided by the rate.  A higher rate never gives a longer pause. *)
Theorem dispatchDelay_bounds (rpm : Z) :
  Second <= dispatchDelay rpm <= Minute /\
  (60 <= rpm -> dispatchDelay rpm = Second) /\
  (rpm <= 1 -> dispatchDelay rpm = Minute) /\
  (1 <= rpm <= 60 -> dispatchDelay rpm = Minute / rpm) /\
  (forall rpm', rpm <= rpm' -> dispatchDelay rpm' <= dispatchDelay rpm).
Proof.
  assert (Hdiv : forall m, 1 <= m -> 0 <= Minute / m <= Minute).
  { intros m Hm. split; [apply Z.div_pos; unfold Minute, Second; lia|].
    apply Z.div_le_upper_bound; [lia|]. unfold Minute, Second. nia. }
  assert (Hsmall : forall m, 60 <= m -> Minute / m <= Second).
  { intros m Hm. apply Z.div_le_upper_bound; [lia|]. unfold Minute, Second. nia. }
  assert (Hbig : forall m, 1 <= m <= 60 -> Second <= Minute / m).
  { intros m Hm. apply Z.div_le_lower_bound; [lia|]. unfold Minute, Second. nia. }
  rewrite dispatchDelay_div. split; [|split; [|split; [|split]]].
  - pose proof (Hdiv (Z.max 1 rpm) ltac:(lia)). unfold Minute, Second in *. lia.
  - intros Hrpm. pose proof (Hsmall (Z.max 1 rpm) ltac:(lia)). lia.
  - intros Hrpm. replace (Z.max 1 rpm) with 1 by lia. rewrite Z.div_1_r.
    unfold Minute, Second. lia.
  - intros Hrpm. replace (Z.max 1 rpm) with rpm by lia.
    pose proof (Hbig rpm Hrpm). lia.
  - intros rpm' Hle. rewrite dispatchDelay_div.
    assert (Minute / Z.max 1 rpm' <= Minute / Z.max 1 rpm).
    { apply Z.div_le_compat_l; [unfold Minute, Second; lia | lia]. }
    lia.
Qed.

Lemma evalChunksFrom_nth {E} `{JSON E} (c : openAIClient) (input : EvalInput) (zero : E)
    (k : nat) (chunks : list Chunk) (i : nat) :
  nth_error (evalChunksFrom c input zero k chunks) i =
  option_map (evalChunk c input zero (k + i)) (nth_error chunks i).
Proof.
  revert k i. induction chunks as [|ch chunks IH]; intros k [|i]; cbn; try reflexivity.
  - now rewrite Nat.add_0_r.
  - rewrite IH. now replace (S k + i)%nat with (k + S i)%nat by lia.
Qed.

Lemma evalChunksFrom_length {E} `{JSON E} (c : openAIClient) (input : EvalInput) (zero : E)
    (k : nat) (chunks : list Chunk) :
  List.length (evalChunksFrom c input zero k chunks) = List.length chunks.
Proof. revert k. induction chunks as [|ch chunks IH]; intros k; cbn; [|rewrite IH]; reflexivity. Qed.

Lemma firstErrOf_Some {E} (sched : list nat) (results : list (E * option error))
    (e : error) :
  firstErrOf sched results = Some e ->
  exists i v, In i sched /\ nth_error results i = Some (v, Some e).
Proof.
  induction sched as [|i sched IH]; cbn [firstErrOf]; [discriminate|].
  destruct (nth_error results i) as [[v [e'|]]|] eqn:E'.
  - intros [= ->]. exists i, v. split; [now left | exact E'].
  - intros Hrest. destruct (IH Hrest) as (j & w & Hj & Hw). exists j, w. split; [now right | exact Hw].
  - intros Hrest. destruct (IH Hrest) as (j & w & Hj & Hw). exists j, w. split; [now right | exact Hw].
Qed.

Lemma firstErrOf_None {E} (sched : list nat) (results : list (E * option error)) :
  firstErrOf sched results = None ->
  forall i v e, In i sched -> nth_error results i <> Some (v, Some e).
Proof.
  induction sched as [|j sched IH]; cbn [firstErrOf]; intros Hnone i v e Hin; [destruct Hin|].
  destruct (nth_error results j) as [[w [e'|]]|] eqn:E'; [discriminate|..];
    (destruct Hin as [->|Hin]; [congruence | now apply IH]).
Qed.

(** X14.  Into a pointer to a slice, with a positive number of parallel
    requests and whatever the order in which the goroutines finish,
    [openAIClient.EvaluateJSON] returns one element for each chunk, in the
    order of the chunks: the value that [evalOne] decoded for the chunk, or
    the zero value when [evalOne] failed for it (whatever it had decoded by
    then).  What the target held before is dropped.  The error is nil
    exactly when no chunk failed, and is otherwise the error of one of the
    chunks.  The call sleeps the pause of its rate once for each chunk. *)
Theorem openAI_EvaluateJSON_slice {E} (zero : E) (elemJSON : JSON E)
    (c : openAIClient) (sched : list nat) (input : EvalInput) (out : list E) :
  0 < para c ->
  Permutation sched (seq 0 (List.length (inChunks input))) ->
  exists (outSlice : list E) (err : option error),
    openAI_EvaluateJSON c sched (PtrToSlice E zero elemJSON) input out =
      Done (outSlice, err, dispatchDelay (rpm c) * len (inChunks input)) /\
    List.length outSlice = List.length (inChunks input) /\
    (forall i ch, nth_error (inChunks input) i = Some ch ->
       nth_error outSlice i =
       Some (match snd (evalChunk c input zero i ch) with
             | None => fst (evalChunk c input zero i ch)
             | Some _ => zero
             end)) /\
    (err = None <->
     forall i ch, nth_error (inChunks input) i = Some ch ->
                  snd (evalChunk c input zero i ch) = None) /\
    (forall e, err = Some e ->
       exists i ch, nth_error (inChunks input) i = Some ch /\
                    snd (evalChunk c input zero i ch) = Some e).
Proof.
  intros Hpara Hsched. cbn [openAI_EvaluateJSON].
  replace (para c <? 0) with false by (symmetry; apply Z.ltb_ge; lia).
  replace (para c =? 0) with false by (symmetry; apply Z.eqb_neq; lia).
  cbn [andb]. cbv zeta.
  set (results := evalChunksFrom c input zero 0 (inChunks input)).
  assert (Hnth : forall i, nth_error results i =
                   option_map (evalChunk c input zero i) (nth_error (inChunks input) i))
    by (intros i; apply (evalChunksFrom_nth c input zero 0)).
  eexists _, _. split; [reflexivity|]. split; [|split; [|split]].
  - rewrite length_map. apply evalChunksFrom_length.
  - intros i ch Hch. rewrite nth_error_map, Hnth, Hch. reflexivity.
  - split.
    + intros Hnone i ch Hch.
      destruct (evalChunk c input zero i ch) as [v [e|]] eqn:Hev; [|reflexivity].
      exfalso. apply (firstErrOf_None _ _ Hnone i v e).
      * apply (Permutation_in _ (Permutation_sym Hsched)), in_seq.
        assert (i < List.length (inChunks input))%nat
          by (apply nth_error_Some; congruence). lia.
      * rewrite Hnth, Hch. cbn. now rewrite Hev.
    + intros Hall. destruct (firstErrOf sched results) as [e|] eqn:Hfirst; [|reflexivity].
      apply firstErrOf_Some in Hfirst as (i & v & _ & Hi). rewrite Hnth in Hi.
      destruct (nth_error (inChunks input) i) as [ch|] eqn:Hch; [|discriminate].
      cbn in Hi. injection Hi as Hi. specialize (Hall i ch Hch).
      rewrite Hi in Hall. discriminate.
  - intros e Hfirst. apply firstErrOf_Some in Hfirst as (i & v & _ & Hi).
    rewrite Hnth in Hi.
    destruct (nth_error (inChunks input) i) as [ch|] eqn:Hch; [|discriminate].
    cbn in Hi. injection Hi as Hi. exists i, ch. split; [exact Hch|]. now rewrite Hi.
Qed.

Lemma openAI_EvaluateJSON_slice_witness :
  exists (outSlice : list bool) (err : option error),
    openAI_EvaluateJSON
      {| ocCfg := zeroConfig;
         sdk := fun i _ _ => if (i =? 0)%nat then Ok {| Choices := ["true"] |}
                             else Err "429 Too Many Requests";
         rpm := 120; para := 4 |}
      [1; 0]%nat (PtrToSlice bool false boolJSON)
      {| inPrompt := "Score the code."; inOwner := "u"; inRepo := "A"; inBranch := "main";
         inChunks := toLLMChunks scenarioChunks |} [] =
    Done (outSlice, err, 2 * Second) /\
    outSlice = [true; false] /\ err = Some "429 Too Many Requests".
Proof.
  destruct (openAI_EvaluateJSON_slice false boolJSON
              {| ocCfg := zeroConfig;
                 sdk := fun i _ _ => if (i =? 0)%nat then Ok {| Choices := ["true"] |}
                                     else Err "429 Too Many Requests";
                 rpm := 120; para := 4 |}
              [1; 0]%nat
              {| inPrompt := "Score the code."; inOwner := "u"; inRepo := "A";
                 inBranch := "main"; inChunks := toLLMChunks scenarioChunks |} [])
    as (outSlice & err & Hrun & _).
  - reflexivity.
  - apply perm_swap.
  - exists outSlice, err. vm_compute in Hrun. injection Hrun as <- <-.
    repeat split.
Defined.

(** *** What the OpenAI client leaves of the architecture, the headline and
    the summary *)

(** X15.  [openAIClient.EvaluateJSON] accepts only a pointer to a slice, and
    the architecture, the headline and the summary are asked for into a
    struct.  So behind the OpenAI client, whatever the service answers and
    whatever the rate and parallelism: [evaluateArchitecture] returns the
    empty [archScore] for every repository, [generateHeadlineWithLLM] returns
    the empty string, and [generateSummaryWithLLM] returns the section that
    says the summary is unavailable (or, without results, its fixed
    sentence); none of them sends a request, panics or blocks. *)
Theorem openAI_struct_targets `{GoStd} `{JSON archScore} `{JSON headlineOut}
    `{JSON summaryOut} (s : llmService) (c : openAIClient) (sched : EvalInput -> list nat)
    (repo : RepoTarget) (tree : list string) (user : string) (results : list RepoResult) :
  evaluateArchitecture (withClient s (openAI c sched)) repo tree = Done zeroArchScore /\
  generateHeadlineWithLLM (withClient s (openAI c sched)) user results = Done "" /\
  generateSummaryWithLLM (withClient s (openAI c sched)) user results =
    Done (if len results =? 0 then "No repositories were analyzed."
          else summarySection "<em>Summary unavailable.</em>").
Proof.
  split; [reflexivity|]. split.
  - unfold generateHeadlineWithLLM. now destruct (len results =? 0).
  - unfold generateSummaryWithLLM. now destruct (len results =? 0).
Qed.

(** *** The Gemini client *)

(** X16.  [geminiClient.EvaluateJSON] sends the prompt and the content of
    the first chunk only: the owner, the repository, the branch, the path,
    language and lines of the first chunk and all the other chunks have no
    part in the call. *)
Theorem gemini_reads_first_chunk {T} `{JSON geminiRequest} `{JSON geminiResponse}
    `{JSON T} (g : geminiClient) (ty : outType T) (input : EvalInput) (out : T) :
  gemini_EvaluateJSON g ty input out =
  gemini_EvaluateJSON g ty
    {| inPrompt := inPrompt input; inOwner := ""; inRepo := ""; inBranch := "";
       inChunks :=
         map (fun ch => {| chPath := ""; chStartLine := 0; chEndLine := 0;
                           chContent := chContent ch; chLanguage := "" |})
           (firstn 1 (inChunks input)) |} out.
Proof.
  unfold gemini_EvaluateJSON. cbn [inPrompt inChunks].
  now destruct (inChunks input) as [|ch chunks].
Qed.

(** X17.  The decoding of the Gemini reply agrees with the one of [evalOne]
    wherever that succeeds, and, into anything but a slice, it fails exactly
    where that fails.  Into a slice it succeeds in one more case: when the
    text between the braces decodes as one element, which then is the whole
    slice. *)
Theorem geminiDecode_decodeReply {T} `{JSON T} (ty : outType T) (text : string) (out : T) :
  (snd (decodeReply text out) = None -> geminiDecode ty text out = decodeReply text out) /\
  (snd (geminiDecode ty text out) = None -> snd (decodeReply text out) <> None ->
   exists (js : string),
     extractJSON text = Ok js /\
     match ty in outType T return T -> Prop with
     | PtrToSlice E zero elemJSON => fun result =>
         exists elem : E, Unmarshal js zero = (elem, None) /\ result = [elem]
     | PtrToOther _ => fun _ => False
     end (fst (geminiDecode ty text out))).
Proof.
  unfold geminiDecode, decodeReply.
  destruct (Unmarshal text out) as [out1 [err1|]]; [|split; [reflexivity | cbn; congruence]].
  destruct (extractJSON text) as [js|]; [|split; cbn; congruence].
  destruct (Unmarshal js out1) as [out2 [err2|]]; [|split; [reflexivity | cbn; congruence]].
  split; [cbn; congruence|]. intros Hok _. exists js. split; [reflexivity|].
  destruct ty as [E zero elemJSON|T].
  - destruct (Unmarshal js zero) as [elem [e|]]; [discriminate|]. exists elem. split; reflexivity.
  - discriminate.
Qed.

Lemma geminiDecode_decodeReply_witness :
  geminiDecode (PtrToOther bool) " true " false =
  decodeReply " true " false.
Proof.
  apply (geminiDecode_decodeReply (PtrToOther bool) " true " false).
  vm_compute. reflexivity.
Defined.

(** *** From the configuration file to the calls of the client *)

(** X18.  The OpenAI client that [NewLLMClient] makes of a configuration
    loaded by [LoadConfig] has a positive capacity for parallel requests, so
    its [EvaluateJSON] neither panics on the channel nor blocks on it: for
    every input it returns, into a slice, one element for each chunk. *)
Theorem loaded_client_returns {E} (zero : E) (elemJSON : JSON E)
    (file : result string) (yamlUnmarshal : string -> result Config)
    (getenv : string -> string)
    (newClient : string -> option string -> nat -> ChatRequest -> nat ->
                 result ChatCompletion)
    (httpDo : string -> string -> result httpResponse)
    (cfg : Config) (c : openAIClient) :
  LoadConfig file yamlUnmarshal getenv = Ok cfg ->
  NewLLMClient cfg getenv newClient httpDo = Ok (OpenAIClient c) ->
  0 < para c /\ 0 < rpm c /\
  forall (sched : list nat) (input : EvalInput) (out : list E),
  exists (outSlice : list E) (err : option error) (slept : Z),
    openAI_EvaluateJSON c sched (PtrToSlice E zero elemJSON) input out =
      Done (outSlice, err, slept) /\
    List.length outSlice = List.length (inChunks input).
Proof.
  intros Hload Hnew.
  assert (Hpos : 0 < para c /\ 0 < rpm c).
  { unfold LoadConfig in Hload. destruct file as [b|]; [|discriminate].
    destruct (yamlUnmarshal b) as [c0|]; [|discriminate]. injection Hload as <-.
    unfold NewLLMClient in Hnew. cbn [cfgLLM Provider APIKey Endpoint RequestsPerMinute
                                       ParallelRequests] in Hnew.
    destruct (_ || _).
    - destruct (String.eqb (if String.eqb _ "" then _ else _) ""); [discriminate|].
      injection Hnew as <-. cbn [para rpm].
      split.
      + destruct (ParallelRequests (cfgLLM c0) <=? 0) eqn:E'; [lia|].
        apply Z.leb_gt in E'. lia.
      + destruct (RequestsPerMinute (cfgLLM c0) <=? 0) eqn:E'; [lia|].
        apply Z.leb_gt in E'. lia.
    - destruct (String.eqb _ "gemini"); [|discriminate].
      destruct (String.eqb (if String.eqb _ "" then _ else _) ""); discriminate. }
  destruct Hpos as [Hpara Hrpm]. repeat split; try assumption.
  intros sched input out. cbn [openAI_EvaluateJSON].
  replace (para c <? 0) with false by (symmetry; apply Z.ltb_ge; lia).
  replace (para c =? 0) with false by (symmetry; apply Z.eqb_neq; lia).
  cbn [andb]. cbv zeta. eexists _, _, _. split; [reflexivity|].
  rewrite length_map. apply evalChunksFrom_length.
Qed.

Lemma loaded_client_returns_witness :
  0 < 4 /\ 0 < 60.
Proof.
  destruct (loaded_client_returns false boolJSON
              (Ok "") (fun _ => Ok zeroConfig)
              (fun name => if String.eqb name "OPENAI_API_KEY" then "sk-test" else "")
              (fun _ _ _ _ _ => Err "connection refused")
              (fun _ _ => Err "connection refused")
              (configWithChunks 0)
              {| ocCfg := configWithChunks 0;
                 sdk := fun _ _ _ => Err "connection refused"; rpm := 60; para := 4 |})
    as (Hpara & Hrpm & _).
  - reflexivity.
  - reflexivity.
  - split; assumption.
Defined.

(** *** When [evaluateRepo] and [Submit] return *)

Lemma evaluateRepo_total `{GoStd} (s : service) (repo : RepoTarget) :
  7 <= Z.of_nat (String.length
                   (fst (GetLatestCommitSHA (gh s) (Owner repo) (Name repo)
                           (DefaultBranch repo)))) ->
  0 <= MaxChunkBytes (cfgApp (cfg s)) ->
  (forall chunks,
     (List.length (fst (scoreChunks s repo chunks)) <= List.length chunks)%nat) ->
  exists res err, evaluateRepo s repo = Returns (res, err).
Proof.
  intros Hsha Hmax Hscores. unfold evaluateRepo.
  destruct (GetLatestCommitSHA _ _ _ _) as [sha e]. cbn [fst] in Hsha.
  replace (Z.of_nat (String.length sha) <? 7) with false
    by (symmetry; apply Z.ltb_ge; exact Hsha).
  destruct (ListTree _ _ _ _ _) as [tree|err]; [|eauto].
  destruct (sampleChunksFrom_returns s repo sha (pickPaths tree (cfg s)) [] Hmax)
    as [chunks Hchunks].
  unfold sampleChunks. rewrite Hchunks. cbn [bindOutcome].
  destruct (len chunks =? 0); [eauto|].
  specialize (Hscores chunks). destruct (scoreChunks s repo chunks) as [scores e'].
  cbn [fst] in Hscores.
  destruct (forRange_tally_returns repo chunks scores 0 emptyTally) as [st Hst];
    [lia|].
  rewrite Hst. cbn [bindOutcome]. eauto.
Qed.

Lemma evaluateAll_total `{GoStd} (s : service) (repos : list RepoTarget) :
  (forall repo, In repo repos -> exists res err, evaluateRepo s repo = Returns (res, err)) ->
  exists results, evaluateAll s repos = Returns results.
Proof.
  induction repos as [|repo repos IH]; intros Hall; cbn [evaluateAll]; [eauto|].
  destruct (Hall repo (or_introl eq_refl)) as (res & err & ->). cbn [bindOutcome].
  destruct IH as [results ->]; [intros r Hr; apply Hall; now right|].
  cbn [bindOutcome]. eauto.
Qed.

(** X19.  Once repositories are found, the capacity [ParallelRequests] of
    the semaphore decides whether [Submit] gets anywhere: with a negative
    capacity it panics in [make], with capacity zero it blocks for ever, and
    neither evaluates a repository.  With a positive capacity (as every
    configuration of [LoadConfig] has) [Submit] returns, with a report,
    whenever no repository can panic: every commit SHA that the GitHub side
    gives has at least seven bytes, [MaxChunkBytes] is not negative, and the
    LLM client never leaves more scores than it was given chunks. *)
Theorem Submit_returns `{GoStd} (s : service) (user : string)
    (repos : list RepoTarget) :
  ghDiscoverUserRepos (gh s) user (optionsOf (cfg s)) = Ok repos ->
  repos <> [] ->
  (ParallelRequests (cfgLLM (cfg s)) < 0 ->
   Submit s user = Panic "makechan: size out of range") /\
  (ParallelRequests (cfgLLM (cfg s)) = 0 -> Submit s user = Blocked) /\
  (0 < ParallelRequests (cfgLLM (cfg s)) ->
   (forall owner name ref,
      7 <= Z.of_nat (String.length (fst (GetLatestCommitSHA (gh s) owner name ref)))) ->
   0 <= MaxChunkBytes (cfgApp (cfg s)) ->
   (forall repo chunks,
      (List.length (fst (scoreChunks s repo chunks)) <= List.length chunks)%nat) ->
   exists page, Submit s user = Done (Ok page)).
Proof.
  intros Hdisc Hrepos. unfold Submit. rewrite Hdisc.
  replace (len repos =? 0) with false
    by (symmetry; apply Z.eqb_neq; unfold len; destruct repos; [congruence|];
        cbn [List.length]; lia).
  cbv zeta. split; [|split].
  - intros Hneg. apply Z.ltb_lt in Hneg. now rewrite Hneg.
  - intros ->. reflexivity.
  - intros Hpos Hsha Hmax Hscores.
    replace (ParallelRequests (cfgLLM (cfg s)) <? 0) with false
      by (symmetry; apply Z.ltb_ge; lia).
    replace (ParallelRequests (cfgLLM (cfg s)) =? 0) with false
      by (symmetry; apply Z.eqb_neq; lia).
    destruct (evaluateAll_total s repos) as [results ->]; [|eauto].
    intros repo _. apply evaluateRepo_total; [apply Hsha | exact Hmax | apply Hscores].
Qed.

Lemma Submit_returns_witness :
  exists page, Submit (H := asciiStd) (resolvedRefService []) "u" = Done (Ok page).
Proof.
  refine (proj2 (proj2 (Submit_returns (H := asciiStd) (resolvedRefService []) "u"
                          [scenarioRepo] eq_refl _)) _ _ _ _).
  - discriminate.
  - reflexivity.
  - intros owner name ref. vm_compute. discriminate.
  - vm_compute. discriminate.
  - intros repo chunks. cbn. now rewrite length_map.
Defined.

(** The two other capacities, on the same service. *)
Example Submit_without_capacity :
  let withCapacity n :=
    {| cfg := {| cfgApp := cfgApp (configWithChunks 2);
                 cfgAuth := cfgAuth (configWithChunks 2);
                 cfgLLM := {| Provider := ""; Model := ""; APIKey := ""; Endpoint := "";
                              MaxTokens := 0; Temperature := 0%float;
                              RequestsPerMinute := 60; ParallelRequests := n |} |};
       gh := gh (resolvedRefService []);
       scoreChunks := scoreChunks (resolvedRefService []);
       archOf := archOf (resolvedRefService []);
       report := report (resolvedRefService []) |} in
  Submit (H := asciiStd) (withCapacity 0) "u" = Blocked /\
  Submit (H := asciiStd) (withCapacity (-1)) "u" = Panic "makechan: size out of range".
Proof. vm_compute. split; reflexivity. Qed.

(** *** The caches of the GitHub side *)

(** What is written is read back while it is fresh, when the encoder and
    the decoder agree on the value. *)
Lemma writeCache_then_readCache {T} `{JSON T} (os : OS) (now later : Z) (path : string)
    (v target : T) (ttl : Z) (b : string) :
  mkdirAllErr os path = None -> writeFileErr os path = None ->
  Marshal v = Ok b -> Unmarshal b target = (v, None) ->
  Since later now <= ttl ->
  readCache (fst (writeCache os now path v)) later path target ttl = (true, None, v).
Proof.
  intros Hmk Hwr Hm Hun Hfresh. unfold writeCache. rewrite Hmk, Hm, Hwr. cbn [fst].
  unfold readCache. cbn [files]. rewrite lookup_insert_eq. cbn [entStat entData].
  apply Z.ltb_ge in Hfresh. rewrite Hfresh. now rewrite Hun.
Qed.

Lemma getCachePath_writeCache `{GoStd} {T} `{JSON T} (os : OS) (now : Z) (path : string)
    (v : T) (elem : list string) :
  getCachePath (fst (writeCache os now path v)) elem = getCachePath os elem.
Proof.
  unfold getCachePath, writeCache.
  destruct (mkdirAllErr os path); [reflexivity|].
  destruct (Marshal v); [|reflexivity].
  now destruct (writeFileErr os path).
Qed.

(** X20.  The cache file of [ReadFile] is named after the path with every
    slash turned into an underscore.  So once a file has been fetched and
    cached, a read of any path with the same flattened name (the same path
    or another one), for the same owner, repository and SHA and within the
    thirty days, returns the bytes of the first file, whatever the reference
    asked for and without a request to GitHub. *)
Theorem implReadFile_flattened_name `{GoStd} {bytesJSON : JSON string}
    (g : restClient) (os : OS) (t1 t2 t3 t4 : Z)
    (owner repo ref path1 path2 sha cachePath content encoded : string) :
  replaceByte "/" "_" path1 = replaceByte "/" "_" path2 ->
  getCachePath os [owner; repo; sha; (replaceByte "/" "_" path1 ++ ".cache")%string]
    = Ok cachePath ->
  fst (fst (readCache os t1 cachePath "" commitTTL)) = false ->
  getContents g owner repo path1 ref = Ok (Some (Ok content)) ->
  mkdirAllErr os cachePath = None -> writeFileErr os cachePath = None ->
  Marshal content = Ok encoded -> Unmarshal encoded "" = (content, None) ->
  Since t3 t2 <= commitTTL ->
  snd (implReadFile g os t1 t2 owner repo ref path1 sha) = Ok content /\
  forall (g' : restClient) (ref' : string),
    snd (implReadFile g' (fst (implReadFile g os t1 t2 owner repo ref path1 sha)) t3 t4
           owner repo ref' path2 sha) = Ok content.
Proof.
  intros Hflat Hpath Hmiss Hget Hmk Hwr Hm Hun Hfresh.
  assert (Hfirst : implReadFile g os t1 t2 owner repo ref path1 sha =
                   (fst (writeCache os t2 cachePath content), Ok content)).
  { unfold implReadFile. cbv zeta. rewrite Hpath.
    destruct (readCache os t1 cachePath "" commitTTL) as [[hit e] cached].
    cbn [fst] in Hmiss. subst hit. now rewrite Hget. }
  rewrite Hfirst. cbn [fst snd]. split; [reflexivity|]. intros g' ref'.
  unfold implReadFile. cbv zeta. rewrite <- Hflat, getCachePath_writeCache, Hpath.
  now rewrite (writeCache_then_readCache os t2 t3 cachePath content "" commitTTL encoded).
Qed.

Lemma implReadFile_flattened_name_witness :
  snd (implReadFile (H := asciiStd) (bytesJSON := bytesJSON) offlineClient
         (fst (implReadFile (H := asciiStd) (bytesJSON := bytesJSON) oneFileClient
                 emptyDisk 1000 1001 "u" "A" "main" "a/b_c.go" "3f2a9c1d5e"))
         2000 2001 "u" "A" "dev" "a_b/c.go" "3f2a9c1d5e") = Ok "package a".
Proof.
  refine (proj2 (implReadFile_flattened_name (H := asciiStd) (bytesJSON := bytesJSON)
                   oneFileClient emptyDisk 1000 1001 2000 2001
                   "u" "A" "main" "a/b_c.go" "a_b/c.go" "3f2a9c1d5e"
                   "/home/u/.cache/ghp/u/A/3f2a9c1d5e/a_b_c.go.cache" "package a"
                   (quote ++ "cGFja2FnZSBh" ++ quote)%string
                   _ _ _ _ _ _ _ _ _) offlineClient "dev");
    try reflexivity.
  vm_compute. discriminate.
Defined.

Lemma blobPaths_filter (entries : list (option TreeEntry)) :
  blobPaths entries =
  map tePath (List.filter (fun te => String.eqb (teType te) "blob") (omap id entries)).
Proof.
  unfold blobPaths.
  assert (Hgen : forall acc,
            fold_left
              (fun paths te =>
                 match te with
                 | None => paths
                 | Some te =>
                     if String.eqb (teType te) "blob" then paths ++ [tePath te] else paths
                 end) entries acc =
            acc ++ map tePath (List.filter (fun te => String.eqb (teType te) "blob")
                                 (omap id entries))).
  { induction entries as [|[te|] entries IH]; intros acc; cbn [fold_left].
    - cbn. now rewrite app_nil_r.
    - rewrite IH. change (omap id (Some te :: entries)) with (te :: omap id entries).
      cbn [List.filter]. destruct (String.eqb (teType te) "blob").
      + cbn [map]. now rewrite <- app_assoc.
      + reflexivity.
    - apply IH. }
  apply (Hgen []).
Qed.

(** X21.  On a miss, [ListTree] returns the paths of the entries that are
    blobs, in the order of the tree, nil entries skipped.  Once that list is
    cached, a call for the same owner, repository and SHA within the thirty
    days returns it again, whatever the reference asked for and without a
    request to GitHub. *)
Theorem implListTree_cached `{GoStd} `{JSON (list string)} (g : restClient) (os : OS)
    (t1 t2 t3 t4 : Z) (owner repo ref sha cachePath encoded : string)
    (entries : list (option TreeEntry)) :
  getCachePath os [owner; repo; (sha ++ "-tree.json")%string] = Ok cachePath ->
  fst (fst (readCache os t1 cachePath [] commitTTL)) = false ->
  gitGetTree g owner repo sha = Ok entries ->
  mkdirAllErr os cachePath = None -> writeFileErr os cachePath = None ->
  Marshal (blobPaths entries) = Ok encoded ->
  Unmarshal encoded [] = (blobPaths entries, None) ->
  Since t3 t2 <= commitTTL ->
  let paths :=
    map tePath (List.filter (fun te => String.eqb (teType te) "blob") (omap id entries)) in
  snd (implListTree g os t1 t2 owner repo ref sha) = Ok paths /\
  forall (g' : restClient) (ref' : string),
    snd (implListTree g' (fst (implListTree g os t1 t2 owner repo ref sha)) t3 t4
           owner repo ref' sha) = Ok paths.
Proof.
  intros Hpath Hmiss Hget Hmk Hwr Hm Hun Hfresh paths. subst paths.
  rewrite <- blobPaths_filter.
  assert (Hfirst : implListTree g os t1 t2 owner repo ref sha =
                   (fst (writeCache os t2 cachePath (blobPaths entries)),
                    Ok (blobPaths entries))).
  { unfold implListTree. rewrite Hpath.
    destruct (readCache os t1 cachePath [] commitTTL) as [[hit e] cached].
    cbn [fst] in Hmiss. subst hit. now rewrite Hget. }
  rewrite Hfirst. cbn [fst snd]. split; [reflexivity|]. intros g' ref'.
  unfold implListTree. rewrite getCachePath_writeCache, Hpath.
  now rewrite (writeCache_then_readCache os t2 t3 cachePath (blobPaths entries) []
                 commitTTL encoded).
Qed.

Lemma implListTree_cached_witness :
  snd (implListTree (H := asciiStd) offlineClient
         (fst (implListTree (H := asciiStd) oneFileClient emptyDisk 1000 1001
                 "u" "A" "main" "3f2a9c1d5e"))
         2000 2001 "u" "A" "dev" "3f2a9c1d5e") = Ok ["a/b_c.go"].
Proof.
  refine (proj2 (implListTree_cached (H := asciiStd) oneFileClient emptyDisk
                   1000 1001 2000 2001 "u" "A" "main" "3f2a9c1d5e"
                   "/home/u/.cache/ghp/u/A/3f2a9c1d5e-tree.json"
                   ("[" ++ quote ++ "a/b_c.go" ++ quote ++ "]")%string
                   [Some {| teType := "tree"; tePath := "a" |}; None;
                    Some {| teType := "blob"; tePath := "a/b_c.go" |}]
                   _ _ _ _ _ _ _ _) offlineClient "dev");
    try reflexivity.
  vm_compute. discriminate.
Defined.

(** X22.  The cache file of [DiscoverUserRepos] is named after the handle
    alone.  So once the repositories of a user have been discovered under
    some options, a call for the same user within the hour returns that same
    list under any other options (another limit, other switches) and without
    a query to GitHub. *)
Theorem DiscoverUserRepos_ignores_options `{G : GoStd} `{JSON (list RepoTarget)}
    (g : ghRepoImpl) (os : OS) (t1 t2 t3 t4 : Z) (handle cachePath encoded : string)
    (opt : discoverOptions) (q : userRepoQuery) :
  getCachePath os [("repos-" ++ handle ++ ".json")%string] = Ok cachePath ->
  fst (fst (readCache os t1 cachePath [] (1 * Hour))) = false ->
  graphqlQuery g handle = Ok q ->
  mkdirAllErr os cachePath = None -> writeFileErr os cachePath = None ->
  Marshal (discoverTargets opt q) = Ok encoded ->
  Unmarshal encoded [] = (discoverTargets opt q, None) ->
  Since t3 t2 <= 1 * Hour ->
  snd (DiscoverUserRepos g os t1 t2 handle opt) = Ok (discoverTargets opt q) /\
  forall (g' : ghRepoImpl) (opt' : discoverOptions),
    snd (DiscoverUserRepos g' (fst (DiscoverUserRepos g os t1 t2 handle opt)) t3 t4
           handle opt') = Ok (discoverTargets opt q).
Proof.
  intros Hpath Hmiss Hq Hmk Hwr Hm Hun Hfresh.
  assert (Hfirst : DiscoverUserRepos g os t1 t2 handle opt =
                   (fst (writeCache os t2 cachePath (discoverTargets opt q)),
                    Ok (discoverTargets opt q))).
  { unfold DiscoverUserRepos. rewrite Hpath.
    destruct (readCache os t1 cachePath [] (1 * Hour)) as [[hit e] cached].
    cbn [fst] in Hmiss. subst hit. now rewrite Hq. }
  rewrite Hfirst. cbn [fst snd]. split; [reflexivity|]. intros g' opt'.
  unfold DiscoverUserRepos. rewrite getCachePath_writeCache, Hpath.
  now rewrite (writeCache_then_readCache os t2 t3 cachePath (discoverTargets opt q) []
                 (1 * Hour) encoded).
Qed.

Lemma DiscoverUserRepos_ignores_options_witness :
  snd (DiscoverUserRepos (H := asciiStd)
         {| graphqlQuery := fun _ => Err "dial tcp: no route to host" |}
         (fst (DiscoverUserRepos (H := asciiStd)
                 {| graphqlQuery := fun _ => Ok scenarioQuery |}
                 emptyDisk 1000 1001 "u" scenarioOptions))
         2000 2001 "u"
         {| Limit := 1; optIncludePinned := false; optIncludeNonPinned := true;
            optExcludeForks := true |}) =
  Ok [repoGraphQLToTarget (nodeOf "A" 5) true; repoGraphQLToTarget (nodeOf "B" 1) true].
Proof.
  refine (proj2 (DiscoverUserRepos_ignores_options (G := asciiStd)
                   {| graphqlQuery := fun _ => Ok scenarioQuery |}
                   emptyDisk 1000 1001 2000 2001 "u"
                   "/home/u/.cache/ghp/repos-u.json"
                   (writeJSON (JArray (map encodeTarget
                      (discoverTargets (H := asciiStd) scenarioOptions scenarioQuery))))
                   scenarioOptions scenarioQuery _ _ _ _ _ _ _ _)
            {| graphqlQuery := fun _ => Err "dial tcp: no route to host" |}
            {| Limit := 1; optIncludePinned := false; optIncludeNonPinned := true;
               optExcludeForks := true |});
    try reflexivity.
  vm_compute. discriminate.
Defined.

(** *** Files without an extension *)

Lemma extScan_dot (l e : string) :
  extScan l = Some e -> e = "" \/ exists w, e = String "." w.
Proof.
  revert e. induction l as [|c l IH]; intros e; cbn [extScan]; [discriminate|].
  destruct (extScan l) as [e'|]; [intros [= <-]; now apply IH|].
  destruct (Ascii.eqb c "/"); [intros [= <-]; now left|].
  destruct (Ascii.eqb_spec c "."); [|discriminate]. intros [= <-]. subst c. right. eauto.
Qed.

(** X23.  [filepath.Ext] gives the empty string or a string that starts
    with a dot, so the case [dockerfile] of the switch on the extension never
    matches: a file without an extension, a Dockerfile among them, gets no
    bonus for its type and scores at most 30. *)
Theorem scorePath_without_extension `{GoStd} (p : string) :
  Ext (ToLower p) <> "dockerfile" /\
  (Ext (ToLower p) = "" -> scorePath p <= 30).
Proof.
  split.
  - unfold Ext. destruct (extScan (ToLower p)) as [e|] eqn:E; [|discriminate].
    apply extScan_dot in E as [->|[w ->]]; discriminate.
  - intros Hext. unfold scorePath. cbv zeta. rewrite Hext. cbn [oneOf existsb String.eqb orb].
    set (l := ToLower p).
    destruct (Contains l "/vendor/" || _ || _ || _ || _); [lia|].
    destruct (HasPrefix l "gen/" || _ || _); [lia|].
    destruct (HasSuffix l ".png" || _ || _ || _ || _); [lia|].
    destruct (HasSuffix l ".lock" || HasSuffix l "go.sum"); [lia|].
    destruct (HasPrefix l "cmd/") eqn:Ecmd.
    + rewrite (cmd_prefix_exclusive l Ecmd).
      repeat match goal with |- context [if ?c then _ else _] => destruct c end; lia.
    + repeat match goal with |- context [if ?c then _ else _] => destruct c end; lia.
Qed.

Example scorePath_Dockerfile :
  scorePath (H := asciiStd) "Dockerfile" = 10 /\
  scorePath (H := asciiStd) "deploy/main.tf" = 15.
Proof. vm_compute. split; reflexivity. Qed.

(** *** The prompts of the service *)

(** X24.  [NewService] succeeds exactly when the four fixed prompts can be
    read from the embedded files and the repository prompt can be read from
    [PromptPath] or, failing that, from the embedded files.  A [PromptPath]
    that is set but cannot be read is not an error: the embedded prompt is
    used silently.  Of the prompts only the repository prompt can come from
    the disk; the client and the configuration are stored as given. *)
Theorem NewService_prompts (readDisk readEmbed : string -> result string)
    (cfg : Config) (client : Client) :
  let diskPath := PromptPath (cfgApp cfg) in
  let fromDisk :=
    if String.eqb diskPath "" then None
    else match readDisk diskPath with Ok b => Some b | Err _ => None end in
  (forall s,
     NewService readDisk readEmbed cfg client = Ok s <->
     exists repo summary headline standard monorepo,
       match fromDisk with
       | Some b => repo = b
       | None => readable readEmbed "prompts/prompt.txt" repo
       end /\
       readable readEmbed "prompts/summary.txt" summary /\
       readable readEmbed "prompts/headline_summary.txt" headline /\
       readable readEmbed "prompts/arch_standard.txt" standard /\
       readable readEmbed "prompts/arch_monorepo.txt" monorepo /\
       s = {| sfCfg := cfg;
              sfPrompts := {| llm := client; repoPrompt := repo;
                              summaryPrompt := summary; headlinePrompt := headline;
                              standardArchPrompt := standard;
                              monoRepoArchPrompt := monorepo |};
              sfToken := GithubToken (cfgAuth cfg) |}).
Proof.
  intros diskPath fromDisk s. subst fromDisk diskPath.
  unfold NewService, loadPrompt, wrapErr, readable. cbn [String.eqb negb].
  destruct (String.eqb (PromptPath (cfgApp cfg)) ""); cbn [negb];
    [|destruct (readDisk (PromptPath (cfgApp cfg))) as [b|e]];
    destruct (readEmbed "prompts/prompt.txt") as [repo|e0];
    destruct (readEmbed "prompts/summary.txt") as [summary|e1];
    destruct (readEmbed "prompts/headline_summary.txt") as [headline|e2];
    destruct (readEmbed "prompts/arch_standard.txt") as [standard|e3];
    destruct (readEmbed "prompts/arch_monorepo.txt") as [monorepo|e4];
    cbn [fst];
    (split;
     [ first [ discriminate
             | intros [= <-]; eexists _, _, _, _, _; repeat split; reflexivity ]
     | intros (? & ? & ? & ? & ? & H0 & H1 & H2 & H3 & H4 & ->);
       try discriminate;
       repeat match goal with
              | H : Ok _ = Ok _ |- _ => injection H as <-
              end;
       subst; reflexivity ]).
Qed.

(** *** The text of the LLM in the page *)

Lemma htmlSafe_app (s t : string) : htmlSafe (s ++ t) = htmlSafe s && htmlSafe t.
Proof.
  induction s as [|c s IH]; [reflexivity|].
  rewrite append_cons. cbn [htmlSafe]. rewrite IH. now rewrite andb_assoc.
Qed.

Lemma EscapeString_safe (s : string) : htmlSafe (EscapeString s) = true.
Proof.
  induction s as [|c s IH]; [reflexivity|].
  cbn [EscapeString]. rewrite htmlSafe_app, IH, andb_true_r. unfold escapeByte.
  destruct (Ascii.eqb c "&"); [reflexivity|].
  destruct (Ascii.eqb c "'") eqn:E1; [reflexivity|].
  destruct (Ascii.eqb c "<") eqn:E2; [reflexivity|].
  destruct (Ascii.eqb c ">") eqn:E3; [reflexivity|].
  destruct (Ascii.eqb c "034") eqn:E4; [reflexivity|].
  cbn [htmlSafe]. now rewrite E1, E2, E3, E4.
Qed.

(** X25.  Whatever the client answers, the text that it leaves for the
    headline or the summary reaches the page only escaped: the headline is
    empty or its fixed section around a text without [<], [>] and quotes,
    and the summary is its fixed sentence or its fixed section around such a
    text or around the notice that the summary is unavailable. *)
Theorem llm_text_is_escaped `{JSON headlineOut} `{JSON summaryOut} (s : llmService)
    (user : string) (results : list RepoResult) :
  (forall page, generateHeadlineWithLLM s user results = Done page ->
     page = "" \/
     exists text,
       htmlSafe (EscapeString text) = true /\
       page = ("<section class=" ++ quote
               ++ "mt-4 mb-8 p-4 bg-sky-50 border-l-4 border-sky-400" ++ quote
               ++ "><p class=" ++ quote ++ "text-sky-800" ++ quote ++ ">"
               ++ EscapeString text ++ "</p></section>")%string) /\
  (forall page, generateSummaryWithLLM s user results = Done page ->
     page = "No repositories were analyzed." \/
     page = summarySection "<em>Summary unavailable.</em>" \/
     exists text,
       htmlSafe (EscapeString text) = true /\
       page = summarySection (EscapeString text)).
Proof.
  split; intros page.
  - unfold generateHeadlineWithLLM. destruct (len results =? 0); [intros [= <-]; now left|].
    destruct (EvaluateJSON _ _ _ _ _ _) as [[out err]| |]; try discriminate.
    destruct (_ || _); intros [= <-]; [now left|].
    right. exists (Headline out). split; [apply EscapeString_safe | reflexivity].
  - unfold generateSummaryWithLLM. destruct (len results =? 0); [intros [= <-]; now left|].
    destruct (EvaluateJSON _ _ _ _ _ _) as [[out err]| |]; try discriminate.
    destruct (_ || _); intros [= <-]; [right; now left|].
    right. right. exists (Summary out). split; [apply EscapeString_safe | reflexivity].
Qed.

(** *** The languages of the page *)









(** *** A branch that GitHub cannot resolve *)

(** X27.  [GetLatestCommitSHA] turns every failure of [Git.GetRef] into the
    empty SHA.  So in a service on the REST implementation, a discovered
    repository whose default branch cannot be resolved (a missing branch, an
    empty repository, a failed request) makes [evaluateRepo] panic on
    [sha[:7]], and with it [Submit] for the whole user: [Submit] gives no
    report, and it panics unless the capacity of its semaphore is zero. *)
Theorem unresolved_branch_panics `{GoStd} (s : service) (g : restClient) (user : string)
    (repos : list RepoTarget) (repo : RepoTarget) (err : error) :
  GetLatestCommitSHA (gh s) = implGetLatestCommitSHA g ->
  gitGetRef g (Owner repo) (Name repo) ("heads/" ++ DefaultBranch repo) = Err err ->
  ghDiscoverUserRepos (gh s) user (optionsOf (cfg s)) = Ok repos ->
  In repo repos ->
  evaluateRepo s repo = Panics "slice bounds out of range" /\
  (forall r, Submit s user <> Done r) /\
  (ParallelRequests (cfgLLM (cfg s)) <> 0 -> exists msg, Submit s user = Panic msg).
Proof.
  intros Himpl Href Hdisc Hin.
  assert (Hpanic : evaluateRepo s repo = Panics "slice bounds out of range").
  { unfold evaluateRepo. rewrite Himpl. unfold implGetLatestCommitSHA.
    now rewrite Href. }
  split; [exact Hpanic|]. unfold Submit. rewrite Hdisc.
  destruct repos as [|r repos]; [destruct Hin|].
  replace (len (r :: repos) =? 0) with false
    by (symmetry; apply Z.eqb_neq; unfold len; cbn [List.length]; lia).
  destruct (evaluateAll_panics s (r :: repos) repo _ Hin Hpanic) as [msg ->].
  cbv zeta. destruct (Z.ltb_spec (ParallelRequests (cfgLLM (cfg s))) 0).
  { split; [discriminate | eauto]. }
  destruct (Z.eqb_spec (ParallelRequests (cfgLLM (cfg s))) 0).
  { split; [discriminate | contradiction]. }
  split; [discriminate | eauto].
Qed.

Lemma unresolved_branch_panics_witness :
  exists msg,
    Submit (H := asciiStd)
      {| cfg := configWithChunks 2;
         gh := {| ghDiscoverUserRepos := fun _ _ => Ok [scenarioRepo];
                  GetLatestCommitSHA := implGetLatestCommitSHA offlineClient;
                  ListTree := fun _ _ _ _ => Ok ["main.go"];
                  ReadFile := fun _ _ _ _ _ => Ok "package main" |};
         scoreChunks := scoreChunks (resolvedRefService []);
         archOf := archOf (resolvedRefService []);
         report := report (resolvedRefService []) |} "u" = Panic msg.
Proof.
  refine (proj2 (proj2 (unresolved_branch_panics (H := asciiStd)
                   {| cfg := configWithChunks 2;
                      gh := {| ghDiscoverUserRepos := fun _ _ => Ok [scenarioRepo];
                               GetLatestCommitSHA := implGetLatestCommitSHA offlineClient;
                               ListTree := fun _ _ _ _ => Ok ["main.go"];
                               ReadFile := fun _ _ _ _ _ => Ok "package main" |};
                      scoreChunks := scoreChunks (resolvedRefService []);
                      archOf := archOf (resolvedRefService []);
                      report := report (resolvedRefService []) |}
                   offlineClient "u" [scenarioRepo] scenarioRepo
                   "dial tcp: no route to host" _ _ _ _)) _); try reflexivity.
  - now left.
  - discriminate.
Defined.

(** *** The scoring loop behind the OpenAI client *)

Lemma toLLMChunks_length (chunks : list FileChunk) :
  List.length (toLLMChunks chunks) = List.length chunks.
Proof. unfold toLLMChunks. apply length_map. Qed.

(** X28.  When the scores of [evaluateRepo] come from
    [openAIClient.EvaluateJSON], there is one score for each chunk, so the
    scoring loop never reads a chunk that is not there: with a commit SHA of
    seven bytes or more and a [MaxChunkBytes] that is not negative,
    [evaluateRepo] returns. *)
Theorem evaluateRepo_openAI_returns `{GoStd} {scoreDecoder : JSON ChunkScore}
    (s : service) (c : openAIClient) (repoPrompt : string) (repo : RepoTarget) :
  (forall chunks, exists sched slept,
     openAI_EvaluateJSON c sched (PtrToSlice ChunkScore zeroChunkScore scoreDecoder)
       (scoringInput repoPrompt repo chunks) [] =
     Done (scoreChunks s repo chunks, slept)) ->
  7 <= Z.of_nat (String.length
                   (fst (GetLatestCommitSHA (gh s) (Owner repo) (Name repo)
                           (DefaultBranch repo)))) ->
  0 <= MaxChunkBytes (cfgApp (cfg s)) ->
  (forall chunks,
     List.length (fst (scoreChunks s repo chunks)) = List.length chunks) /\
  exists res err, evaluateRepo s repo = Returns (res, err).
Proof.
  intros Hclient Hsha Hmax.
  assert (Hlen : forall chunks,
            List.length (fst (scoreChunks s repo chunks)) = List.length chunks).
  { intros chunks. destruct (Hclient chunks) as (sched & slept & Hrun).
    cbn [openAI_EvaluateJSON] in Hrun.
    destruct (para c <? 0); [discriminate|].
    destruct ((para c =? 0) && _); [discriminate|].
    cbv zeta in Hrun. injection Hrun as Hscores _. rewrite <- Hscores. cbn [fst].
    rewrite length_map, evalChunksFrom_length. cbn [scoringInput inChunks].
    apply toLLMChunks_length. }
  split; [exact Hlen|].
  apply evaluateRepo_total; [exact Hsha | exact Hmax|].
  intros chunks. rewrite Hlen. lia.
Qed.

Lemma evaluateRepo_openAI_returns_witness :
  exists res err,
    evaluateRepo (H := asciiStd) (openAIService "{}") scenarioRepo = Returns (res, err).
Proof.
  refine (proj2 (evaluateRepo_openAI_returns (H := asciiStd) (scoreDecoder := scoreJSON)
                   (openAIService "{}") (answeringClient "{}") "Score the code."
                   scenarioRepo _ _ _)).
  - intros chunks. eexists [], _. reflexivity.
  - vm_compute. discriminate.
  - vm_compute. discriminate.
Defined.

Example evaluateRepo_openAI_scores :
  let field name := (quote ++ name ++ quote ++ ":3")%string in
  let reply :=
    ("Here is the JSON: {" ++ field "readability" ++ "," ++ field "design" ++ ","
     ++ field "testing" ++ "," ++ field "maintainability" ++ "," ++ field "idiomatic"
     ++ "," ++ field "security" ++ "} as requested.")%string in
  match evaluateRepo (H := asciiStd) (openAIService reply) scenarioRepo with
  | Returns (res, _) => Score res = 60 /\ Chunks res = 1
  | Panics _ => False
  end.
Proof. vm_compute. split; reflexivity. Qed.
